(** * Langton's-ant engine of sketch.js: validator, automaton, grid, rate control

    A shallow embedding of the functions of [src/sketch.js] that make up the
    automaton engine ([validateAntConfig], [parseAntConfig],
    [serializeAntConfig], [AntSim], [Ant], the batching interval), followed
    by the properties established about them. *)

From Stdlib Require Import ZArith QArith Qround List String Ascii Bool Lia.
Import ListNotations.
Open Scope Z_scope.

(** ** JavaScript numbers

    A JavaScript number is modelled exactly: an integer, a rational that is
    not an integer, or NaN.  Rounding of doubles, the two infinities and the
    negative zero are outside the model.  Integers are kept apart from the
    other rationals so that integer arithmetic is plain [Z] arithmetic;
    [of_Q] restores that normal form after every rational operation. *)
Module Num.

Inductive number : Type :=
| Int (z : Z)
| Frac (q : Q)
| NaN.

Definition of_Q (q : Q) : number :=
  let r := Qred q in
  if (Zpos (Qden r) =? 1) then Int (Qnum r) else Frac r.

Definition to_Q (n : number) : option Q :=
  match n with
  | Int z => Some (inject_Z z)
  | Frac q => Some q
  | NaN => None
  end.

(** Lifting of a rational operation, NaN being absorbing. *)
Definition lift2 (f : Q -> Q -> Q) (a b : number) : number :=
  match to_Q a, to_Q b with
  | Some p, Some q => of_Q (f p q)
  | _, _ => NaN
  end.

(** [a + b] on numbers. *)
Definition add (a b : number) : number :=
  match a, b with
  | Int x, Int y => Int (x + y)
  | _, _ => lift2 Qplus a b
  end.

(** [a - b] on numbers. *)
Definition sub (a b : number) : number :=
  match a, b with
  | Int x, Int y => Int (x - y)
  | _, _ => lift2 Qminus a b
  end.

(** [a * b] on numbers. *)
Definition mul (a b : number) : number :=
  match a, b with
  | Int x, Int y => Int (x * y)
  | _, _ => lift2 Qmult a b
  end.

(** Truncation towards zero of a rational. *)
Definition Qtrunc (q : Q) : Z :=
  if Qle_bool 0 q then Qfloor q else Qceiling q.

(** [a % b]: the remainder has the sign of the dividend; a zero divisor
    gives NaN. *)
Definition rem (a b : number) : number :=
  match a, b with
  | Int x, Int y => if y =? 0 then NaN else Int (Z.rem x y)
  | _, _ =>
      match to_Q a, to_Q b with
      | Some p, Some q =>
          if Qeq_bool q 0 then NaN
          else of_Q (p - q * inject_Z (Qtrunc (p / q)))
      | _, _ => NaN
      end
  end.

(** [a / b]; a zero divisor is outside the model (it would be an infinity
    or NaN) and is rendered as NaN. *)
Definition div (a b : number) : number :=
  match to_Q a, to_Q b with
  | Some p, Some q => if Qeq_bool q 0 then NaN else of_Q (p / q)
  | _, _ => NaN
  end.

(** [Math.floor]. *)
Definition floor (a : number) : number :=
  match a with
  | Int z => Int z
  | Frac q => Int (Qfloor q)
  | NaN => NaN
  end.

(** [a < b]: false as soon as one side is NaN. *)
Definition ltb (a b : number) : bool :=
  match a, b with
  | Int x, Int y => x <? y
  | _, _ =>
      match to_Q a, to_Q b with
      | Some p, Some q => negb (Qle_bool q p)
      | _, _ => false
      end
  end.

(** [a >= b]: false as soon as one side is NaN. *)
Definition geb (a b : number) : bool :=
  match a, b with
  | Int x, Int y => y <=? x
  | _, _ =>
      match to_Q a, to_Q b with
      | Some p, Some q => Qle_bool q p
      | _, _ => false
      end
  end.

(** [a === b] on numbers: NaN is different from everything. *)
Definition eqb (a b : number) : bool :=
  match a, b with
  | Int x, Int y => x =? y
  | _, _ =>
      match to_Q a, to_Q b with
      | Some p, Some q => Qeq_bool p q
      | _, _ => false
      end
  end.

(** A number is an integer. *)
Definition is_int (a : number) : bool :=
  match a with
  | Int _ => true
  | Frac q => Zpos (Qden (Qred q)) =? 1
  | NaN => false
  end.

(** The array index a number denotes as a property key, if any: the
    non-negative integers. *)
Definition as_index (a : number) : option nat :=
  match a with
  | Int z => if 0 <=? z then Some (Z.to_nat z) else None
  | Frac q =>
      let r := Qred q in
      if (Zpos (Qden r) =? 1) && (0 <=? Qnum r) then Some (Z.to_nat (Qnum r))
      else None
  | NaN => None
  end.

(** Two numbers denote the same property key: as [===], except that the
    key of NaN is equal to itself. *)
Definition same_key (a b : number) : bool :=
  match a, b with
  | NaN, NaN => true
  | _, _ => eqb a b
  end.

End Num.
Export Num.

(** ** JavaScript values

    The values a configuration candidate is made of: what [JSON.parse]
    returns, together with [undefined] and the numbers JSON cannot write.
    An object is the list of its own properties; when a key is listed twice
    the first binding is the property. *)
#[warnings="-register-all"]
Inductive value : Type :=
| VUndefined
| VNull
| VBool (b : bool)
| VNum (n : number)
| VStr (s : string)
| VObj (fields : list (string * value))
| VArr (items : list value).

Inductive jstype : Type :=
| TUndefined | TObject | TBoolean | TNumber | TString.

Definition jstype_eqb (a b : jstype) : bool :=
  match a, b with
  | TUndefined, TUndefined | TObject, TObject | TBoolean, TBoolean
  | TNumber, TNumber | TString, TString => true
  | _, _ => false
  end.

(** [typeof v]; null is an object. *)
Definition typeof (v : value) : jstype :=
  match v with
  | VUndefined => TUndefined
  | VNull => TObject
  | VBool _ => TBoolean
  | VNum _ => TNumber
  | VStr _ => TString
  | VObj _ => TObject
  | VArr _ => TObject
  end.

(** The truth value of [v] in a condition. *)
Definition truthy (v : value) : bool :=
  match v with
  | VUndefined | VNull => false
  | VBool b => b
  | VNum (Int z) => negb (z =? 0)
  | VNum (Frac q) => negb (Qeq_bool q 0)
  | VNum NaN => false
  | VStr s => negb (String.eqb s "")
  | VObj _ | VArr _ => true
  end.

(** [Array.isArray(v)]. *)
Definition isArray (v : value) : bool :=
  match v with VArr _ => true | _ => false end.

Fixpoint lookup_field (k : string) (fs : list (string * value)) : value :=
  match fs with
  | [] => VUndefined
  | (k', v) :: rest => if String.eqb k k' then v else lookup_field k rest
  end.

(** The errors the engine can raise.  The validator's own are the first
    nine, named after the check that fails; [TypeError] is the runtime's,
    for a property read on null or undefined, [RangeError] is that of
    [Array(n)] for a negative [n], and [SyntaxError] is [JSON.parse]'s. *)
Inductive error : Type :=
| NotAnObject
| MissingName
| InvalidColorCount
| MissingTransitions
| TransitionCountMismatch (expected : number)
| TransitionNotObject (i : nat)
| NewColorOutOfRange (i : nat)
| InvalidTurn (i : nat)
| NextStateOutOfRange (i : nat)
| TypeError
| RangeError
| SyntaxError.

(** A computation that returns or throws. *)
Inductive result (A : Type) : Type :=
| Ok (a : A)
| Throw (e : error).
Arguments Ok {A} a.
Arguments Throw {A} e.

Definition bind {A B : Type} (r : result A) (k : A -> result B) : result B :=
  match r with
  | Ok a => k a
  | Throw e => Throw e
  end.

Notation "x <- r ;; k" := (bind r (fun x => k))
  (at level 61, r at next level, right associativity).
Notation "r ;;; k" := (bind r (fun _ => k))
  (at level 61, right associativity).

(** [if (c) throw e]. *)
Definition throw_if (c : bool) (e : error) : result unit :=
  if c then Throw e else Ok tt.

(** [v.k]: the own property, [undefined] when there is none; reading a
    property of null or undefined is a TypeError.  An array has [length];
    the other keys read here are never array indices. *)
Definition get (v : value) (k : string) : result value :=
  match v with
  | VUndefined | VNull => Throw TypeError
  | VObj fs => Ok (lookup_field k fs)
  | VArr items =>
      if String.eqb k "length" then Ok (VNum (Int (Z.of_nat (List.length items))))
      else Ok VUndefined
  | VBool _ | VNum _ => Ok VUndefined
  | VStr s =>
      if String.eqb k "length" then Ok (VNum (Int (Z.of_nat (String.length s))))
      else Ok VUndefined
  end.

Definition is_number (v : value) : bool := jstype_eqb (typeof v) TNumber.

Section Validator.

(** The conversion to a number of a string, an object or an array (the
    runtime's own ToNumber, through ToPrimitive for the last two). *)
Variable ToNumber_other : value -> number.

Definition ToNumber (v : value) : number :=
  match v with
  | VUndefined => NaN
  | VNull => Int 0
  | VBool true => Int 1
  | VBool false => Int 0
  | VNum n => n
  | VStr _ | VObj _ | VArr _ => ToNumber_other v
  end.

(** [typeof v !== 'number' || v < lo || v >= hi], with [lo] a number
    literal and [hi] any value. *)
Definition out_of_range (v : value) (lo : number) (hi : value) : bool :=
  match v with
  | VNum n => Num.ltb n lo || Num.geb n (ToNumber hi)
  | _ => true
  end.

(** [t.turn !== 0 && t.turn !== 1]. *)
Definition bad_turn (v : value) : bool :=
  match v with
  | VNum n => negb (Num.eqb n (Int 0)) && negb (Num.eqb n (Int 1))
  | _ => true
  end.

(** The body of the [forEach] callback of [validateAntConfig]. *)
Definition validate_transition (colors states : value) (i : nat) (t : value)
  : result unit :=
  throw_if (negb (jstype_eqb (typeof t) TObject)) (TransitionNotObject i) ;;;
  newColor <- get t "newColor" ;;
  throw_if (out_of_range newColor (Int 0) colors) (NewColorOutOfRange i) ;;;
  turn <- get t "turn" ;;
  throw_if (bad_turn turn) (InvalidTurn i) ;;;
  nextState <- get t "nextState" ;;
  throw_if (out_of_range nextState (Int 0) states) (NextStateOutOfRange i).

(** [ts.forEach((t, i) => ...)], from index [i] on. *)
Fixpoint validate_transitions (colors states : value) (i : nat)
  (ts : list value) : result unit :=
  match ts with
  | [] => Ok tt
  | t :: rest =>
      validate_transition colors states i t ;;;
      validate_transitions colors states (S i) rest
  end.

(** [validateAntConfig(obj)].  The product [states * (colors + 1)] is the
    exact one: it is the product of the source for integers (of which the
    product is below 2^53, or too large in both to be a length), and may
    differ from it by the rounding of doubles for a [states] that is a
    fraction. *)
Definition validateAntConfig (obj : value) : result unit :=
  throw_if (negb (truthy obj) || negb (jstype_eqb (typeof obj) TObject))
    NotAnObject ;;;
  name <- get obj "name" ;;
  throw_if (negb (truthy name) || negb (jstype_eqb (typeof name) TString))
    MissingName ;;;
  colors <- get obj "colors" ;;
  throw_if (negb (is_number colors) || Num.ltb (ToNumber colors) (Int 1))
    InvalidColorCount ;;;
  transitions <- get obj "transitions" ;;
  throw_if (negb (isArray transitions)) MissingTransitions ;;;
  states <- get obj "states" ;;
  let expectedTransitions :=
    Num.mul (ToNumber states) (Num.add (ToNumber colors) (Int 1)) in
  len <- get transitions "length" ;;
  throw_if (negb (Num.eqb (ToNumber len) expectedTransitions))
    (TransitionCountMismatch expectedTransitions) ;;;
  match transitions with
  | VArr ts => validate_transitions colors states 0 ts
  | _ => Ok tt
  end.

End Validator.

(** ** JSON text

    [JSON.stringify] and [JSON.parse] belong to the runtime.  What the
    engine relies on is their composition: parsing the text of a value gives
    the value back, except that JSON has no NaN and no [undefined]: NaN and
    an undefined array element are written as [null], and a property whose
    value is undefined is not written. *)
Fixpoint json_image (v : value) : value :=
  match v with
  | VUndefined => VNull
  | VNum NaN => VNull
  | VObj fs =>
      VObj ((fix fields (l : list (string * value)) : list (string * value) :=
               match l with
               | [] => []
               | (k, VUndefined) :: rest => fields rest
               | (k, w) :: rest => (k, json_image w) :: fields rest
               end) fs)
  | VArr items => VArr (map json_image items)
  | _ => v
  end.

(** A value JSON text can hold as it is. *)
Definition json_representable (v : value) : Prop := json_image v = v.

(** What the engine assumes of the runtime's two JSON functions. *)
Definition json_law {text : Type} (JSON_stringify : value -> text)
  (JSON_parse : text -> result value) : Prop :=
  forall v : value, JSON_parse (JSON_stringify v) = Ok (json_image v).

Section Parser.

Variable ToNumber_other : value -> number.

(** The text type and the two JSON functions of the runtime;
    [JSON_stringify v] is [JSON.stringify(v, null, 2)] for an object [v]. *)
Variable text : Type.
Variable JSON_stringify : value -> text.
Variable JSON_parse : text -> result value.

(** [parseAntConfig(json)]. *)
Definition parseAntConfig (json : text) : result value :=
  obj <- JSON_parse json ;;
  validateAntConfig ToNumber_other obj ;;;
  Ok obj.

(** [serializeAntConfig(obj)]. *)
Definition serializeAntConfig (obj : value) : result text :=
  validateAntConfig ToNumber_other obj ;;;
  Ok (JSON_stringify obj).

End Parser.

(** ** Configurations as the engine reads them

    [Ant.move] reads [colors] and [transitions] of its configuration, and of
    a transition [newColor], [turn] and [nextState]; these are numbers in
    every configuration the validator lets through.  [states] is kept as a
    value: the engine never reads it. *)
Record transition : Type := mkTransition {
  newColor : number;
  turn : number;
  nextState : number
}.

Record AntConfig : Type := mkConfig {
  name : string;
  states : value;
  colors : number;
  transitions : list transition
}.

(** The object a configuration is. *)
Definition transition_value (t : transition) : value :=
  VObj [("newColor", VNum (newColor t)); ("turn", VNum (turn t));
        ("nextState", VNum (nextState t))]%string.

Definition config_value (c : AntConfig) : value :=
  VObj [("name", VStr (name c)); ("states", states c);
        ("colors", VNum (colors c));
        ("transitions", VArr (map transition_value (transitions c)))]%string.

(** ** The grid

    A row is an array of colours.  A cell that was never written, or was
    written with [undefined], reads as undefined ([None]).  Writing at an
    index past the end extends the row; writing at a key that is not an
    index (a negative, fractional or NaN coordinate) sets a property of the
    array object, kept in [props]. *)
Definition cell : Type := option number.

Record row : Type := mkRow {
  cells : list cell;
  props : list (number * cell)
}.

Definition Grid : Type := list row.

Fixpoint lookup_prop (k : number) (ps : list (number * cell)) : cell :=
  match ps with
  | [] => None
  | (k', v) :: rest => if Num.same_key k k' then v else lookup_prop k rest
  end.

(** [r[k]]. *)
Definition row_get (r : row) (k : number) : cell :=
  match Num.as_index k with
  | Some i => match nth_error (cells r) i with Some c => c | None => None end
  | None => lookup_prop k (props r)
  end.

(** The list [l] with element [i] replaced. *)
Fixpoint replace {A : Type} (l : list A) (i : nat) (v : A) : list A :=
  match l, i with
  | [], _ => []
  | _ :: rest, O => v :: rest
  | a :: rest, S j => a :: replace rest j v
  end.

(** [r[k] = v]. *)
Definition row_set (r : row) (k : number) (v : cell) : row :=
  match Num.as_index k with
  | Some i =>
      if (i <? List.length (cells r))%nat
      then mkRow (replace (cells r) i v) (props r)
      else mkRow (cells r ++ repeat None (i - List.length (cells r)) ++ [v])
                 (props r)
  | None => mkRow (cells r) ((k, v) :: props r)
  end.

(** [g[y]], for a read or write of [g[y][x]] to go on: a TypeError when
    [g[y]] is undefined. *)
Definition grid_row (g : Grid) (y : number) : result row :=
  match Num.as_index y with
  | Some i => match nth_error g i with Some r => Ok r | None => Throw TypeError end
  | None => Throw TypeError
  end.

(** [g[y][x]]. *)
Definition grid_get (g : Grid) (y x : number) : result cell :=
  r <- grid_row g y ;;
  Ok (row_get r x).

(** [g[y][x] = v]. *)
Definition grid_set (g : Grid) (y x : number) (v : cell) : result Grid :=
  r <- grid_row g y ;;
  match Num.as_index y with
  | Some i => Ok (replace g i (row_set r x v))
  | None => Throw TypeError
  end.

(** [Array.from({ length: rows }, () => Array(cols).fill(0))]: no row is
    built when [rows <= 0]; [Array(cols)] is a RangeError when [cols < 0]. *)
Definition new_grid (rows cols : Z) : result Grid :=
  if rows <=? 0 then Ok []
  else if cols <? 0 then Throw RangeError
  else Ok (repeat (mkRow (repeat (Some (Int 0)) (Z.to_nat cols)) [])
                  (Z.to_nat rows)).

(** ** class Ant *)
Module Ant.

Record t : Type := mk {
  x : number;
  y : number;
  direction : Z;
  state : number;
  config : AntConfig
}.

(** [new Ant(x, y, config)]. *)
Definition constructor (x y : number) (config : AntConfig) : t :=
  mk x y 0 (Int 0) config.

(** [a[idx]] for the transitions array [a]. *)
Definition transition_at (a : list transition) (idx : number)
  : option transition :=
  match Num.as_index idx with
  | Some i => nth_error a i
  | None => None
  end.

(** The number a cell contributes to [state * colorCount + color]: an
    undefined cell gives NaN. *)
Definition cell_number (c : cell) : number :=
  match c with Some n => n | None => NaN end.

(** The lookup of [move]: the transition at [state * colorCount + color]
    and, when there is none, the one at [state * colorCount + colorCount]. *)
Definition resolve (this : t) (color : cell) : option transition :=
  let colorCount := colors (config this) in
  let idx := Num.add (Num.mul (state this) colorCount) (cell_number color) in
  match transition_at (transitions (config this)) idx with
  | Some t => Some t
  | None =>
      let idx := Num.add (Num.mul (state this) colorCount) colorCount in
      transition_at (transitions (config this)) idx
  end.

(** The [switch] of [move]: one cell forward in [direction]. *)
Definition advance (direction : Z) (rows cols : number) (xy : number * number)
  : number * number :=
  let (x, y) := xy in
  match direction with
  | 0 => (x, Num.rem (Num.add (Num.sub y (Int 1)) rows) rows)
  | 1 => (Num.rem (Num.add x (Int 1)) cols, y)
  | 2 => (x, Num.rem (Num.add y (Int 1)) rows)
  | 3 => (Num.rem (Num.add (Num.sub x (Int 1)) cols) cols, y)
  | _ => (x, y)
  end.

(** [this.direction + (t.turn === 0 ? 3 : 1)) % 4]. *)
Definition rotate (direction : Z) (turn : number) : Z :=
  Z.rem (direction + (if Num.eqb turn (Int 0) then 3 else 1)) 4.

(** [ant.move(grid, rows, cols)]: the grid and the ant afterwards, or the
    TypeError of reading [grid[this.y][this.x]] when [grid[this.y]] is
    undefined (nothing has been changed by then). *)
Definition move (this : t) (grid : Grid) (rows cols : number)
  : result (Grid * t) :=
  color <- grid_get grid (y this) (x this) ;;
  match resolve this color with
  | None => Ok (grid, this)
  | Some t =>
      grid' <- grid_set grid (y this) (x this) (Some (newColor t)) ;;
      let direction' := rotate (direction this) (turn t) in
      let (x', y') := advance direction' rows cols (x this, y this) in
      Ok (grid', mk x' y' direction' (nextState t) (config this))
  end.

End Ant.

(** A stateful call that returns, or throws leaving the state it had
    reached. *)
Inductive outcome (S : Type) : Type :=
| Returned (s : S)
| Thrown (e : error) (s : S).
Arguments Returned {S} s.
Arguments Thrown {S} e s.

Definition state_of {S : Type} (o : outcome S) : S :=
  match o with Returned s => s | Thrown _ s => s end.

Definition returned {S : Type} (o : outcome S) : bool :=
  match o with Returned _ => true | Thrown _ _ => false end.

(** [s] after the statement [r], which changes nothing when it throws. *)
Definition attempt {S : Type} (s : S) (r : result S) : outcome S :=
  match r with Ok s' => Returned s' | Throw e => Thrown e s end.

(** A [for] loop over [l] with body [f]; a throw ends it. *)
Fixpoint for_each {A S : Type} (f : S -> A -> outcome S) (l : list A) (s : S)
  : outcome S :=
  match l with
  | [] => Returned s
  | a :: rest =>
      match f s a with
      | Returned s' => for_each f rest s'
      | Thrown e s' => Thrown e s'
      end
  end.

(** ** class AntSim

    The pixel sizes and [gridSize] are integers, [gridSize] not zero (it is
    10 wherever the simulation is built), so that
    [Math.floor(height / gridSize)] is the integer quotient rounded down. *)
Module AntSim.

Record t : Type := mk {
  gridSize : Z;
  width : Z;
  height : Z;
  config : AntConfig;
  rows : Z;
  cols : Z;
  grid : Grid;
  ants : list Ant.t
}.

(** [sim.setConfig(config)]. *)
Definition setConfig (this : t) (config : AntConfig) : outcome t :=
  let rows := height this / gridSize this in
  let cols := width this / gridSize this in
  let this' :=
    mk (gridSize this) (width this) (height this) config rows cols
       (grid this) (ants this) in
  match new_grid rows cols with
  | Throw e => Thrown e this'
  | Ok g =>
      Returned (mk (gridSize this) (width this) (height this) config rows cols
                   g [])
  end.

(** [new AntSim(config, width, height, gridSize)]: no simulation when
    [setConfig] throws. *)
Definition constructor (config : AntConfig) (width height gridSize : Z)
  : result t :=
  match setConfig (mk gridSize width height config 0 0 [] []) config with
  | Returned this => Ok this
  | Thrown e _ => Throw e
  end.

(** [sim.addAnt(x, y, config)]; [None] is the absent (or null) [config]. *)
Definition addAnt (this : t) (x y : number) (config : option AntConfig) : t :=
  let c := match config with Some c => c | None => AntSim.config this end in
  mk (gridSize this) (width this) (height this) (AntSim.config this)
     (rows this) (cols this) (grid this)
     (ants this ++ [Ant.constructor x y c]).

(** The loop of [step] over the ants still to move: the grid is the one
    the earlier ants have left. *)
Fixpoint move_all (g : Grid) (rows cols : number) (todo : list Ant.t)
  : outcome (Grid * list Ant.t) :=
  match todo with
  | [] => Returned (g, [])
  | ant :: rest =>
      match Ant.move ant g rows cols with
      | Throw e => Thrown e (g, ant :: rest)
      | Ok (g', ant') =>
          match move_all g' rows cols rest with
          | Returned (g'', rest') => Returned (g'', ant' :: rest')
          | Thrown e (g'', rest') => Thrown e (g'', ant' :: rest')
          end
      end
  end.

Definition with_grid_ants (this : t) (ga : Grid * list Ant.t) : t :=
  mk (gridSize this) (width this) (height this) (config this)
     (rows this) (cols this) (fst ga) (snd ga).

(** [sim.step()]. *)
Definition step (this : t) : outcome t :=
  match move_all (grid this) (Int (rows this)) (Int (cols this)) (ants this) with
  | Returned ga => Returned (with_grid_ants this ga)
  | Thrown e ga => Thrown e (with_grid_ants this ga)
  end.

(** [this.grid[y][x] = oldGrid[y][x]]. *)
Definition copy_cell (oldGrid : Grid) (y : nat) (g : Grid) (x : nat)
  : outcome Grid :=
  attempt g
    (v <- grid_get oldGrid (Int (Z.of_nat y)) (Int (Z.of_nat x)) ;;
     grid_set g (Int (Z.of_nat y)) (Int (Z.of_nat x)) v).

(** The two nested loops of [resize]. *)
Definition copy_region (oldGrid : Grid) (nrows ncols : Z) (g : Grid)
  : outcome Grid :=
  for_each
    (fun g y => for_each (copy_cell oldGrid y) (seq 0 (Z.to_nat ncols)) g)
    (seq 0 (Z.to_nat nrows)) g.

(** The test of the [filter] of [resize]. *)
Definition in_bounds (cols rows : Z) (ant : Ant.t) : bool :=
  Num.ltb (Ant.x ant) (Int cols) && Num.ltb (Ant.y ant) (Int rows).

(** [sim.resize(width, height)]. *)
Definition resize (this : t) (width height : Z) : outcome t :=
  let oldGrid := grid this in
  let oldRows := rows this in
  let oldCols := cols this in
  let rows := height / gridSize this in
  let cols := width / gridSize this in
  let upd g a := mk (gridSize this) width height (config this) rows cols g a in
  match new_grid rows cols with
  | Throw e => Thrown e (upd oldGrid (ants this))
  | Ok g =>
      match copy_region oldGrid (Z.min oldRows rows) (Z.min oldCols cols) g with
      | Thrown e g' => Thrown e (upd g' (ants this))
      | Returned g' =>
          Returned (upd g' (filter (in_bounds cols rows) (ants this)))
      end
  end.

End AntSim.

(** ** The batching interval

    The globals the interval callback and the two handlers work on.  The
    timer itself is not represented: [batch_tick] is one run of the callback
    [updateSimulationInterval] installs, whenever the timer fires it.  The
    accumulator is a [number], and its sums and quotients are exact: they
    are those of the source where every value on the way is a double, as
    at rates that are multiples of 5, where all are multiples of one
    quarter; elsewhere the source rounds and the two may differ. *)
Record session : Type := mkSession {
  sim : AntSim.t;
  paused : bool;
  stepsPerSecond : number;
  stepAccumulator : number
}.

Definition with_sim (s : session) (m : AntSim.t) : session :=
  mkSession m (paused s) (stepsPerSecond s) (stepAccumulator s).

Definition with_accumulator (s : session) (a : number) : session :=
  mkSession (sim s) (paused s) (stepsPerSecond s) a.

(** [const batchInterval = 50; // ms]. *)
Definition batchInterval : number := Int 50.

(** The number of rounds of [for (let i = 0; i < n; i++)]. *)
Definition rounds (n : number) : nat :=
  match n with
  | Int k => Z.to_nat k
  | _ => O
  end.

(** [n] times [sim.step()]; a throw ends the loop. *)
Fixpoint steps (n : nat) (m : AntSim.t) : outcome AntSim.t :=
  match n with
  | O => Returned m
  | S k =>
      match AntSim.step m with
      | Returned m' => steps k m'
      | Thrown e m' => Thrown e m'
      end
  end.

(** The callback of [setInterval]. *)
Definition batch_tick (s : session) : outcome session :=
  if paused s then Returned s
  else
    let acc :=
      Num.add (stepAccumulator s)
        (Num.div (Num.mul (stepsPerSecond s) batchInterval) (Int 1000)) in
    let stepsThisBatch := Num.floor acc in
    match steps (rounds stepsThisBatch) (sim s) with
    | Thrown e m => Thrown e (mkSession m (paused s) (stepsPerSecond s) acc)
    | Returned m =>
        Returned (mkSession m (paused s) (stepsPerSecond s)
                    (Num.sub acc stepsThisBatch))
    end.

(** The handler of the pause button. *)
Definition pause_pressed (s : session) : session :=
  let wasPaused := paused s in
  let paused' := negb (paused s) in
  if negb paused' && wasPaused
  then mkSession (sim s) paused' (stepsPerSecond s) (Int 0)
  else mkSession (sim s) paused' (stepsPerSecond s) (stepAccumulator s).

Section Slider.

(** [sliderToSpeed], a rounded power of ten. *)
Variable sliderToSpeed : number -> number.

(** The handler of the speed slider, at slider position [v]. *)
Definition slider_input (s : session) (v : number) : session :=
  mkSession (sim s) (paused s) (sliderToSpeed v) (Int 0).

End Slider.

(** ** js/presetAnts.js *)
Module presetAnts.

Definition T (c t s : Z) : transition := mkTransition (Int c) (Int t) (Int s).

Definition classic : AntConfig :=
  mkConfig "Classic Langton's Ant" (VNum (Int 1)) (Int 2)
    [T 1 1 0; T 0 0 0; T 0 1 0].

Definition extended : AntConfig :=
  mkConfig "Extended Langton's Ant" (VNum (Int 2)) (Int 4)
    [T 1 1 0; T 2 0 1; T 3 1 0; T 0 0 0;
     T 3 0 1; T 0 1 0; T 1 0 1; T 2 1 0;
     T 0 1 0; T 0 1 0].

Definition threeColor : AntConfig :=
  mkConfig "Three-Color Ant" (VNum (Int 1)) (Int 3)
    [T 1 1 0; T 2 1 0; T 0 1 0; T 0 0 0].

End presetAnts.

(** ** The checks of the validator, stated on the candidate

    What each check of [validateAntConfig] asks of the candidate, and the
    error each answers with when it is the first to fail. *)
Section Checks.

Variable ToNumber_other : value -> number.

(** The property [k] of [v], undefined where it cannot be read. *)
Definition field (v : value) (k : string) : value :=
  match get v k with Ok w => w | Throw _ => VUndefined end.

(** An object or an array: truthy and of type object. *)
Definition is_record (v : value) : Prop :=
  match v with VObj _ | VArr _ => True | _ => False end.

Definition has_name (v : value) : Prop :=
  exists s : string, field v "name" = VStr s /\ s <> ""%string.

(** [colors] is an integer, at least 1. *)
Definition colors_ok (v : value) : Prop :=
  exists z : Z, field v "colors" = VNum (Int z) /\ 1 <= z.

(** [states * (colors + 1)]. *)
Definition expected_count (v : value) : number :=
  Num.mul (ToNumber ToNumber_other (field v "states"))
    (Num.add (ToNumber ToNumber_other (field v "colors")) (Int 1)).

(** [w] is a number, not below 0 and not at or above [hi]. *)
Definition in_range (w hi : value) : Prop :=
  exists n : number,
    w = VNum n /\ Num.ltb n (Int 0) = false
    /\ Num.geb n (ToNumber ToNumber_other hi) = false.

(** [w] is the number 0 or the number 1. *)
Definition turn_ok (w : value) : Prop :=
  exists n : number,
    w = VNum n /\ (Num.eqb n (Int 0) = true \/ Num.eqb n (Int 1) = true).

Definition entry_ok (v t : value) : Prop :=
  is_record t
  /\ in_range (field t "newColor") (field v "colors")
  /\ turn_ok (field t "turn")
  /\ in_range (field t "nextState") (field v "states").

Definition accepts (v : value) : Prop :=
  is_record v /\ has_name v /\ colors_ok v
  /\ exists ts : list value,
       field v "transitions" = VArr ts
       /\ Num.eqb (Int (Z.of_nat (List.length ts))) (expected_count v) = true
       /\ Forall (entry_ok v) ts.

(** The first check of the [forEach] callback to fail on entry [i]. *)
Inductive entry_rejects (v : value) : nat -> value -> error -> Prop :=
| rejects_entry_type (i : nat) (t : value) :
    typeof t <> TObject -> entry_rejects v i t (TransitionNotObject i)
| rejects_newColor (i : nat) (t : value) :
    is_record t ->
    ~ in_range (field t "newColor") (field v "colors") ->
    entry_rejects v i t (NewColorOutOfRange i)
| rejects_turn (i : nat) (t : value) :
    is_record t ->
    in_range (field t "newColor") (field v "colors") ->
    ~ turn_ok (field t "turn") ->
    entry_rejects v i t (InvalidTurn i)
| rejects_nextState (i : nat) (t : value) :
    is_record t ->
    in_range (field t "newColor") (field v "colors") ->
    turn_ok (field t "turn") ->
    ~ in_range (field t "nextState") (field v "states") ->
    entry_rejects v i t (NextStateOutOfRange i).

(** The first check to fail, in the order of the source, and its error. *)
Inductive rejects (v : value) : error -> Prop :=
| rejects_object :
    ~ is_record v -> rejects v NotAnObject
| rejects_name :
    is_record v -> ~ has_name v -> rejects v MissingName
| rejects_colors :
    is_record v -> has_name v -> ~ colors_ok v ->
    rejects v InvalidColorCount
| rejects_transitions :
    is_record v -> has_name v -> colors_ok v ->
    isArray (field v "transitions") = false ->
    rejects v MissingTransitions
| rejects_count (ts : list value) :
    is_record v -> has_name v -> colors_ok v ->
    field v "transitions" = VArr ts ->
    Num.eqb (Int (Z.of_nat (List.length ts))) (expected_count v) = false ->
    rejects v (TransitionCountMismatch (expected_count v))
| rejects_entry (ts before after : list value) (t : value) (e : error) :
    is_record v -> has_name v -> colors_ok v ->
    field v "transitions" = VArr ts ->
    Num.eqb (Int (Z.of_nat (List.length ts))) (expected_count v) = true ->
    ts = before ++ t :: after ->
    Forall (entry_ok v) before ->
    entry_rejects v (List.length before) t e ->
    rejects v e.

(** [colors], when a number, is an integer. *)
Definition colors_integral (v : value) : Prop :=
  forall n : number, field v "colors" = VNum n -> exists z : Z, n = Int z.

(** [states] converts to NaN or to an integer, and neither that integer
    nor an integer [colors] is larger than 2^26: the product
    [states * (colors + 1)] is then a product of integers, below 2^53. *)
Definition count_exact (v : value) : Prop :=
  match ToNumber ToNumber_other (field v "states") with
  | Int s =>
      Z.abs s <= 2 ^ 26
      /\ forall c : Z, field v "colors" = VNum (Int c) -> c < 2 ^ 26
  | Frac _ => False
  | NaN => True
  end.

End Checks.

(** ** Simulations whose automatons stand on the grid's rows

    An automaton stands on a row of the grid at a non-negative integer
    column; the column may lie past the last one, as after a click in the
    pixels right of the last full cell. *)
Definition stands (rows : Z) (ant : Ant.t) : Prop :=
  exists x y : Z,
    Ant.x ant = Int x /\ Ant.y ant = Int y /\ 0 <= x /\ 0 <= y < rows.

Definition placed (this : AntSim.t) : Prop :=
  0 < AntSim.rows this /\ 0 < AntSim.cols this
  /\ (Z.to_nat (AntSim.rows this) <= List.length (AntSim.grid this))%nat
  /\ Forall (stands (AntSim.rows this)) (AntSim.ants this).

(** The grid the automaton of index [i] finds when its turn comes in
    [step]: the one left by the automatons before it. *)
Definition grid_before (this : AntSim.t) (i : nat) : Grid :=
  fst (state_of (AntSim.move_all (AntSim.grid this) (Int (AntSim.rows this))
                   (Int (AntSim.cols this)) (firstn i (AntSim.ants this)))).

(** ** Concrete configurations and simulations used below *)
Module Examples.

(** A configuration with two states and one colour and a half. *)
Definition fractional_colors : AntConfig :=
  mkConfig "a" (VNum (Int 2)) (Frac (3 # 2))
    [presetAnts.T 1 1 1; presetAnts.T 1 0 1; presetAnts.T 0 1 1;
     presetAnts.T 1 1 0; presetAnts.T 0 0 0].

(** The simulation [new AntSim(presetAnts.classic, 30, 35, 10)]: three rows
    and three columns, the last five pixel rows belonging to no cell. *)
Definition fresh : AntSim.t :=
  AntSim.mk 10 30 35 presetAnts.classic 3 3
    (repeat (mkRow (repeat (Some (Int 0)) 3) []) 3) [].

(** After a click at pixel (5, 32): [addAnt(0, 3, classic)]. *)
Definition edge_click : AntSim.t :=
  AntSim.addAnt fresh (Int 0) (Int 3) (Some presetAnts.classic).

(** After a second click at pixel (15, 15): [addAnt(1, 1, classic)]. *)
Definition two_clicks : AntSim.t :=
  AntSim.addAnt edge_click (Int 1) (Int 1) (Some presetAnts.classic).

(** An automaton bound to the configuration with 1.5 colours, in the
    middle of the fresh simulation. *)
Definition fractional_click : AntSim.t :=
  AntSim.addAnt fresh (Int 1) (Int 1) (Some fractional_colors).

(** One ant in the middle of the fresh simulation. *)
Definition centre_click : AntSim.t :=
  AntSim.addAnt fresh (Int 1) (Int 1) (Some presetAnts.classic).

(** A click at pixel (15, 15), then one at pixel (5, 32): an automaton in
    the middle, and behind it in the list one below the last row. *)
Definition centre_then_edge : AntSim.t :=
  AntSim.addAnt centre_click (Int 0) (Int 3) (Some presetAnts.classic).

(** An automaton left of the first column: [addAnt(-1, 0)]. *)
Definition left_of_grid : AntSim.t :=
  AntSim.addAnt fresh (Int (-1)) (Int 0) None.

(** The classic rule repainting with colour one half. *)
Definition half_painted : AntConfig :=
  mkConfig "a" (VNum (Int 1)) (Int 2)
    [mkTransition (Frac (1 # 2)) (Int 1) (Int 0); presetAnts.T 0 0 0;
     presetAnts.T 0 1 0].

(** A ToNumber for the values the examples never convert. *)
Definition no_conversion : value -> number := fun _ => NaN.

(** A one-colour configuration whose first transition repaints with NaN. *)
Definition nan_painted : AntConfig :=
  mkConfig "a" (VNum (Int 1)) (Int 1)
    [mkTransition NaN (Int 0) (Int 0); presetAnts.T 0 0 0].

End Examples.

(** ** The mouse and the window

    [mousePressed]: [on_control] says whether the click target, or one of
    its ancestors, is a button, an input, a textarea or a select; [width]
    and [height] are the sizes of the canvas; the pixel coordinates are
    integers.  Showing the control panel is left out. *)
Definition mousePressed (on_control : bool) (width height mouseX mouseY : Z)
  (currentAntConfig : AntConfig) (sim : AntSim.t) : AntSim.t :=
  if on_control then sim
  else if (0 <=? mouseX) && (mouseX <? width)
          && (0 <=? mouseY) && (mouseY <? height)
  then
    let gridX := mouseX / AntSim.gridSize sim in
    let gridY := mouseY / AntSim.gridSize sim in
    AntSim.addAnt sim (Int gridX) (Int gridY) (Some currentAntConfig)
  else sim.

(** [n] runs of the callback of [setInterval]; a throw ends them. *)
Fixpoint ticks (n : nat) (s : session) : outcome session :=
  match n with
  | O => Returned s
  | S k =>
      match batch_tick s with
      | Returned s' => ticks k s'
      | Thrown e s' => Thrown e s'
      end
  end.

(** The simulations reached from a window of at least one cell by clicks
    on pixels of a full row of cells, steps that return, resets and
    resizes to at least one cell. *)
Inductive reachable : AntSim.t -> Prop :=
| reachable_new (cfg : AntConfig) (width height gridSize : Z)
    (this : AntSim.t) :
    0 < gridSize -> gridSize <= width -> gridSize <= height ->
    AntSim.constructor cfg width height gridSize = Ok this ->
    reachable this
| reachable_click (this : AntSim.t) (on_control : bool)
    (width height mouseX mouseY : Z) (cfg : AntConfig) :
    reachable this ->
    mouseY < AntSim.rows this * AntSim.gridSize this ->
    reachable (mousePressed on_control width height mouseX mouseY cfg this)
| reachable_step (this this' : AntSim.t) :
    reachable this -> AntSim.step this = Returned this' -> reachable this'
| reachable_setConfig (this this' : AntSim.t) (cfg : AntConfig) :
    reachable this -> AntSim.setConfig this cfg = Returned this' ->
    reachable this'
| reachable_resize (this this' : AntSim.t) (width height : Z) :
    reachable this ->
    AntSim.gridSize this <= width -> AntSim.gridSize this <= height ->
    AntSim.resize this width height = Returned this' ->
    reachable this'.

(** ** Simulations in whole numbers

    A configuration in whole numbers: [sc] states, [cc] colours, and an
    integer [newColor] and [nextState] in every transition. *)
Definition whole (c : AntConfig) (sc cc : Z) : Prop :=
  states c = VNum (Int sc) /\ colors c = Int cc
  /\ Forall (fun t => exists k s : Z,
                newColor t = Int k /\ nextState t = Int s) (transitions c).

(** Every cell of the [rows] by [cols] grid holds a colour below [cc]. *)
Definition coloured (cc rows cols : Z) (g : Grid) : Prop :=
  forall y x : Z, 0 <= y < rows -> 0 <= x < cols ->
    exists k : Z,
      grid_get g (Int y) (Int x) = Ok (Some (Int k)) /\ 0 <= k < cc.

(** An automaton on a cell of the grid, facing one of the four ways, bound
    to a validated configuration in whole numbers with [cc] colours, in one
    of its states. *)
Definition at_home (tn : value -> number) (cc rows cols : Z) (ant : Ant.t)
  : Prop :=
  validateAntConfig tn (config_value (Ant.config ant)) = Ok tt
  /\ (exists sc S : Z,
        whole (Ant.config ant) sc cc
        /\ Ant.state ant = Int S /\ 0 <= S < sc)
  /\ (exists x y : Z,
        Ant.x ant = Int x /\ Ant.y ant = Int y
        /\ 0 <= x < cols /\ 0 <= y < rows)
  /\ 0 <= Ant.direction ant < 4.

Definition regular (tn : value -> number) (cc : Z) (this : AntSim.t) : Prop :=
  coloured cc (AntSim.rows this) (AntSim.cols this) (AntSim.grid this)
  /\ Forall (at_home tn cc (AntSim.rows this) (AntSim.cols this))
       (AntSim.ants this).

(** On the grid [g], [ant] takes the entry [t] of its state [S] and of the
    colour [C] its cell holds, a colour below [cc]: the entry at the first
    of the two indices of [move], [S * cc + C], not the one at the second.
    The grid [g'] and the automaton [ant'] are what that entry makes of
    them: the cell repainted with [newColor t], the automaton turned by
    [turn t], moved one cell forward in its new direction, and in state
    [nextState t]. *)
Definition took_regular_entry (cc rows cols : Z) (g : Grid) (ant : Ant.t)
  (g' : Grid) (ant' : Ant.t) : Prop :=
  exists (x y S C : Z) (t : transition),
    Ant.x ant = Int x /\ Ant.y ant = Int y
    /\ Ant.state ant = Int S /\ 0 <= S
    /\ grid_get g (Int y) (Int x) = Ok (Some (Int C)) /\ 0 <= C < cc
    /\ nth_error (transitions (Ant.config ant)) (Z.to_nat (S * cc + C))
       = Some t
    /\ grid_set g (Int y) (Int x) (Some (newColor t)) = Ok g'
    /\ grid_get g' (Int y) (Int x) = Ok (Some (newColor t))
    /\ Ant.direction ant' = Ant.rotate (Ant.direction ant) (turn t)
    /\ Ant.direction ant' <> Ant.direction ant
    /\ (Ant.x ant', Ant.y ant')
       = Ant.advance (Ant.direction ant') (Int rows) (Int cols) (Int x, Int y)
    /\ Ant.state ant' = nextState t
    /\ Ant.config ant' = Ant.config ant.

(** The automatons [ants] take such entries one after the other, each on
    the grid the one before it has left, from [g] to [g']; [ants'] are the
    automatons afterwards, in the same order. *)
Fixpoint took_regular_entries (cc rows cols : Z) (g : Grid)
  (ants : list Ant.t) (g' : Grid) (ants' : list Ant.t) {struct ants} : Prop :=
  match ants, ants' with
  | [], [] => g' = g
  | ant :: rest, ant' :: rest' =>
      exists g1 : Grid,
        took_regular_entry cc rows cols g ant g1 ant'
        /\ took_regular_entries cc rows cols g1 rest g' rest'
  | _, _ => False
  end.

(** ** Copies

    [deepCopy(obj)]: [JSON.parse(JSON.stringify(obj))], with the runtime's
    two functions as parameters. *)
Definition deepCopy {text : Type} (JSON_stringify : value -> text)
  (JSON_parse : text -> result value) (obj : value) : result value :=
  JSON_parse (JSON_stringify obj).

(** ** script.js: the neighbour-counting grid

    The canvas sizes give the constants [rows] and [cols]; they are
    parameters here.  A cell is the array [[status, opacity]], a pair.  The
    set [dirtyCells] holds the keys [`${row},${col}`]; a key is kept as the
    pair it writes, and the set as the list of its keys in insertion
    order.  The listeners and the update end with [scheduleDraw()], which
    changes none of these four; its flag [isDrawingScheduled] is kept
    beside them in a [page], with the callback [frame] it hands to
    [requestAnimationFrame]. *)
Module Conway.

Definition cellArray : Type := (Z * Z)%type.

(** [[0, 1]] and [[1, 1]]. *)
Definition dead : cellArray := (0, 1).
Definition alive : cellArray := (1, 1).

Record state : Type := mk {
  grid : list (list cellArray);
  isDrawing : bool;
  isPaused : bool;
  dirtyCells : list (Z * Z)
}.

(** [l[i]] for an integer [i]: undefined when out of range. *)
Definition at_ {A : Type} (l : list A) (i : Z) : option A :=
  if i <? 0 then None else nth_error l (Z.to_nat i).

(** [g[row][col]], where reading [[col]] of an undefined row throws. *)
Definition cell_at (g : list (list cellArray)) (row col : Z)
  : result (option cellArray) :=
  match at_ g row with
  | Some r => Ok (at_ r col)
  | None => Throw TypeError
  end.

(** [g[row][col][0]]. *)
Definition status_at (g : list (list cellArray)) (row col : Z) : result Z :=
  c <- cell_at g row col ;;
  match c with
  | Some cell => Ok (fst cell)
  | None => Throw TypeError
  end.

(** [g[row][col] = v] for a cell that exists: the two writes of the source
    are to such cells, one behind the test of [changeSquareColor], the
    other within the counts the new grid of [updateGridConway] is built
    with. *)
Definition set_cell (g : list (list cellArray)) (row col : Z) (v : cellArray)
  : list (list cellArray) :=
  match at_ g row with
  | Some r => replace g (Z.to_nat row) (replace r (Z.to_nat col) v)
  | None => g
  end.

Definition key_eqb (a b : Z * Z) : bool :=
  (fst a =? fst b) && (snd a =? snd b).

(** [dirtyCells.add(key)]. *)
Definition add (d : list (Z * Z)) (key : Z * Z) : list (Z * Z) :=
  if existsb (key_eqb key) d then d else d ++ [key].

Definition directions : list (Z * Z) :=
  [(-1, -1); (-1, 0); (-1, 1);
   (0, -1);           (0, 1);
   (1, -1);  (1, 0);  (1, 1)].

Inductive nextState : Type := Alive | Dead | Neither.

(** [backgroundColor] and [squareColor]. *)
Definition backgroundColor : Z * Z * Z := (230, 255, 250).
Definition squareColor : Z * Z * Z := (175, 137, 100).

(** [squareSize]. *)
Definition squareSize : Z := 4.

(** What [getCellColor] gives: the colour [rgba(r, g, b, a)], or the error
    it throws for a status that is neither 0 nor 1. *)
Inductive colour : Type :=
| Rgba (rgb : Z * Z * Z) (a : Z)
| StatusNotValid (status : Z).

(** [getCellColor(cellArray)]. *)
Definition getCellColor (cell : cellArray) : colour :=
  if fst cell =? 0 then Rgba backgroundColor (snd cell)
  else if fst cell =? 1 then Rgba squareColor (snd cell)
  else StatusNotValid (fst cell).

(** [changeSquareColor(row, col)]. *)
Definition changeSquareColor (st : state) (row col : Z) : state :=
  match at_ (grid st) row with
  | Some r =>
      match at_ r col with
      | Some _ =>
          mk (set_cell (grid st) row col alive) (isDrawing st) (isPaused st)
             (add (dirtyCells st) (row, col))
      | None => st
      end
  | None => st
  end.

(** [changeSquareColorAtEvent(event)], for the integer offsets [x] and [y]
    of the pointer from the corner of the canvas. *)
Definition changeSquareColorAtEvent (st : state) (x y : Z) : state :=
  let col := x / squareSize in
  let row := y / squareSize in
  changeSquareColor st row col.

(** The four listeners of the canvas. *)
Definition mousedown (st : state) (x y : Z) : state :=
  changeSquareColorAtEvent
    (mk (grid st) true true (dirtyCells st)) x y.

Definition mouseup (st : state) : state :=
  mk (grid st) false false (dirtyCells st).

Definition mouseleave (st : state) : state :=
  mk (grid st) false false (dirtyCells st).

Definition mousemove (st : state) (x y : Z) : state :=
  if isDrawing st then changeSquareColorAtEvent st x y else st.

(** The pointer moved over the pixels [pts], one [mousemove] each. *)
Definition drag (st : state) (pts : list (Z * Z)) : state :=
  fold_left (fun s p => mousemove s (fst p) (snd p)) pts st.

(** What one frame paints: [fillRect(x, y, w, h)] in a colour. *)
Definition painted : Type := (colour * (Z * Z * Z * Z))%type.

(** How the [forEach] of [drawGrid] ends. *)
Inductive ending : Type :=
| Finished
| Failed (e : error)
| NotValid (status : Z).

(** The [forEach] of [drawGrid] over the keys left: the rectangles it
    paints, in order, and how it ends. *)
Fixpoint paint (g : list (list cellArray)) (keys : list (Z * Z))
  : list painted * ending :=
  match keys with
  | [] => ([], Finished)
  | (row, col) :: rest =>
      match cell_at g row col with
      | Throw e => ([], Failed e)
      | Ok None => ([], Failed TypeError)
      | Ok (Some cell) =>
          match getCellColor cell with
          | StatusNotValid s => ([], NotValid s)
          | c =>
              let (l, end_) := paint g rest in
              ((c, (col * squareSize, row * squareSize,
                    squareSize, squareSize)) :: l, end_)
          end
      end
  end.

(** [drawGrid()]: the state afterwards and what was painted; the dirty set
    is cleared only when no error ends the [forEach]. *)
Definition drawGrid (st : state) : state * list painted * ending :=
  let (l, end_) := paint (grid st) (dirtyCells st) in
  match end_ with
  | Finished => (mk (grid st) (isDrawing st) (isPaused st) [], l, end_)
  | _ => (st, l, end_)
  end.

(** The state with [isDrawingScheduled]. *)
Record page : Type := mkPage {
  shown : state;
  isDrawingScheduled : bool
}.

(** [scheduleDraw()]: the page afterwards, and whether it has asked for an
    animation frame. *)
Definition scheduleDraw (p : page) : page * bool :=
  if isDrawingScheduled p then (p, false)
  else (mkPage (shown p) true, true).

(** The callback of [requestAnimationFrame]:
    [drawGrid(); isDrawingScheduled = false;], where a throw of [drawGrid]
    ends the callback before the assignment. *)
Definition frame (p : page) : page * list painted * ending :=
  match drawGrid (shown p) with
  | (st, l, Finished) => (mkPage st false, l, Finished)
  | (st, l, end_) => (mkPage st (isDrawingScheduled p), l, end_)
  end.

Section Constants.

Variables rows cols : Z.

(** [Array.from({ length: rows }, () => Array(cols).fill([0, 1]))]; the
    counts come from [Math.ceil] of sizes that are not negative. *)
Definition fresh : list (list cellArray) :=
  repeat (repeat dead (Z.to_nat cols)) (Z.to_nat rows).

(** The loop of [countAliveNeighbors] over the directions left. *)
Fixpoint count_from (g : list (list cellArray)) (row col : Z)
  (ds : list (Z * Z)) (count : Z) : result Z :=
  match ds with
  | [] => Ok count
  | (dx, dy) :: rest =>
      let newRow := Z.rem (row + dx + rows) rows in
      let newCol := Z.rem (col + dy + cols) cols in
      s <- status_at g newRow newCol ;;
      count_from g row col rest (if s =? 1 then count + 1 else count)
  end.

(** [countAliveNeighbors(row, col)]; with no row or no column the
    remainders are NaN and the first read throws. *)
Definition countAliveNeighbors (g : list (list cellArray)) (row col : Z)
  : result Z :=
  if (rows =? 0) || (cols =? 0) then Throw TypeError
  else count_from g row col directions 0.

(** [cellNextState(row, col)]. *)
Definition cellNextState (g : list (list cellArray)) (row col : Z)
  : result nextState :=
  neighbors <- countAliveNeighbors g row col ;;
  s <- status_at g row col ;;
  if s =? 1 then
    Ok (if (neighbors =? 2) || (neighbors =? 3) then Alive else Dead)
  else if s =? 0 then
    Ok (if neighbors =? 3 then Alive else Dead)
  else Ok Neither.

(** The body of the inner loop of [updateGridConway], on the new grid and
    the dirty set. *)
Definition update_cell (g : list (list cellArray)) (row : nat)
  (nd : list (list cellArray) * list (Z * Z)) (col : nat)
  : outcome (list (list cellArray) * list (Z * Z)) :=
  let r := Z.of_nat row in
  let c := Z.of_nat col in
  match cellNextState g r c with
  | Throw e => Thrown e nd
  | Ok next =>
      let newGrid :=
        match next with
        | Alive => set_cell (fst nd) r c alive
        | Dead => set_cell (fst nd) r c dead
        | Neither => fst nd
        end in
      match status_at newGrid r c, status_at g r c with
      | Ok s', Ok s =>
          Returned (newGrid, if s' =? s then snd nd else add (snd nd) (r, c))
      | Throw e, _ => Thrown e (newGrid, snd nd)
      | _, Throw e => Thrown e (newGrid, snd nd)
      end
  end.

(** [updateGridConway()]: a throw leaves [grid] as it was, the new grid
    being local, and the dirty set as far as it got. *)
Definition updateGridConway (st : state) : outcome state :=
  if isPaused st then Returned st
  else
    match
      for_each
        (fun nd row => for_each (update_cell (grid st) row)
                         (seq 0 (Z.to_nat cols)) nd)
        (seq 0 (Z.to_nat rows)) (fresh, dirtyCells st)
    with
    | Returned (newGrid, dirty) =>
        Returned (mk newGrid (isDrawing st) (isPaused st) dirty)
    | Thrown e (_, dirty) =>
        Thrown e (mk (grid st) (isDrawing st) (isPaused st) dirty)
    end.

End Constants.

End Conway.

(** ** The rule of the neighbour-counting grid, stated on the grid *)
Module Life.

(** The status of a cell, 0 where there is no cell. *)
Definition status (g : list (list Conway.cellArray)) (r c : Z) : Z :=
  match Conway.status_at g r c with Ok s => s | Throw _ => 0 end.

(** A grid of [rows] rows of [cols] cells, each [[0, 1]] or [[1, 1]]. *)
Definition shaped (rows cols : Z) (g : list (list Conway.cellArray)) : Prop :=
  List.length g = Z.to_nat rows
  /\ Forall (fun row =>
               List.length row = Z.to_nat cols
               /\ Forall (fun cell => cell = Conway.dead
                                      \/ cell = Conway.alive) row) g.

(** The number of cells of status 1 among the eight around [(r, c)], the
    grid being wrapped in both directions. *)
Definition neighbours (rows cols : Z) (g : list (list Conway.cellArray))
  (r c : Z) : Z :=
  fold_left
    (fun n d =>
       if status g ((r + fst d) mod rows) ((c + snd d) mod cols) =? 1
       then n + 1 else n)
    Conway.directions 0.

(** The status after one generation of a cell of status [s] with [n]
    neighbours of status 1. *)
Definition next (s n : Z) : Z :=
  if s =? 1 then (if (n =? 2) || (n =? 3) then 1 else 0)
  else (if n =? 3 then 1 else 0).

(** The cell [(r, c)] is one of the grid. *)
Definition inside (rows cols : Z) (k : Z * Z) : Prop :=
  0 <= fst k < rows /\ 0 <= snd k < cols.

(** A state whose grid is shaped and whose dirty keys are cells of it. *)
Definition sound (rows cols : Z) (st : Conway.state) : Prop :=
  shaped rows cols (Conway.grid st)
  /\ Forall (inside rows cols) (Conway.dirtyCells st).

(** The colour a cell of status 0 or 1 is painted in. *)
Definition colour_of (g : list (list Conway.cellArray)) (key : Z * Z)
  : Conway.colour :=
  Conway.Rgba
    (if status g (fst key) (snd key) =? 1
     then Conway.squareColor else Conway.backgroundColor) 1.

End Life.

(** * Properties *)

(** ** Creation of an automaton *)

(** C10: the automaton [addAnt] appends to the list starts in state 0 and
    facing 0 (up), at the given coordinates, whatever configuration it is
    bound to (the given one, or the simulation's current one when none is
    given); the automatons already there, the grid and the current
    configuration are left as they were. *)
Theorem addAnt_initial_state_and_facing :
  forall (this : AntSim.t) (x y : number) (cfg : option AntConfig),
    exists ant : Ant.t,
      AntSim.ants (AntSim.addAnt this x y cfg) = AntSim.ants this ++ [ant]
      /\ Ant.state ant = Int 0
      /\ Ant.direction ant = 0
      /\ Ant.x ant = x /\ Ant.y ant = y
      /\ Ant.config ant
         = match cfg with Some c => c | None => AntSim.config this end
      /\ AntSim.grid (AntSim.addAnt this x y cfg) = AntSim.grid this
      /\ AntSim.config (AntSim.addAnt this x y cfg) = AntSim.config this.
Proof.
  intros this x y cfg.
  exists (Ant.constructor x y
            (match cfg with Some c => c | None => AntSim.config this end)).
  repeat split.
Qed.

(** ** The colour count check *)

(** C9: a candidate whose [colors] is 1.5 passes [validateAntConfig],
    although the message of the check it slips through asks for a positive
    integer. *)
Theorem fractional_colors_accepted :
  forall ToNumber_other : value -> number,
    Num.is_int (colors Examples.fractional_colors) = false
    /\ validateAntConfig ToNumber_other
         (config_value Examples.fractional_colors) = Ok tt.
Proof.
  intros ToNumber_other. split; vm_compute; reflexivity.
Qed.

(** ** An automaton below the last row *)

Lemma fresh_is_constructed :
  AntSim.constructor presetAnts.classic 30 35 10 = Ok Examples.fresh.
Proof. vm_compute. reflexivity. Qed.

(** C5: in the simulation built for a 30 by 35 window, the automaton a
    click in the last five pixel rows creates is at row 3 of a three-row
    grid; the next [step] throws a TypeError and leaves the state as it
    was. *)
Theorem step_throws_below_last_row :
  AntSim.step Examples.edge_click = Thrown TypeError Examples.edge_click.
Proof. vm_compute. reflexivity. Qed.

(** C2: with a second automaton behind the one below the last row, [step]
    throws at the first and never moves the second. *)
Theorem step_leaves_later_ants_unmoved :
  AntSim.step Examples.two_clicks = Thrown TypeError Examples.two_clicks
  /\ nth_error (AntSim.ants Examples.two_clicks) 1
     = Some (Ant.constructor (Int 1) (Int 1) presetAnts.classic).
Proof. split; vm_compute; reflexivity. Qed.

(** C8: at 20 steps per second a tick brings the accumulator from 0 to 1;
    the one [step] of the batch throws, so the accumulator is never brought
    back under 1. *)
Theorem tick_keeps_whole_step_on_throw :
  batch_tick (mkSession Examples.edge_click false (Int 20) (Int 0))
  = Thrown TypeError (mkSession Examples.edge_click false (Int 20) (Int 1)).
Proof. vm_compute. reflexivity. Qed.

(** C6: the configuration with 1.5 colours validates; after one step an
    automaton bound to it is in state 1 on a cell of colour 0, where it
    finds nothing at index 1 * 1.5 + 0, and [move] takes the transition at
    the second index, 1 * 1.5 + 1.5 = 3. *)
Theorem primary_lookup_misses :
  forall ToNumber_other : value -> number,
    let cfg := Examples.fractional_colors in
    validateAntConfig ToNumber_other (config_value cfg) = Ok tt
    /\ exists (this' : AntSim.t) (ant : Ant.t),
         AntSim.step Examples.fractional_click = Returned this'
         /\ AntSim.ants this' = [ant]
         /\ Ant.state ant = Int 1
         /\ grid_get (AntSim.grid this') (Ant.y ant) (Ant.x ant)
            = Ok (Some (Int 0))
         /\ Ant.transition_at (transitions cfg)
              (Num.add (Num.mul (Ant.state ant) (colors cfg)) (Int 0)) = None
         /\ Ant.resolve ant (Some (Int 0)) = nth_error (transitions cfg) 3.
Proof.
  intros ToNumber_other. split; [vm_compute; reflexivity|].
  eexists. eexists. split; [vm_compute; reflexivity|].
  repeat split.
Qed.

(** ** Reading and writing cells *)

Lemma length_replace {A : Type} (l : list A) (i : nat) (v : A) :
  List.length (replace l i v) = List.length l.
Proof.
  revert i. induction l as [|a l IH]; intros [|i]; simpl; auto.
Qed.

Lemma nth_error_replace_eq {A : Type} (l : list A) (i : nat) (v : A) :
  (i < List.length l)%nat -> nth_error (replace l i v) i = Some v.
Proof.
  revert i. induction l as [|a l IH]; intros [|i] H; simpl in *;
    try lia; auto.
  apply IH. lia.
Qed.

Lemma nth_error_replace_neq {A : Type} (l : list A) (i j : nat) (v : A) :
  i <> j -> nth_error (replace l i v) j = nth_error l j.
Proof.
  revert i j. induction l as [|a l IH]; intros [|i] [|j] H; simpl;
    auto; try congruence.
Qed.

Lemma as_index_Int (z : Z) :
  0 <= z -> Num.as_index (Int z) = Some (Z.to_nat z).
Proof.
  intros H. unfold Num.as_index.
  destruct (0 <=? z) eqn:E; auto. apply Z.leb_gt in E. lia.
Qed.

Lemma as_index_Int_neg (z : Z) : z < 0 -> Num.as_index (Int z) = None.
Proof.
  intros H. unfold Num.as_index.
  destruct (0 <=? z) eqn:E; auto. apply Z.leb_le in E. lia.
Qed.

Lemma nth_error_extend {A : Type} (l : list A) (d v : A) (i : nat) :
  (List.length l <= i)%nat ->
  nth_error (l ++ repeat d (i - List.length l) ++ [v]) i = Some v.
Proof.
  intros H.
  rewrite nth_error_app2 by lia.
  rewrite nth_error_app2 by (rewrite repeat_length; lia).
  rewrite repeat_length.
  replace (i - List.length l - (i - List.length l))%nat with O by lia.
  reflexivity.
Qed.

Lemma nth_error_extend_other (l : list cell) (v : cell) (i j : nat) :
  (List.length l <= i)%nat -> j <> i ->
  match nth_error (l ++ repeat None (i - List.length l) ++ [v]) j with
  | Some c => c | None => None end
  = match nth_error l j with Some c => c | None => None end.
Proof.
  intros H Hj.
  destruct (Nat.lt_ge_cases j (List.length l)) as [Hlt|Hge].
  - rewrite nth_error_app1 by lia. reflexivity.
  - rewrite nth_error_app2 by lia.
    replace (nth_error l j) with (@None cell)
      by (symmetry; apply nth_error_None; lia).
    destruct (Nat.lt_ge_cases (j - List.length l) (i - List.length l))
      as [Hlt2|Hge2].
    + rewrite nth_error_app1 by (rewrite repeat_length; lia).
      rewrite nth_error_repeat by lia. reflexivity.
    + rewrite nth_error_app2 by (rewrite repeat_length; lia).
      rewrite repeat_length.
      destruct (j - List.length l - (i - List.length l))%nat as [|[|k]] eqn:E;
        simpl; try reflexivity.
      lia.
Qed.

Lemma row_get_set_eq (r : row) (x : Z) (v : cell) :
  0 <= x -> row_get (row_set r (Int x) v) (Int x) = v.
Proof.
  intros Hx. unfold row_get, row_set. rewrite (as_index_Int x Hx).
  destruct (Z.to_nat x <? List.length (cells r))%nat eqn:E; simpl.
  - apply Nat.ltb_lt in E. rewrite nth_error_replace_eq by assumption.
    reflexivity.
  - apply Nat.ltb_ge in E. rewrite nth_error_extend by assumption.
    reflexivity.
Qed.

Lemma row_get_set_neq (r : row) (x x2 : Z) (v : cell) :
  0 <= x -> x2 <> x ->
  row_get (row_set r (Int x) v) (Int x2) = row_get r (Int x2).
Proof.
  intros Hx Hne. unfold row_get, row_set. rewrite (as_index_Int x Hx).
  destruct (Z_lt_le_dec x2 0) as [Hneg|Hpos].
  - rewrite (as_index_Int_neg x2 Hneg).
    destruct (Z.to_nat x <? List.length (cells r))%nat; reflexivity.
  - rewrite (as_index_Int x2 Hpos).
    assert (Hn : Z.to_nat x2 <> Z.to_nat x) by lia.
    destruct (Z.to_nat x <? List.length (cells r))%nat eqn:E; simpl.
    + rewrite nth_error_replace_neq by congruence. reflexivity.
    + apply Nat.ltb_ge in E. apply nth_error_extend_other; assumption.
Qed.

Lemma grid_row_Int (g : Grid) (y : Z) (r : row) :
  grid_row g (Int y) = Ok r <->
  0 <= y /\ nth_error g (Z.to_nat y) = Some r.
Proof.
  unfold grid_row. destruct (Z_lt_le_dec y 0) as [Hneg|Hpos].
  - rewrite (as_index_Int_neg y Hneg). split; [discriminate | lia].
  - rewrite (as_index_Int y Hpos).
    destruct (nth_error g (Z.to_nat y)) as [r'|]; split.
    + intros H. injection H as ->. auto.
    + intros [_ H]. congruence.
    + discriminate.
    + intros [_ H]. discriminate.
Qed.

Lemma grid_get_Int (g : Grid) (y x : Z) (c : cell) :
  grid_get g (Int y) (Int x) = Ok c <->
  exists r, 0 <= y /\ nth_error g (Z.to_nat y) = Some r
            /\ row_get r (Int x) = c.
Proof.
  unfold grid_get, bind. split.
  - destruct (grid_row g (Int y)) as [r|e] eqn:E; [|discriminate].
    intros H. injection H as H. apply grid_row_Int in E as [Hy Hr].
    exists r. auto.
  - intros (r & Hy & Hr & Hc).
    assert (E : grid_row g (Int y) = Ok r) by (apply grid_row_Int; auto).
    rewrite E. congruence.
Qed.

(** A write to an existing row succeeds, is read back, and leaves every
    other integer-indexed cell as it was. *)
Lemma grid_set_spec (g : Grid) (y x : Z) (c v : cell) :
  0 <= x ->
  grid_get g (Int y) (Int x) = Ok c ->
  exists g',
    grid_set g (Int y) (Int x) v = Ok g'
    /\ List.length g' = List.length g
    /\ grid_get g' (Int y) (Int x) = Ok v
    /\ forall y2 x2 : Z,
         (y2, x2) <> (y, x) ->
         grid_get g' (Int y2) (Int x2) = grid_get g (Int y2) (Int x2).
Proof.
  intros Hx Hget. apply grid_get_Int in Hget as (r & Hy & Hr & Hc).
  assert (Hlen : (Z.to_nat y < List.length g)%nat)
    by (apply nth_error_Some; congruence).
  exists (replace g (Z.to_nat y) (row_set r (Int x) v)).
  assert (E : grid_row g (Int y) = Ok r) by (apply grid_row_Int; auto).
  repeat split.
  - unfold grid_set, bind. rewrite E, (as_index_Int y Hy). reflexivity.
  - apply length_replace.
  - apply grid_get_Int. exists (row_set r (Int x) v). repeat split; auto.
    + apply nth_error_replace_eq; assumption.
    + apply row_get_set_eq; assumption.
  - intros y2 x2 Hne. unfold grid_get, bind, grid_row.
    destruct (Z_lt_le_dec y2 0) as [Hneg|Hpos].
    + rewrite (as_index_Int_neg y2 Hneg). reflexivity.
    + rewrite (as_index_Int y2 Hpos).
      destruct (Z.eq_dec y2 y) as [->|Hy2].
      * rewrite nth_error_replace_eq by assumption. rewrite Hr.
        f_equal. apply row_get_set_neq; [assumption|congruence].
      * rewrite nth_error_replace_neq by lia. reflexivity.
Qed.

(** ** The movement rule *)

Lemma rotate_range (d : Z) (turn : number) :
  0 <= d < 4 -> 0 <= Ant.rotate d turn < 4.
Proof.
  intros H. unfold Ant.rotate.
  destruct (Num.eqb turn (Int 0));
    (split; [apply Z.rem_nonneg; lia | apply Z.rem_bound_pos; lia]).
Qed.

Lemma rotate_mod (d : Z) (turn : number) :
  0 <= d ->
  Ant.rotate d turn
  = (d + (if Num.eqb turn (Int 0) then 3 else 1)) mod 4.
Proof.
  intros H. unfold Ant.rotate. apply Z.rem_mod_nonneg; [|lia].
  destruct (Num.eqb turn (Int 0)); lia.
Qed.

(** The four cases of the [switch], for an automaton at non-negative
    integer coordinates of a grid with at least one row and one column. *)
Lemma advance_mod (d rows cols x y : Z) :
  0 <= x -> 0 <= y -> 0 < rows -> 0 < cols ->
  Ant.advance d (Int rows) (Int cols) (Int x, Int y)
  = match d with
    | 0 => (Int x, Int ((y - 1) mod rows))
    | 1 => (Int ((x + 1) mod cols), Int y)
    | 2 => (Int x, Int ((y + 1) mod rows))
    | 3 => (Int ((x - 1) mod cols), Int y)
    | _ => (Int x, Int y)
    end.
Proof.
  intros Hx Hy Hr Hc. unfold Ant.advance, Num.rem, Num.add, Num.sub.
  assert (Er : (rows =? 0) = false) by (apply Z.eqb_neq; lia).
  assert (Ec : (cols =? 0) = false) by (apply Z.eqb_neq; lia).
  rewrite Er, Ec.
  assert (Hl : Z.rem (x - 1 + cols) cols = (x - 1) mod cols).
  { rewrite Z.rem_mod_nonneg by lia.
    replace (x - 1 + cols) with (x - 1 + 1 * cols) by lia.
    apply Z.mod_add. lia. }
  assert (Hu : Z.rem (y - 1 + rows) rows = (y - 1) mod rows).
  { rewrite Z.rem_mod_nonneg by lia.
    replace (y - 1 + rows) with (y - 1 + 1 * rows) by lia.
    apply Z.mod_add. lia. }
  assert (Hri : Z.rem (x + 1) cols = (x + 1) mod cols)
    by (apply Z.rem_mod_nonneg; lia).
  assert (Hd : Z.rem (y + 1) rows = (y + 1) mod rows)
    by (apply Z.rem_mod_nonneg; lia).
  destruct d as [|[[|[]|]|[|[]|]|]|]; rewrite ?Hl, ?Hu, ?Hri, ?Hd;
    reflexivity.
Qed.

Lemma iter_advance (d rows cols x y : Z) (k : nat) :
  0 <= x < cols -> 0 <= y < rows ->
  Nat.iter k (Ant.advance d (Int rows) (Int cols)) (Int x, Int y)
  = match d with
    | 0 => (Int x, Int ((y - Z.of_nat k) mod rows))
    | 1 => (Int ((x + Z.of_nat k) mod cols), Int y)
    | 2 => (Int x, Int ((y + Z.of_nat k) mod rows))
    | 3 => (Int ((x - Z.of_nat k) mod cols), Int y)
    | _ => (Int x, Int y)
    end.
Proof.
  intros Hx Hy. induction k as [|k IH].
  - simpl. rewrite !Z.add_0_r, !Z.sub_0_r, !Z.mod_small by lia.
    destruct d as [|[[|[]|]|[|[]|]|]|]; reflexivity.
  - rewrite Nat.iter_succ, IH. clear IH.
    assert (Bx : forall a, 0 <= a mod cols < cols)
      by (intros a; apply Z.mod_pos_bound; lia).
    assert (By : forall a, 0 <= a mod rows < rows)
      by (intros a; apply Z.mod_pos_bound; lia).
    assert (E1 : ((y - Z.of_nat k) mod rows - 1) mod rows
                 = (y - Z.of_nat (S k)) mod rows)
      by (rewrite Zminus_mod_idemp_l; f_equal; lia).
    assert (E2 : ((y + Z.of_nat k) mod rows + 1) mod rows
                 = (y + Z.of_nat (S k)) mod rows)
      by (rewrite Zplus_mod_idemp_l; f_equal; lia).
    assert (E3 : ((x - Z.of_nat k) mod cols - 1) mod cols
                 = (x - Z.of_nat (S k)) mod cols)
      by (rewrite Zminus_mod_idemp_l; f_equal; lia).
    assert (E4 : ((x + Z.of_nat k) mod cols + 1) mod cols
                 = (x + Z.of_nat (S k)) mod cols)
      by (rewrite Zplus_mod_idemp_l; f_equal; lia).
    destruct d as [|[[|[]|]|[|[]|]|]|]; try reflexivity;
      rewrite advance_mod;
      try (apply Bx); try (apply By); try lia;
      rewrite ?E1, ?E2, ?E3, ?E4; reflexivity.
Qed.

(** C1: for an automaton at non-negative integer coordinates [(x, y)] of a
    grid with at least one row and one column, whose lookup on the colour
    of its cell resolves to the transition [t], [move] returns; the cell
    then holds [newColor t] and no other cell has changed; the facing is
    [(facing + 3) mod 4] when [turn t] is 0 (left) and [(facing + 1) mod 4]
    otherwise (right); the state is [nextState t]; and the position is one
    cell further in the new facing, modulo [rows] (up: row - 1, down:
    row + 1) or [cols] (right: column + 1, left: column - 1).  Moreover,
    from a cell of the grid, [rows] advances up or down, and [cols]
    advances right or left, lead back to the starting cell. *)
Theorem move_rule_and_wrap :
  (forall (this : Ant.t) (g : Grid) (rows cols x y : Z) (color : cell)
          (t : transition),
      Ant.x this = Int x -> Ant.y this = Int y ->
      0 <= x -> 0 <= y -> 0 < rows -> 0 < cols ->
      0 <= Ant.direction this < 4 ->
      grid_get g (Int y) (Int x) = Ok color ->
      Ant.resolve this color = Some t ->
      exists (g' : Grid) (ant' : Ant.t),
        Ant.move this g (Int rows) (Int cols) = Ok (g', ant')
        /\ grid_get g' (Int y) (Int x) = Ok (Some (newColor t))
        /\ (forall y2 x2 : Z, (y2, x2) <> (y, x) ->
              grid_get g' (Int y2) (Int x2) = grid_get g (Int y2) (Int x2))
        /\ Ant.direction ant'
           = (Ant.direction this
              + (if Num.eqb (turn t) (Int 0) then 3 else 1)) mod 4
        /\ Ant.state ant' = nextState t
        /\ Ant.config ant' = Ant.config this
        /\ (Ant.x ant', Ant.y ant')
           = match Ant.direction ant' with
             | 0 => (Int x, Int ((y - 1) mod rows))
             | 1 => (Int ((x + 1) mod cols), Int y)
             | 2 => (Int x, Int ((y + 1) mod rows))
             | _ => (Int ((x - 1) mod cols), Int y)
             end)
  /\ (forall rows cols x y d : Z,
        0 <= x < cols -> 0 <= y < rows -> 0 <= d < 4 ->
        Nat.iter (Z.to_nat (if Z.even d then rows else cols))
          (Ant.advance d (Int rows) (Int cols)) (Int x, Int y)
        = (Int x, Int y)).
Proof.
  split.
  - intros this g rows cols x y color t Hx Hy Hx0 Hy0 Hr Hc Hd Hget Hres.
    destruct (grid_set_spec g y x color (Some (newColor t)) Hx0 Hget)
      as (g' & Hset & _ & Hread & Hother).
    pose (d' := Ant.rotate (Ant.direction this) (turn t)).
    assert (Hd' : 0 <= d' < 4) by (apply rotate_range; assumption).
    exists g'.
    exists (Ant.mk (fst (Ant.advance d' (Int rows) (Int cols) (Int x, Int y)))
                   (snd (Ant.advance d' (Int rows) (Int cols) (Int x, Int y)))
                   d' (nextState t) (Ant.config this)).
    split.
    { unfold Ant.move. rewrite Hx, Hy, Hget. cbn [bind]. rewrite Hres, Hset.
      cbn [bind]. fold d'.
      destruct (Ant.advance d' (Int rows) (Int cols) (Int x, Int y)).
      reflexivity. }
    cbn [Ant.direction Ant.state Ant.config Ant.x Ant.y].
    repeat split; auto.
    + apply rotate_mod. lia.
    + rewrite <- surjective_pairing.
      rewrite advance_mod by assumption.
      destruct d' as [|[[|[]|]|[|[]|]|]|]; try reflexivity; lia.
  - intros rows cols x y d Hx Hy Hd.
    rewrite iter_advance by assumption.
    assert (Hrows : (y + rows) mod rows = y).
    { replace (y + rows) with (y + 1 * rows) by lia.
      rewrite Z.mod_add by lia. apply Z.mod_small. lia. }
    assert (Hrows' : (y - rows) mod rows = y).
    { replace (y - rows) with (y + (-1) * rows) by lia.
      rewrite Z.mod_add by lia. apply Z.mod_small. lia. }
    assert (Hcols : (x + cols) mod cols = x).
    { replace (x + cols) with (x + 1 * cols) by lia.
      rewrite Z.mod_add by lia. apply Z.mod_small. lia. }
    assert (Hcols' : (x - cols) mod cols = x).
    { replace (x - cols) with (x + (-1) * cols) by lia.
      rewrite Z.mod_add by lia. apply Z.mod_small. lia. }
    destruct d as [|[[|[]|]|[|[]|]|]|]; try lia; cbn [Z.even];
      rewrite Z2Nat.id by lia; congruence.
Qed.

Lemma move_rule_and_wrap_witness :
  (exists (g' : Grid) (ant' : Ant.t),
      Ant.move (Ant.constructor (Int 1) (Int 1) presetAnts.classic)
        (AntSim.grid Examples.fresh) (Int 3) (Int 3) = Ok (g', ant')
      /\ grid_get g' (Int 1) (Int 1) = Ok (Some (Int 1))
      /\ Ant.direction ant' = 1
      /\ (Ant.x ant', Ant.y ant') = (Int 2, Int 1))
  /\ Nat.iter 3 (Ant.advance 0 (Int 3) (Int 3)) (Int 1, Int 1)
     = (Int 1, Int 1).
Proof.
  split.
  - destruct (proj1 move_rule_and_wrap
                (Ant.constructor (Int 1) (Int 1) presetAnts.classic)
                (AntSim.grid Examples.fresh) 3 3 1 1 (Some (Int 0))
                (presetAnts.T 1 1 0))
      as (g' & ant' & Hmove & Hcell & _ & Hdir & _ & _ & Hpos);
      try reflexivity; try lia.
    + simpl. lia.
    + exists g', ant'. repeat split; try assumption.
      rewrite Hpos, Hdir. reflexivity.
  - apply (proj2 move_rule_and_wrap 3 3 1 1 0); lia.
Defined.

(** ** Resizing *)

(** A loop over [a, a + n) that keeps an invariant indexed by the next
    counter value returns, with the invariant at [a + n]. *)
Lemma for_each_seq_inv {S : Type} (f : S -> nat -> outcome S)
  (I : nat -> S -> Prop) (n a : nat) (s : S) :
  I a s ->
  (forall k s1, (a <= k < a + n)%nat -> I k s1 ->
     exists s2, f s1 k = Returned s2 /\ I (Datatypes.S k) s2) ->
  exists s', for_each f (seq a n) s = Returned s' /\ I (a + n)%nat s'.
Proof.
  revert a s. induction n as [|n IH]; intros a s Ha Hstep.
  - exists s. rewrite Nat.add_0_r. auto.
  - simpl. destruct (Hstep a s) as (s2 & E & H2); [lia | assumption |].
    rewrite E.
    destruct (IH (Datatypes.S a) s2 H2) as (s' & E' & H').
    + intros k s1 Hk. apply Hstep. lia.
    + exists s'. split; [assumption|].
      replace (a + Datatypes.S n)%nat with (Datatypes.S a + n)%nat by lia.
      assumption.
Qed.

Lemma new_grid_returns (rows cols : Z) :
  0 <= cols ->
  exists g, new_grid rows cols = Ok g
    /\ forall y x, 0 <= y < rows -> 0 <= x < cols ->
         grid_get g (Int y) (Int x) = Ok (Some (Int 0)).
Proof.
  intros Hc. unfold new_grid.
  destruct (rows <=? 0) eqn:Er.
  - exists []. split; [reflexivity|]. apply Z.leb_le in Er. intros; lia.
  - apply Z.leb_gt in Er.
    destruct (cols <? 0) eqn:Ec; [apply Z.ltb_lt in Ec; lia|].
    eexists. split; [reflexivity|].
    intros y x Hy Hx. apply grid_get_Int.
    exists (mkRow (repeat (Some (Int 0)) (Z.to_nat cols)) []).
    repeat split; try lia.
    + apply nth_error_repeat. lia.
    + unfold row_get. rewrite as_index_Int by lia. simpl.
      rewrite nth_error_repeat by lia. reflexivity.
Qed.

(** What the copy has reached: inside the region [P] the new grid reads as
    the old one, elsewhere within its bounds it is background. *)
Lemma copy_region_spec (oldGrid g : Grid) (rows cols nrows ncols : Z) :
  nrows <= rows -> ncols <= cols ->
  (Z.to_nat nrows <= List.length oldGrid)%nat ->
  (forall y x, 0 <= y < rows -> 0 <= x < cols ->
     grid_get g (Int y) (Int x) = Ok (Some (Int 0))) ->
  exists g',
    AntSim.copy_region oldGrid nrows ncols g = Returned g'
    /\ forall y x, 0 <= y < rows -> 0 <= x < cols ->
         (y < nrows /\ x < ncols ->
            grid_get g' (Int y) (Int x) = grid_get oldGrid (Int y) (Int x))
         /\ (~ (y < nrows /\ x < ncols) ->
            grid_get g' (Int y) (Int x) = Ok (Some (Int 0))).
Proof.
  intros Hnr Hnc Hold Hg.
  (* the cells done once the outer counter is [k] and the inner one [j] *)
  pose (done := fun (k j : nat) (y x : Z) =>
          (y < Z.of_nat k /\ x < ncols)
          \/ (y = Z.of_nat k /\ x < Z.of_nat j)).
  pose (Inv := fun (k j : nat) (g1 : Grid) =>
          forall y x, 0 <= y < rows -> 0 <= x < cols ->
            (done k j y x ->
               grid_get g1 (Int y) (Int x) = grid_get oldGrid (Int y) (Int x))
            /\ (~ done k j y x ->
               grid_get g1 (Int y) (Int x) = Ok (Some (Int 0)))).
  assert (Hrow : forall k, (k < Z.to_nat nrows)%nat ->
            exists r, nth_error oldGrid k = Some r).
  { intros k Hk. destruct (nth_error oldGrid k) eqn:E; [eauto|].
    apply nth_error_None in E. lia. }
  assert (Hinner : forall k g1, (k < Z.to_nat nrows)%nat -> Inv k O g1 ->
            exists g2,
              for_each (AntSim.copy_cell oldGrid k) (seq 0 (Z.to_nat ncols)) g1
              = Returned g2 /\ Inv (Datatypes.S k) O g2).
  { intros k g1 Hk H1.
    destruct (for_each_seq_inv (AntSim.copy_cell oldGrid k) (Inv k)
                (Z.to_nat ncols) O g1 H1) as (g2 & E & H2).
    - intros j g3 Hj H3.
      destruct (Hrow k Hk) as (r & Hr).
      assert (Hgo : grid_get oldGrid (Int (Z.of_nat k)) (Int (Z.of_nat j))
                    = Ok (row_get r (Int (Z.of_nat j)))).
      { apply grid_get_Int. exists r. rewrite Nat2Z.id.
        repeat split; auto; lia. }
      assert (Hin : grid_get g3 (Int (Z.of_nat k)) (Int (Z.of_nat j))
                    = Ok (Some (Int 0))).
      { apply H3; try lia. unfold done. lia. }
      destruct (grid_set_spec g3 (Z.of_nat k) (Z.of_nat j) _
                  (row_get r (Int (Z.of_nat j))) ltac:(lia) Hin)
        as (g4 & Hset & _ & Hread & Hother).
      exists g4. split.
      + unfold AntSim.copy_cell. rewrite Hgo. cbn [bind]. rewrite Hset.
        reflexivity.
      + intros y x Hy Hx.
        destruct (Z.eq_dec y (Z.of_nat k)) as [->|Hyk];
          [destruct (Z.eq_dec x (Z.of_nat j)) as [->|Hxj]|].
        * split; intros Hd; [congruence|]. exfalso. apply Hd. unfold done. lia.
        * rewrite Hother by congruence.
          destruct (H3 (Z.of_nat k) x Hy Hx) as [Ha Hb].
          split; intros Hd; [apply Ha | apply Hb]; unfold done in *; lia.
        * rewrite Hother by congruence.
          destruct (H3 y x Hy Hx) as [Ha Hb].
          split; intros Hd; [apply Ha | apply Hb]; unfold done in *; lia.
    - exists g2. split; [assumption|].
      intros y x Hy Hx. destruct (H2 y x Hy Hx) as [Ha Hb].
      split; intros Hd; [apply Ha | apply Hb]; unfold done in *; lia. }
  destruct (for_each_seq_inv
              (fun g1 y => for_each (AntSim.copy_cell oldGrid y)
                             (seq 0 (Z.to_nat ncols)) g1)
              (fun k => Inv k O) (Z.to_nat nrows) O g) as (g' & E & H').
  - intros y x Hy Hx. split; intros Hd.
    + unfold done in Hd. lia.
    + apply Hg; assumption.
  - intros k g1 Hk H1. apply Hinner; [lia | assumption].
  - exists g'. split; [exact E|].
    intros y x Hy Hx. destruct (H' y x Hy Hx) as [Ha Hb].
    split; intros Hd; [apply Ha | apply Hb]; unfold done in *; lia.
Qed.

(** C4, as stated, fails: [resize] tests the coordinates against [cols] and
    [rows] only, so an automaton at column -1 survives it. *)
Lemma resize_keeps_negative_column :
  ~ (forall ant : Ant.t,
       In ant (AntSim.ants
                 (state_of (AntSim.resize Examples.left_of_grid 30 35))) ->
       Num.geb (Ant.x ant) (Int 0) = true
       /\ Num.ltb (Ant.x ant)
            (Int (AntSim.cols
                    (state_of (AntSim.resize Examples.left_of_grid 30 35))))
          = true).
Proof.
  intros H.
  destruct (H (Ant.constructor (Int (-1)) (Int 0) presetAnts.classic))
    as [Hge _].
  - vm_compute. left. reflexivity.
  - vm_compute in Hge. discriminate.
Qed.

(** C4, amended: on a simulation whose grid has its [rows] rows, for
    non-negative pixel sizes and a positive cell size, [resize] returns;
    the survivors are exactly the automatons with [x < cols] and
    [y < rows] for the new counts, unchanged (so non-negative coordinates
    stay non-negative); every cell of the overlap of the old and the new
    grid reads as before; every other cell of the new grid is 0. *)
Theorem resize_bounds_and_cells :
  forall (this : AntSim.t) (width height : Z),
    0 < AntSim.gridSize this -> 0 <= width -> 0 <= height ->
    (Z.to_nat (AntSim.rows this) <= List.length (AntSim.grid this))%nat ->
    exists this' : AntSim.t,
      AntSim.resize this width height = Returned this'
      /\ AntSim.rows this' = height / AntSim.gridSize this
      /\ AntSim.cols this' = width / AntSim.gridSize this
      /\ (forall ant : Ant.t,
            In ant (AntSim.ants this') <->
            In ant (AntSim.ants this)
            /\ Num.ltb (Ant.x ant) (Int (AntSim.cols this')) = true
            /\ Num.ltb (Ant.y ant) (Int (AntSim.rows this')) = true)
      /\ (forall y x : Z,
            0 <= y < Z.min (AntSim.rows this) (AntSim.rows this') ->
            0 <= x < Z.min (AntSim.cols this) (AntSim.cols this') ->
            grid_get (AntSim.grid this') (Int y) (Int x)
            = grid_get (AntSim.grid this) (Int y) (Int x))
      /\ (forall y x : Z,
            0 <= y < AntSim.rows this' -> 0 <= x < AntSim.cols this' ->
            ~ (y < AntSim.rows this /\ x < AntSim.cols this) ->
            grid_get (AntSim.grid this') (Int y) (Int x) = Ok (Some (Int 0))).
Proof.
  intros this width height Hg Hw Hh Hrows.
  set (rows' := height / AntSim.gridSize this).
  set (cols' := width / AntSim.gridSize this).
  assert (Hc' : 0 <= cols') by (apply Z.div_pos; lia).
  destruct (new_grid_returns rows' cols' Hc') as (g0 & Hnew & Hzero).
  destruct (copy_region_spec (AntSim.grid this) g0 rows' cols'
              (Z.min (AntSim.rows this) rows') (Z.min (AntSim.cols this) cols'))
    as (g' & Hcopy & Hcells); try lia; try assumption.
  exists (AntSim.mk (AntSim.gridSize this) width height (AntSim.config this)
            rows' cols' g'
            (filter (AntSim.in_bounds cols' rows') (AntSim.ants this))).
  split.
  { unfold AntSim.resize. fold rows' cols'. rewrite Hnew, Hcopy. reflexivity. }
  cbn [AntSim.rows AntSim.cols AntSim.ants AntSim.grid].
  repeat split.
  - apply filter_In in H. tauto.
  - apply filter_In in H. destruct H as [_ H]. unfold AntSim.in_bounds in H.
    apply andb_prop in H. tauto.
  - apply filter_In in H. destruct H as [_ H]. unfold AntSim.in_bounds in H.
    apply andb_prop in H. tauto.
  - intros (Hin & Hx & Hy). apply filter_In. split; [assumption|].
    unfold AntSim.in_bounds. rewrite Hx, Hy. reflexivity.
  - intros y x Hy Hx. apply Hcells; lia.
  - intros y x Hy Hx Hout. apply Hcells; lia.
Qed.

Lemma resize_bounds_and_cells_witness :
  exists this' : AntSim.t,
    AntSim.resize Examples.centre_click 20 50 = Returned this'
    /\ AntSim.rows this' = 5 /\ AntSim.cols this' = 2
    /\ grid_get (AntSim.grid this') (Int 1) (Int 1)
       = grid_get (AntSim.grid Examples.centre_click) (Int 1) (Int 1)
    /\ grid_get (AntSim.grid this') (Int 4) (Int 1) = Ok (Some (Int 0)).
Proof.
  destruct (resize_bounds_and_cells Examples.centre_click 20 50)
    as (this' & Hres & Hr & Hc & _ & Hkeep & Hnew).
  - simpl. lia.
  - lia.
  - lia.
  - simpl. lia.
  - exists this'. split; [exact Hres|]. split; [exact Hr|]. split; [exact Hc|].
    change (AntSim.rows this' = 5) in Hr.
    change (AntSim.cols this' = 2) in Hc.
    change (AntSim.rows Examples.centre_click) with 3 in Hkeep, Hnew.
    change (AntSim.cols Examples.centre_click) with 3 in Hkeep, Hnew.
    rewrite Hr, Hc in Hkeep, Hnew.
    split.
    + apply Hkeep; lia.
    + apply Hnew; lia.
Defined.

(** ** The validator against its checks *)
Section ValidatorFacts.

Variable ToNumber_other : value -> number.

Local Abbreviation validate := (validateAntConfig ToNumber_other).
Local Abbreviation inRange := (in_range ToNumber_other).
Local Abbreviation entryOk := (entry_ok ToNumber_other).
Local Abbreviation entryRejects := (entry_rejects ToNumber_other).

Lemma get_record (v : value) (k : string) :
  is_record v -> get v k = Ok (field v k).
Proof.
  intros H. unfold field. destruct v; simpl in H; try contradiction.
  - reflexivity.
  - simpl. destruct (String.eqb k "length"); reflexivity.
Qed.

Lemma record_typeof (v : value) :
  is_record v -> jstype_eqb (typeof v) TObject = true.
Proof. destruct v; simpl; try contradiction; reflexivity. Qed.

Lemma record_check (v : value) :
  (negb (truthy v) || negb (jstype_eqb (typeof v) TObject)) = false
  <-> is_record v.
Proof.
  destruct v as [| |b|n|s| |]; simpl; try tauto;
    try (split; [discriminate | contradiction]).
  - destruct b; simpl; split; try discriminate; contradiction.
  - rewrite orb_true_r. split; [discriminate | contradiction].
  - rewrite orb_true_r. split; [discriminate | contradiction].
Qed.

Lemma name_check (v : value) :
  (negb (truthy (field v "name"))
   || negb (jstype_eqb (typeof (field v "name")) TString)) = false
  <-> has_name v.
Proof.
  unfold has_name.
  destruct (field v "name") as [| |b|n|s| |]; simpl;
    rewrite ?orb_true_r;
    try (split; [discriminate | intros (s' & H & _); discriminate]).
  rewrite orb_false_r, negb_involutive. split.
  - intros H. exists s. split; [reflexivity|].
    intros ->. discriminate.
  - intros (s' & H & Hne). injection H as <-.
    apply String.eqb_neq. assumption.
Qed.

Lemma colors_check (v : value) :
  colors_integral v ->
  (negb (is_number (field v "colors"))
   || Num.ltb (ToNumber ToNumber_other (field v "colors")) (Int 1)) = false
  <-> colors_ok v.
Proof.
  intros Hint. unfold colors_ok, colors_integral in *.
  destruct (field v "colors") as [| |b|n|s| |]; simpl;
    try (split; [discriminate | intros (z & H & _); discriminate]).
  destruct (Hint n eq_refl) as (z & ->). simpl. split.
  - intros H. exists z. split; [reflexivity|]. apply Z.ltb_ge in H. lia.
  - intros (z' & H & Hz). injection H as <-. apply Z.ltb_ge. lia.
Qed.

Lemma range_check (w hi : value) :
  out_of_range ToNumber_other w (Int 0) hi = false <-> inRange w hi.
Proof.
  unfold in_range.
  destruct w as [| |b|n|s| |]; simpl;
    try (split; [discriminate | intros (n' & H & _); discriminate]).
  split.
  - intros H. apply orb_false_elim in H as [H1 H2]. exists n. auto.
  - intros (n' & H & H1 & H2). injection H as <-. rewrite H1, H2.
    reflexivity.
Qed.

Lemma turn_check (w : value) : bad_turn w = false <-> turn_ok w.
Proof.
  unfold turn_ok.
  destruct w as [| |b|n|s| |]; simpl;
    try (split; [discriminate | intros (n' & H & _); discriminate]).
  split.
  - intros H. exists n. split; [reflexivity|].
    destruct (Num.eqb n (Int 0)); [auto|].
    destruct (Num.eqb n (Int 1)); [auto|discriminate].
  - intros (n' & H & [H1|H1]); injection H as <-; rewrite H1; simpl;
      auto using andb_false_r.
Qed.

Lemma not_false_true (b : bool) : b <> false -> b = true.
Proof. destruct b; congruence. Qed.

(** The callback on an entry that passes, and on one that fails. *)
Lemma validate_transition_ok (v t : value) (i : nat) :
  validate_transition ToNumber_other (field v "colors") (field v "states") i t
  = Ok tt <-> entryOk v t.
Proof.
  unfold validate_transition, entry_ok.
  destruct t as [| |b|n|s|fs|items]; simpl;
    try solve [split; [discriminate | intros [[] _]]].
  - fold (field (VObj fs) "newColor") (field (VObj fs) "turn")
         (field (VObj fs) "nextState").
    rewrite <- !range_check, <- turn_check.
    change (lookup_field "newColor" fs) with (field (VObj fs) "newColor").
    change (lookup_field "turn" fs) with (field (VObj fs) "turn").
    change (lookup_field "nextState" fs) with (field (VObj fs) "nextState").
    destruct (out_of_range _ (field (VObj fs) "newColor") _ _); simpl;
      [split; [discriminate | intros (_ & H & _); discriminate]|].
    destruct (bad_turn (field (VObj fs) "turn")); simpl;
      [split; [discriminate | intros (_ & _ & H & _); discriminate]|].
    destruct (out_of_range _ (field (VObj fs) "nextState") _ _); simpl;
      [split; [discriminate | intros (_ & _ & _ & H); discriminate]|].
    tauto.
  - split; [discriminate|]. intros (_ & (n & H & _) & _).
    unfold field in H. simpl in H. discriminate.
Qed.

Lemma validate_transition_rejects (v t : value) (i : nat) (e : error) :
  entryRejects v i t e ->
  validate_transition ToNumber_other (field v "colors") (field v "states") i t
  = Throw e.
Proof.
  intros H. unfold validate_transition.
  destruct H as [i t Hty | i t Hrec Hc | i t Hrec Hc Ht | i t Hrec Hc Ht Hs].
  - destruct t; simpl in *; try reflexivity; congruence.
  - rewrite <- range_check in Hc. apply not_false_true in Hc.
    rewrite (record_typeof t Hrec), !(get_record t _ Hrec).
    cbn [negb throw_if bind]. rewrite Hc. reflexivity.
  - rewrite <- range_check in Hc. rewrite <- turn_check in Ht.
    apply not_false_true in Ht.
    rewrite (record_typeof t Hrec), !(get_record t _ Hrec).
    cbn [negb throw_if bind]. rewrite Hc. cbn [throw_if bind].
    rewrite Ht. reflexivity.
  - rewrite <- range_check in Hc, Hs. rewrite <- turn_check in Ht.
    apply not_false_true in Hs.
    rewrite (record_typeof t Hrec), !(get_record t _ Hrec).
    cbn [negb throw_if bind]. rewrite Hc. cbn [throw_if bind].
    rewrite Ht. cbn [throw_if bind]. rewrite Hs. reflexivity.
Qed.

Lemma validate_transitions_ok (v : value) (ts : list value) (i : nat) :
  validate_transitions ToNumber_other (field v "colors") (field v "states") i ts
  = Ok tt <-> Forall (entryOk v) ts.
Proof.
  revert i. induction ts as [|t ts IH]; intros i; simpl.
  - split; auto.
  - destruct (validate_transition ToNumber_other (field v "colors")
                (field v "states") i t) as [[]|e] eqn:E; cbn [bind].
    + apply validate_transition_ok in E. rewrite IH. split.
      * intros H. constructor; assumption.
      * intros H. inversion H. assumption.
    + split; [discriminate|]. intros H. inversion H as [|? ? Ht _]; subst.
      apply (validate_transition_ok v t i) in Ht. congruence.
Qed.

Lemma validate_transitions_rejects (v : value) (before after : list value)
  (t : value) (e : error) (i : nat) :
  Forall (entryOk v) before ->
  entryRejects v (i + List.length before) t e ->
  validate_transitions ToNumber_other (field v "colors") (field v "states") i
    (before ++ t :: after) = Throw e.
Proof.
  revert i. induction before as [|b before IH]; intros i Hok Hrej; simpl.
  - simpl in Hrej. rewrite Nat.add_0_r in Hrej.
    rewrite (validate_transition_rejects v t i e Hrej). reflexivity.
  - inversion Hok as [|? ? Hb Hrest]; subst.
    apply (validate_transition_ok v b i) in Hb. rewrite Hb. cbn [bind].
    apply IH; [assumption|].
    simpl in Hrej. rewrite Nat.add_succ_r in Hrej. exact Hrej.
Qed.

(** The validator on an object or array, check after check. *)
Lemma validate_record (v : value) :
  is_record v ->
  validate v
  = (throw_if (negb (truthy (field v "name"))
               || negb (jstype_eqb (typeof (field v "name")) TString))
       MissingName ;;;
     throw_if (negb (is_number (field v "colors"))
               || Num.ltb (ToNumber ToNumber_other (field v "colors")) (Int 1))
       InvalidColorCount ;;;
     throw_if (negb (isArray (field v "transitions"))) MissingTransitions ;;;
     len <- get (field v "transitions") "length" ;;
     throw_if (negb (Num.eqb (ToNumber ToNumber_other len)
                       (expected_count ToNumber_other v)))
       (TransitionCountMismatch (expected_count ToNumber_other v)) ;;;
     match field v "transitions" with
     | VArr ts =>
         validate_transitions ToNumber_other (field v "colors")
           (field v "states") 0 ts
     | _ => Ok tt
     end).
Proof.
  intros Hrec. unfold validateAntConfig.
  rewrite (proj2 (record_check v) Hrec). cbn [throw_if bind].
  rewrite !(get_record v _ Hrec). reflexivity.
Qed.

Lemma validate_accepted (v : value) :
  colors_integral v -> validate v = Ok tt -> accepts ToNumber_other v.
Proof.
  intros Hint.
  destruct (negb (truthy v) || negb (jstype_eqb (typeof v) TObject)) eqn:E0.
  { unfold validateAntConfig. rewrite E0. discriminate. }
  apply record_check in E0. rewrite (validate_record v E0).
  destruct (negb (truthy (field v "name")) || _) eqn:EN;
    cbn [throw_if bind]; [discriminate|].
  destruct (negb (is_number (field v "colors")) || _) eqn:EC;
    cbn [throw_if bind]; [discriminate|].
  apply name_check in EN. apply (colors_check v Hint) in EC.
  destruct (field v "transitions") as [| |b|n|s|fs|ts] eqn:ET;
    cbn [isArray negb throw_if bind]; try discriminate.
  cbn [get String.eqb Ascii.eqb Bool.eqb bind ToNumber].
  destruct (Num.eqb _ _) eqn:EQ; cbn [negb throw_if bind]; [|discriminate].
  intros H. apply validate_transitions_ok in H.
  repeat split; try assumption. exists ts. auto.
Qed.

Lemma accepted_validate (v : value) :
  colors_integral v -> accepts ToNumber_other v -> validate v = Ok tt.
Proof.
  intros Hint (Hrec & Hname & Hcol & ts & ET & EQ & Hall).
  rewrite (validate_record v Hrec).
  rewrite (proj2 (name_check v) Hname). cbn [throw_if bind].
  rewrite (proj2 (colors_check v Hint) Hcol). cbn [throw_if bind].
  rewrite ET. cbn [isArray negb throw_if bind].
  cbn [get String.eqb Ascii.eqb Bool.eqb bind ToNumber].
  rewrite EQ. cbn [negb throw_if bind].
  apply validate_transitions_ok. assumption.
Qed.

Lemma rejected_validate (v : value) (e : error) :
  colors_integral v -> rejects ToNumber_other v e -> validate v = Throw e.
Proof.
  intros Hint H.
  destruct H as [Hrec | Hrec Hname | Hrec Hname Hcol | Hrec Hname Hcol Harr
                 | ts Hrec Hname Hcol ET EQ
                 | ts before after t e Hrec Hname Hcol ET EQ Hts Hbefore Hrej].
  - unfold validateAntConfig.
    rewrite (not_false_true _ (fun E => Hrec (proj1 (record_check v) E))).
    reflexivity.
  - rewrite (validate_record v Hrec).
    rewrite (not_false_true _ (fun E => Hname (proj1 (name_check v) E))).
    reflexivity.
  - rewrite (validate_record v Hrec).
    rewrite (proj2 (name_check v) Hname). cbn [throw_if bind].
    rewrite (not_false_true _
               (fun E => Hcol (proj1 (colors_check v Hint) E))).
    reflexivity.
  - rewrite (validate_record v Hrec).
    rewrite (proj2 (name_check v) Hname). cbn [throw_if bind].
    rewrite (proj2 (colors_check v Hint) Hcol). cbn [throw_if bind].
    rewrite Harr. reflexivity.
  - rewrite (validate_record v Hrec).
    rewrite (proj2 (name_check v) Hname). cbn [throw_if bind].
    rewrite (proj2 (colors_check v Hint) Hcol). cbn [throw_if bind].
    rewrite ET. cbn [isArray negb throw_if bind].
    cbn [get String.eqb Ascii.eqb Bool.eqb bind ToNumber].
    rewrite EQ. reflexivity.
  - rewrite (validate_record v Hrec).
    rewrite (proj2 (name_check v) Hname). cbn [throw_if bind].
    rewrite (proj2 (colors_check v Hint) Hcol). cbn [throw_if bind].
    rewrite ET. cbn [isArray negb throw_if bind].
    cbn [get String.eqb Ascii.eqb Bool.eqb bind ToNumber].
    rewrite EQ. cbn [negb throw_if bind]. subst ts.
    apply validate_transitions_rejects; assumption.
Qed.

End ValidatorFacts.

(** C3: a candidate whose first transition repaints with colour one half
    passes [validateAntConfig], and so does one whose first transition
    repaints with NaN: the check of [newColor] is two comparisons, which a
    fraction between the bounds passes and which are both false of NaN,
    and the validator tests nowhere that a number is an integer. *)
Theorem non_integer_newColor_accepted :
  forall ToNumber_other : value -> number,
    (validateAntConfig ToNumber_other (config_value Examples.half_painted)
     = Ok tt
     /\ exists t : transition,
          nth_error (transitions Examples.half_painted) 0 = Some t
          /\ Num.is_int (newColor t) = false)
    /\ (validateAntConfig ToNumber_other (config_value Examples.nan_painted)
        = Ok tt
        /\ exists t : transition,
             nth_error (transitions Examples.nan_painted) 0 = Some t
             /\ newColor t = NaN).
Proof.
  intros ToNumber_other. split; (split; [vm_compute; reflexivity|]);
    eexists; split; reflexivity.
Qed.

(** The checks of [validateAntConfig] and their order.  For a candidate
    whose [colors], when a number, is an integer, and whose [states]
    converts to NaN or to an integer, both of at most 2^26 (so that the
    product [states * (colors + 1)] is exact), [validateAntConfig] returns
    exactly when the candidate is an object with a non-empty string
    [name], a [colors] of at least 1, an array [transitions] of length
    [states * (colors + 1)], and entries that are objects with a number
    [newColor] that is not below 0 and not at or above [colors], a [turn]
    that is 0 or 1, and a number [nextState] that is not below 0 and not
    at or above [states]; the two range checks compare only, so that a
    fraction between the bounds passes them, and NaN too.  A candidate it
    does not accept makes it throw; and when a check is the first to
    fail, in the order of the source, it throws the error of that check,
    the count error carrying [states * (colors + 1)]. *)
Theorem validator_first_failing_check :
  forall (ToNumber_other : value -> number) (v : value),
    colors_integral v -> count_exact ToNumber_other v ->
    (validateAntConfig ToNumber_other v = Ok tt <-> accepts ToNumber_other v)
    /\ (~ accepts ToNumber_other v ->
        exists e : error, validateAntConfig ToNumber_other v = Throw e)
    /\ (forall e : error,
          rejects ToNumber_other v e ->
          validateAntConfig ToNumber_other v = Throw e).
Proof.
  intros tn v Hint _. split; [|split].
  - split.
    + apply validate_accepted; assumption.
    + apply accepted_validate; assumption.
  - intros Hno.
    destruct (validateAntConfig tn v) as [[]|e] eqn:E.
    + exfalso. apply Hno. apply validate_accepted; assumption.
    + exists e. reflexivity.
  - intros e. apply rejected_validate; assumption.
Qed.

Lemma validator_first_failing_check_witness :
  validateAntConfig Examples.no_conversion (config_value presetAnts.classic)
  = Ok tt
  /\ validateAntConfig Examples.no_conversion
       (VObj [("name", VStr "b"); ("states", VNum (Int 1));
              ("colors", VNum (Int 2)); ("transitions", VArr [])]%string)
     = Throw (TransitionCountMismatch (Int 3)).
Proof.
  split.
  - apply (validator_first_failing_check Examples.no_conversion
             (config_value presetAnts.classic)).
    + intros n H. injection H as <-. exists 2. reflexivity.
    + split; [vm_compute; discriminate|].
      intros c H. injection H as <-. reflexivity.
    + split; [exact I|].
      split; [eexists; split; [reflexivity | discriminate]|].
      split; [exists 2; split; [reflexivity | lia]|].
      eexists. split; [reflexivity|]. split; [reflexivity|].
      repeat constructor;
        try (eexists; repeat split; reflexivity);
        try (eexists; split; [reflexivity | left; reflexivity]);
        try (eexists; split; [reflexivity | right; reflexivity]).
  - apply (validator_first_failing_check Examples.no_conversion
             (VObj [("name", VStr "b"); ("states", VNum (Int 1));
                    ("colors", VNum (Int 2)); ("transitions", VArr [])]%string)).
    + intros n H. injection H as <-. exists 2. reflexivity.
    + split; [vm_compute; discriminate|].
      intros c H. injection H as <-. reflexivity.
    + refine (rejects_count Examples.no_conversion
                (VObj [("name", VStr "b"); ("states", VNum (Int 1));
                       ("colors", VNum (Int 2));
                       ("transitions", VArr [])]%string)
                [] I _ _ eq_refl eq_refl).
      * eexists; split; [reflexivity | discriminate].
      * exists 2; split; [reflexivity | lia].
Defined.

(** ** Serialising and parsing back *)

(** C7: the configuration whose first transition repaints with NaN
    validates, NaN passing both comparisons of the range check, and
    [serializeAntConfig], which validates it again, emits its text; in
    that text the NaN has become [null], and [parseAntConfig] refuses it
    with the error of the very check the NaN passed.  This holds whatever
    the runtime's JSON functions are, as long as they compose to the JSON
    image of a value. *)
Theorem nan_painted_not_parsed_back :
  forall (tn : value -> number) (text : Type)
         (JSON_stringify : value -> text)
         (JSON_parse : text -> result value),
    json_law JSON_stringify JSON_parse ->
    validateAntConfig tn (config_value Examples.nan_painted) = Ok tt
    /\ exists txt : text,
         serializeAntConfig tn text JSON_stringify
           (config_value Examples.nan_painted) = Ok txt
         /\ parseAntConfig tn text JSON_parse txt
            = Throw (NewColorOutOfRange 0).
Proof.
  intros tn text JSON_stringify JSON_parse Hlaw.
  assert (Hv : validateAntConfig tn (config_value Examples.nan_painted)
               = Ok tt) by (vm_compute; reflexivity).
  split; [exact Hv|].
  exists (JSON_stringify (config_value Examples.nan_painted)). split.
  - unfold serializeAntConfig. rewrite Hv. reflexivity.
  - unfold parseAntConfig. rewrite Hlaw. cbn [bind].
    vm_compute. reflexivity.
Qed.

Lemma nan_painted_not_parsed_back_witness :
  validateAntConfig Examples.no_conversion
    (config_value Examples.nan_painted) = Ok tt
  /\ exists txt : value,
       serializeAntConfig Examples.no_conversion value json_image
         (config_value Examples.nan_painted) = Ok txt
       /\ parseAntConfig Examples.no_conversion value (fun v => Ok v) txt
          = Throw (NewColorOutOfRange 0).
Proof.
  apply (nan_painted_not_parsed_back Examples.no_conversion value json_image
           (fun v => Ok v)).
  intros v. reflexivity.
Defined.

(** ** The lookup under a configuration with whole counts *)

Lemma field_config_value (c : AntConfig) :
  field (config_value c) "colors" = VNum (colors c)
  /\ field (config_value c) "states" = states c
  /\ field (config_value c) "transitions"
     = VArr (map transition_value (transitions c)).
Proof. repeat split. Qed.

(** For a validated configuration whose [states] and [colors] are
    integers, the index [S * colors + C] of a state [S] and a colour [C]
    within their ranges holds a transition, which is the one [move]
    takes: neither the second index nor the stall is reached. *)
Lemma primary_lookup_defined (tn : value -> number) (c : AntConfig)
  (sc cc S C : Z) (ant : Ant.t) :
  validateAntConfig tn (config_value c) = Ok tt ->
  states c = VNum (Int sc) -> colors c = Int cc ->
  0 <= S < sc -> 0 <= C < cc ->
  Ant.config ant = c -> Ant.state ant = Int S ->
  exists t : transition,
    Ant.transition_at (transitions c)
      (Num.add (Num.mul (Int S) (colors c)) (Int C)) = Some t
    /\ Ant.resolve ant (Some (Int C)) = Some t.
Proof.
  intros Hv Hs Hc HS HC Hcfg Hst.
  destruct (field_config_value c) as (Fc & Fs & Ft).
  apply validate_accepted in Hv.
  2:{ intros n Hn. rewrite Fc, Hc in Hn. injection Hn as <-. eauto. }
  destruct Hv as (_ & _ & _ & ts & Hts & Hlen & _).
  rewrite Ft in Hts. injection Hts as <-.
  unfold expected_count in Hlen. rewrite Fc, Fs, Hs, Hc in Hlen.
  cbn [ToNumber Num.add Num.mul Num.eqb] in Hlen.
  apply Z.eqb_eq in Hlen. rewrite length_map in Hlen.
  assert (Hidx : 0 <= S * cc + C < Z.of_nat (List.length (transitions c)))
    by nia.
  assert (Hsome : exists t, nth_error (transitions c) (Z.to_nat (S * cc + C))
                            = Some t).
  { destruct (nth_error (transitions c) (Z.to_nat (S * cc + C))) eqn:E;
      [eauto|]. apply nth_error_None in E. lia. }
  destruct Hsome as (t & Ht). exists t.
  assert (Hat : Ant.transition_at (transitions c)
                  (Num.add (Num.mul (Int S) (colors c)) (Int C)) = Some t).
  { rewrite Hc. cbn [Num.mul Num.add]. unfold Ant.transition_at.
    rewrite as_index_Int by lia. exact Ht. }
  split; [exact Hat|].
  unfold Ant.resolve. rewrite Hcfg, Hst. cbn [Ant.cell_number].
  rewrite Hat. reflexivity.
Qed.

(** ** One step on a placed simulation *)

Lemma move_stands (ant : Ant.t) (g : Grid) (rows cols : Z) :
  0 < rows -> 0 < cols -> (Z.to_nat rows <= List.length g)%nat ->
  stands rows ant ->
  exists (g' : Grid) (ant' : Ant.t),
    Ant.move ant g (Int rows) (Int cols) = Ok (g', ant')
    /\ List.length g' = List.length g
    /\ stands rows ant'
    /\ forall y2 x2 : Z,
         (Int x2, Int y2) <> (Ant.x ant, Ant.y ant) ->
         grid_get g' (Int y2) (Int x2) = grid_get g (Int y2) (Int x2).
Proof.
  intros Hr Hc Hlen (x & y & Hx & Hy & Hx0 & Hy0).
  assert (Hrow : exists r, nth_error g (Z.to_nat y) = Some r).
  { destruct (nth_error g (Z.to_nat y)) eqn:E; [eauto|].
    apply nth_error_None in E. lia. }
  destruct Hrow as (r & Hrow).
  assert (Hget : grid_get g (Int y) (Int x) = Ok (row_get r (Int x))).
  { apply grid_get_Int. exists r. repeat split; auto; lia. }
  unfold Ant.move. rewrite Hx, Hy, Hget. cbn [bind].
  destruct (Ant.resolve ant (row_get r (Int x))) as [t|].
  - destruct (grid_set_spec g y x _ (Some (newColor t)) Hx0 Hget)
      as (g' & Hset & Hlen' & _ & Hother).
    rewrite Hset. cbn [bind].
    rewrite advance_mod by lia.
    set (d' := Ant.rotate (Ant.direction ant) (turn t)).
    assert (Bx : forall a, 0 <= a mod cols < cols)
      by (intros a; apply Z.mod_pos_bound; lia).
    assert (By : forall a, 0 <= a mod rows < rows)
      by (intros a; apply Z.mod_pos_bound; lia).
    destruct d' as [|[[|[]|]|[|[]|]|]|]; eexists; eexists;
      (split; [reflexivity|]); (split; [exact Hlen'|]);
      (split; [eexists; eexists; cbn [Ant.x Ant.y];
               repeat split; try reflexivity;
               try apply Bx; try apply By; lia|]);
      intros y2 x2 Hne; apply Hother; congruence.
  - exists g, ant. repeat split; auto.
    exists x, y. repeat split; auto; lia.
Qed.

Lemma move_all_stands (ants : list Ant.t) (g : Grid) (rows cols : Z) :
  0 < rows -> 0 < cols -> (Z.to_nat rows <= List.length g)%nat ->
  Forall (stands rows) ants ->
  exists (g' : Grid) (ants' : list Ant.t),
    AntSim.move_all g (Int rows) (Int cols) ants = Returned (g', ants')
    /\ List.length g' = List.length g
    /\ List.length ants' = List.length ants
    /\ Forall (stands rows) ants'.
Proof.
  intros Hr Hc. revert g. induction ants as [|ant rest IH]; intros g Hlen Hall.
  - exists g, []. repeat split; auto.
  - inversion Hall as [|? ? Hant Hrest]; subst.
    destruct (move_stands ant g rows cols Hr Hc Hlen Hant)
      as (g1 & ant' & Hmove & Hlen1 & Hant' & _).
    destruct (IH g1 ltac:(lia) Hrest) as (g2 & rest' & Hall' & Hlen2 & Hn & Hst).
    exists g2, (ant' :: rest'). simpl. rewrite Hmove, Hall'.
    repeat split; simpl; try lia. constructor; assumption.
Qed.

(** On a placed simulation [step] returns, and the simulation is placed
    again, with as many automatons. *)
Lemma step_placed (this : AntSim.t) :
  placed this ->
  exists this' : AntSim.t,
    AntSim.step this = Returned this'
    /\ placed this'
    /\ List.length (AntSim.ants this') = List.length (AntSim.ants this)
    /\ AntSim.rows this' = AntSim.rows this
    /\ AntSim.cols this' = AntSim.cols this.
Proof.
  intros (Hr & Hc & Hlen & Hall).
  destruct (move_all_stands _ _ _ _ Hr Hc Hlen Hall)
    as (g' & ants' & Hmove & Hlen' & Hn & Hall').
  exists (AntSim.with_grid_ants this (g', ants')).
  unfold AntSim.step. rewrite Hmove.
  repeat split; simpl; try assumption. lia.
Qed.

Lemma move_all_app (l1 l2 l1' l2' : list Ant.t) (g g1 g2 : Grid)
  (rows cols : number) :
  AntSim.move_all g rows cols l1 = Returned (g1, l1') ->
  AntSim.move_all g1 rows cols l2 = Returned (g2, l2') ->
  AntSim.move_all g rows cols (l1 ++ l2) = Returned (g2, l1' ++ l2').
Proof.
  revert g l1'. induction l1 as [|a l1 IH]; intros g l1' H1 H2; simpl in *.
  - injection H1 as <- <-. exact H2.
  - destruct (Ant.move a g rows cols) as [[ga a']|e]; [|discriminate].
    destruct (AntSim.move_all ga rows cols l1) as [[gb lb]|e [gb lb]] eqn:E;
      [|discriminate].
    injection H1 as <- <-.
    rewrite (IH ga lb E H2). reflexivity.
Qed.

Lemma move_all_length (l l' : list Ant.t) (g g' : Grid) (rows cols : number) :
  AntSim.move_all g rows cols l = Returned (g', l') ->
  List.length l' = List.length l.
Proof.
  revert g l'. induction l as [|a l IH]; intros g l' H; simpl in *.
  - injection H as <- <-. reflexivity.
  - destruct (Ant.move a g rows cols) as [[ga a']|e]; [|discriminate].
    destruct (AntSim.move_all ga rows cols l) as [[gb lb]|e [gb lb]] eqn:E;
      [|discriminate].
    injection H as <- <-. simpl. f_equal. eapply IH. exact E.
Qed.

(** Automatons that stand elsewhere leave the cell [(x, y)] as it is. *)
Lemma move_all_keeps_cell (mid : list Ant.t) (g : Grid) (rows cols x y : Z) :
  0 < rows -> 0 < cols -> (Z.to_nat rows <= List.length g)%nat ->
  Forall (stands rows) mid ->
  Forall (fun m => (Ant.x m, Ant.y m) <> (Int x, Int y)) mid ->
  exists (g' : Grid) (mid' : list Ant.t),
    AntSim.move_all g (Int rows) (Int cols) mid = Returned (g', mid')
    /\ List.length g' = List.length g
    /\ grid_get g' (Int y) (Int x) = grid_get g (Int y) (Int x).
Proof.
  intros Hr Hc. revert g.
  induction mid as [|m mid IH]; intros g Hlen Hst Hne.
  - exists g, []. auto.
  - inversion Hst as [|? ? Hm Hmid]; subst.
    inversion Hne as [|? ? Hm' Hmid']; subst.
    destruct (move_stands m g rows cols Hr Hc Hlen Hm)
      as (g1 & m1 & Hmove & Hlen1 & _ & Hother).
    destruct (IH g1 ltac:(lia) Hmid Hmid') as (g2 & mid' & Hall & Hlen2 & Hcell).
    exists g2, (m1 :: mid'). simpl. rewrite Hmove, Hall.
    repeat split; [lia|]. rewrite Hcell. apply Hother. congruence.
Qed.

(** On a placed simulation, [step] moves the automatons one after the
    other in list order: if [A] repaints the cell it stands on, and [B],
    later in the list, stands on the same cell, no automaton between them
    standing there, then the grid [B] is moved on holds [A]'s new colour
    at that cell, and the automaton at [B]'s index after the step is [B]
    moved on that grid. *)
Lemma step_sequential (this : AntSim.t) (pre mid post : list Ant.t)
  (A B : Ant.t) (x y : Z) (cA : cell) (tA : transition) :
  placed this ->
  AntSim.ants this = pre ++ A :: mid ++ B :: post ->
  Ant.x A = Int x -> Ant.y A = Int y -> Ant.x B = Int x -> Ant.y B = Int y ->
  Forall (fun m => (Ant.x m, Ant.y m) <> (Int x, Int y)) mid ->
  grid_get (grid_before this (List.length pre)) (Int y) (Int x) = Ok cA ->
  Ant.resolve A cA = Some tA ->
  let j := (List.length pre + 1 + List.length mid)%nat in
  exists (this' : AntSim.t) (gB' : Grid) (B' : Ant.t),
    AntSim.step this = Returned this'
    /\ grid_get (grid_before this j) (Int y) (Int x)
       = Ok (Some (newColor tA))
    /\ Ant.move B (grid_before this j) (Int (AntSim.rows this))
         (Int (AntSim.cols this)) = Ok (gB', B')
    /\ nth_error (AntSim.ants this') j = Some B'.
Proof.
  intros (Hr & Hc & Hlen & Hall) Hants HxA HyA HxB HyB Hmid Hget Hres j.
  rewrite Hants in Hall.
  apply Forall_app in Hall as (Hpre & Hall).
  inversion Hall as [|? ? HA Hall']; subst.
  apply Forall_app in Hall' as (Hmids & Hall').
  inversion Hall' as [|? ? HB Hpost]; subst.
  set (rows := AntSim.rows this) in *. set (cols := AntSim.cols this) in *.
  (* the automatons before A *)
  destruct (move_all_stands pre _ rows cols Hr Hc Hlen Hpre)
    as (g1 & pre' & Mpre & L1 & Npre & _).
  assert (G1 : grid_before this (List.length pre) = g1).
  { unfold grid_before. fold rows cols. rewrite Hants.
    rewrite firstn_app, firstn_all, Nat.sub_diag. simpl.
    rewrite app_nil_r, Mpre. reflexivity. }
  rewrite G1 in Hget.
  (* A *)
  assert (Hx0 : 0 <= x).
  { destruct HA as (x0 & y0 & E1 & _ & H0 & _). congruence. }
  destruct (grid_set_spec g1 y x cA (Some (newColor tA)) Hx0 Hget)
    as (g2 & Hset & L2 & Hread & _).
  destruct (Ant.advance (Ant.rotate (Ant.direction A) (turn tA))
              (Int rows) (Int cols) (Int x, Int y)) as [xA' yA'] eqn:EA.
  assert (MA : Ant.move A g1 (Int rows) (Int cols)
               = Ok (g2, Ant.mk xA' yA'
                           (Ant.rotate (Ant.direction A) (turn tA))
                           (nextState tA) (Ant.config A))).
  { unfold Ant.move. rewrite HxA, HyA, Hget. cbn [bind].
    rewrite Hres, Hset. cbn [bind]. rewrite EA. reflexivity. }
  (* the automatons between A and B *)
  destruct (move_all_keeps_cell mid g2 rows cols x y Hr Hc ltac:(lia)
              Hmids Hmid) as (g3 & mid' & Mmid & L3 & Hcell).
  assert (Mj : AntSim.move_all (AntSim.grid this) (Int rows) (Int cols)
                 (pre ++ A :: mid)
               = Returned (g3, pre' ++ Ant.mk xA' yA'
                                 (Ant.rotate (Ant.direction A) (turn tA))
                                 (nextState tA) (Ant.config A) :: mid')).
  { eapply move_all_app; [exact Mpre|]. simpl. rewrite MA, Mmid.
    reflexivity. }
  assert (G3 : grid_before this j = g3).
  { unfold grid_before. fold rows cols. rewrite Hants.
    replace (pre ++ A :: mid ++ B :: post)
      with ((pre ++ A :: mid) ++ B :: post)
      by (rewrite <- app_assoc; reflexivity).
    replace j with (List.length (pre ++ A :: mid) + 0)%nat
      by (rewrite length_app; simpl; lia).
    rewrite firstn_app_2. simpl. rewrite app_nil_r, Mj. reflexivity. }
  (* B and the automatons after it *)
  destruct (move_stands B g3 rows cols Hr Hc ltac:(lia) HB)
    as (g4 & B' & MB & L4 & _ & _).
  destruct (move_all_stands post g4 rows cols Hr Hc ltac:(lia) Hpost)
    as (g5 & post' & Mpost & _ & _ & _).
  assert (Mall : AntSim.move_all (AntSim.grid this) (Int rows) (Int cols)
                   ((pre ++ A :: mid) ++ B :: post)
                 = Returned (g5, (pre' ++ Ant.mk xA' yA'
                                     (Ant.rotate (Ant.direction A) (turn tA))
                                     (nextState tA) (Ant.config A) :: mid')
                                 ++ B' :: post')).
  { eapply move_all_app; [exact Mj|]. simpl. rewrite MB, Mpost.
    reflexivity. }
  eexists. exists g4, B'. repeat split.
  - unfold AntSim.step. fold rows cols. rewrite Hants.
    replace (pre ++ A :: mid ++ B :: post)
      with ((pre ++ A :: mid) ++ B :: post)
      by (rewrite <- app_assoc; reflexivity).
    rewrite Mall. reflexivity.
  - rewrite G3, Hcell. exact Hread.
  - rewrite G3. exact MB.
  - cbn [AntSim.with_grid_ants AntSim.ants snd].
    rewrite nth_error_app2.
    + replace (j - _)%nat with O; [reflexivity|].
      rewrite length_app. simpl.
      rewrite (move_all_length _ _ _ _ _ _ Mmid). lia.
    + rewrite length_app. simpl.
      rewrite (move_all_length _ _ _ _ _ _ Mmid). lia.
Qed.

(** ** Arithmetic of the accumulator *)

Lemma to_Q_of_Q (q : Q) :
  exists p : Q, Num.to_Q (Num.of_Q q) = Some p /\ p == q.
Proof.
  unfold Num.of_Q. destruct (Z.pos (Qden (Qred q)) =? 1) eqn:E.
  - exists (inject_Z (Qnum (Qred q))). split; [reflexivity|].
    rewrite <- (Qred_correct q) at 2.
    destruct (Qred q) as [n d]. cbn [Qnum Qden] in *.
    apply Z.eqb_eq in E. injection E as ->. reflexivity.
  - exists (Qred q). split; [reflexivity | apply Qred_correct].
Qed.

Lemma to_Q_add (a b : number) (p q : Q) :
  Num.to_Q a = Some p -> Num.to_Q b = Some q ->
  exists r : Q, Num.to_Q (Num.add a b) = Some r /\ (r == p + q)%Q.
Proof.
  intros Ha Hb.
  destruct a as [x|x|], b as [y|y|]; simpl in Ha, Hb; try discriminate;
    injection Ha as <-; injection Hb as <-;
    try (unfold Num.add, Num.lift2; simpl; apply to_Q_of_Q).
  exists (inject_Z (x + y)). split; [reflexivity|].
  rewrite inject_Z_plus. reflexivity.
Qed.

Lemma to_Q_mul (a b : number) (p q : Q) :
  Num.to_Q a = Some p -> Num.to_Q b = Some q ->
  exists r : Q, Num.to_Q (Num.mul a b) = Some r /\ (r == p * q)%Q.
Proof.
  intros Ha Hb.
  destruct a as [x|x|], b as [y|y|]; simpl in Ha, Hb; try discriminate;
    injection Ha as <-; injection Hb as <-;
    try (unfold Num.mul, Num.lift2; simpl; apply to_Q_of_Q).
  exists (inject_Z (x * y)). split; [reflexivity|].
  rewrite inject_Z_mult. reflexivity.
Qed.

Lemma to_Q_div (a b : number) (p q : Q) :
  Num.to_Q a = Some p -> Num.to_Q b = Some q -> ~ q == 0 ->
  exists r : Q, Num.to_Q (Num.div a b) = Some r /\ (r == p / q)%Q.
Proof.
  intros Ha Hb Hq. unfold Num.div. rewrite Ha, Hb.
  destruct (Qeq_bool q 0) eqn:E.
  - apply Qeq_bool_iff in E. contradiction.
  - apply to_Q_of_Q.
Qed.

Lemma geb_to_Q (a b : number) (p q : Q) :
  Num.to_Q a = Some p -> Num.to_Q b = Some q ->
  (Num.geb a b = true <-> (q <= p)%Q).
Proof.
  intros Ha Hb.
  destruct a as [x|x|], b as [y|y|]; simpl in Ha, Hb; try discriminate;
    injection Ha as <-; injection Hb as <-;
    try (unfold Num.geb; simpl; apply Qle_bool_iff).
  simpl. rewrite Z.leb_le, Zle_Qle. tauto.
Qed.

Lemma ltb_to_Q (a b : number) (p q : Q) :
  Num.to_Q a = Some p -> Num.to_Q b = Some q ->
  (Num.ltb a b = true <-> (p < q)%Q).
Proof.
  intros Ha Hb.
  assert (Hneg : forall u v : Q, negb (Qle_bool v u) = true <-> (u < v)%Q).
  { intros u v. rewrite negb_true_iff. split.
    - intros H. apply Qnot_le_lt. intros Hle.
      apply Qle_bool_iff in Hle. congruence.
    - intros H. destruct (Qle_bool v u) eqn:E; [|reflexivity].
      apply Qle_bool_iff in E. exfalso. exact (Qlt_not_le _ _ H E). }
  destruct a as [x|x|], b as [y|y|]; simpl in Ha, Hb; try discriminate;
    injection Ha as <-; injection Hb as <-;
    try (unfold Num.ltb; simpl; apply Hneg).
  simpl. rewrite Z.ltb_lt, Zlt_Qlt. tauto.
Qed.

(** The integer part of a number that is not NaN, and what is left. *)
Lemma floor_and_rest (a : number) (p : Q) :
  Num.to_Q a = Some p ->
  Num.floor a = Int (Qfloor p)
  /\ Num.geb (Num.sub a (Int (Qfloor p))) (Int 0) = true
  /\ Num.ltb (Num.sub a (Int (Qfloor p))) (Int 1) = true.
Proof.
  intros Ha.
  assert (Hrest : exists r, Num.to_Q (Num.sub a (Int (Qfloor p))) = Some r
                            /\ (r == p - inject_Z (Qfloor p))%Q).
  { destruct a as [x|x|]; simpl in Ha; try discriminate; injection Ha as <-.
    - rewrite Qfloor_Z. simpl. exists (inject_Z (x - x)). split; [reflexivity|].
      rewrite Z.sub_diag. unfold Qminus. rewrite Qplus_opp_r. reflexivity.
    - unfold Num.sub, Num.lift2. simpl. apply to_Q_of_Q. }
  destruct Hrest as (r & Hr & Er).
  split; [|split].
  - destruct a as [x|x|]; simpl in Ha; try discriminate; injection Ha as <-.
    + rewrite Qfloor_Z. reflexivity.
    + reflexivity.
  - apply (geb_to_Q _ (Int 0) r 0 Hr eq_refl). rewrite Er.
    rewrite <- (Qplus_opp_r (inject_Z (Qfloor p))).
    apply Qplus_le_compat; [apply Qfloor_le | apply Qle_refl].
  - apply (ltb_to_Q _ (Int 1) r 1 Hr eq_refl). rewrite Er.
    pose proof (Qlt_floor p) as H. rewrite inject_Z_plus in H.
    apply (Qplus_lt_l _ _ (inject_Z (Qfloor p))).
    unfold Qminus. rewrite <- Qplus_assoc, (Qplus_comm (- _)), Qplus_opp_r.
    rewrite Qplus_0_r, Qplus_comm. exact H.
Qed.

(** ** The batching tick on a placed simulation *)

Lemma steps_placed (n : nat) (m : AntSim.t) :
  placed m ->
  exists m' : AntSim.t, steps n m = Returned m' /\ placed m'.
Proof.
  revert m. induction n as [|n IH]; intros m Hm.
  - exists m. auto.
  - destruct (step_placed m Hm) as (m1 & Hstep & Hm1 & _).
    destruct (IH m1 Hm1) as (m2 & Hsteps & Hm2).
    exists m2. simpl. rewrite Hstep. auto.
Qed.

(** While the simulation is placed and not paused, a tick adds
    [stepsPerSecond * 50 / 1000] to the accumulator, runs [step] as many
    times as the integer part of the sum, and keeps the rest, which lies
    in [0, 1); while paused it changes nothing; resuming from the pause
    and moving the slider set the accumulator to 0. *)
Lemma batch_tick_placed :
  (forall (s : session) (qa qr : Q),
      paused s = false -> placed (sim s) ->
      Num.to_Q (stepAccumulator s) = Some qa ->
      Num.to_Q (stepsPerSecond s) = Some qr ->
      (0 <= qa)%Q -> (0 <= qr)%Q ->
      exists (total : Q) (m : AntSim.t) (rest : number),
        (total == qa + qr * 50 / 1000)%Q
        /\ 0 <= Qfloor total
        /\ steps (Z.to_nat (Qfloor total)) (sim s) = Returned m
        /\ placed m
        /\ batch_tick s
           = Returned (mkSession m false (stepsPerSecond s) rest)
        /\ (exists r : Q,
              Num.to_Q rest = Some r
              /\ (r == total - inject_Z (Qfloor total))%Q)
        /\ Num.geb rest (Int 0) = true
        /\ Num.ltb rest (Int 1) = true)
  /\ (forall s : session, paused s = true -> batch_tick s = Returned s)
  /\ (forall s : session,
        paused s = true ->
        paused (pause_pressed s) = false
        /\ stepAccumulator (pause_pressed s) = Int 0)
  /\ (forall (sliderToSpeed : number -> number) (s : session) (v : number),
        stepsPerSecond (slider_input sliderToSpeed s v) = sliderToSpeed v
        /\ stepAccumulator (slider_input sliderToSpeed s v) = Int 0).
Proof.
  split; [|split; [|split]].
  - intros s qa qr Hp Hsim Ha Hr Hqa Hqr.
    destruct (to_Q_mul _ (Int 50) qr 50 Hr eq_refl) as (q1 & H1 & E1).
    destruct (to_Q_div _ (Int 1000) q1 1000 H1 eq_refl) as (q2 & H2 & E2);
      [discriminate|].
    destruct (to_Q_add _ _ qa q2 Ha H2) as (total & Ht & Et).
    destruct (floor_and_rest _ total Ht) as (Hfloor & Hge & Hlt).
    assert (Htot : (total == qa + qr * 50 / 1000)%Q)
      by (rewrite Et, E2, E1; reflexivity).
    assert (Hnonneg : (0 <= total)%Q).
    { rewrite Htot.
      rewrite <- (Qplus_0_r 0). apply Qplus_le_compat; [assumption|].
      apply Qle_shift_div_l; [reflexivity|]. rewrite Qmult_0_l.
      apply Qmult_le_0_compat; [assumption | discriminate]. }
    assert (Hfl : 0 <= Qfloor total).
    { change 0 with (Qfloor 0). apply Qfloor_resp_le. assumption. }
    destruct (steps_placed (Z.to_nat (Qfloor total)) (sim s) Hsim)
      as (m & Hsteps & Hm).
    exists total, m, (Num.sub (Num.add (stepAccumulator s)
                        (Num.div (Num.mul (stepsPerSecond s) batchInterval)
                           (Int 1000))) (Int (Qfloor total))).
    split; [exact Htot|]. split; [exact Hfl|]. split; [exact Hsteps|].
    split; [exact Hm|]. split.
    { unfold batch_tick. rewrite Hp. unfold batchInterval.
      rewrite Hfloor. cbn [rounds]. rewrite Hsteps. reflexivity. }
    split; [|split; assumption].
    unfold batchInterval.
    destruct (Num.add (stepAccumulator s)
                (Num.div (Num.mul (stepsPerSecond s) (Int 50)) (Int 1000)))
      as [x|x|]; simpl in Ht; try discriminate; injection Ht as <-.
    + rewrite Qfloor_Z. simpl. exists (inject_Z (x - x)).
      split; [reflexivity|].
      rewrite Z.sub_diag. unfold Qminus. rewrite Qplus_opp_r. reflexivity.
    + unfold Num.sub, Num.lift2. simpl. apply to_Q_of_Q.
  - intros s Hp. unfold batch_tick. rewrite Hp. reflexivity.
  - intros s Hp. unfold pause_pressed. rewrite Hp. simpl. auto.
  - intros f s v. split; reflexivity.
Qed.

(** ** Where placed simulations come from *)

(** A simulation built for a window of at least one cell is placed. *)
Lemma constructor_placed (cfg : AntConfig) (width height gridSize : Z) :
  0 < gridSize -> gridSize <= width -> gridSize <= height ->
  exists this : AntSim.t,
    AntSim.constructor cfg width height gridSize = Ok this
    /\ placed this
    /\ AntSim.ants this = []
    /\ AntSim.rows this = height / gridSize
    /\ AntSim.cols this = width / gridSize.
Proof.
  intros Hg Hw Hh.
  assert (Hr : 0 < height / gridSize) by (apply Z.div_str_pos; lia).
  assert (Hc : 0 < width / gridSize) by (apply Z.div_str_pos; lia).
  unfold AntSim.constructor, AntSim.setConfig, new_grid.
  cbn [AntSim.height AntSim.width AntSim.gridSize].
  destruct (height / gridSize <=? 0) eqn:E1; [apply Z.leb_le in E1; lia|].
  destruct (width / gridSize <? 0) eqn:E2; [apply Z.ltb_lt in E2; lia|].
  eexists. split; [reflexivity|].
  unfold placed. cbn [AntSim.rows AntSim.cols AntSim.grid AntSim.ants].
  rewrite repeat_length. repeat split; auto.
Qed.

(** An automaton added on a row of the grid keeps the simulation placed. *)
Lemma addAnt_placed (this : AntSim.t) (x y : Z) (cfg : option AntConfig) :
  placed this -> 0 <= x -> 0 <= y < AntSim.rows this ->
  placed (AntSim.addAnt this (Int x) (Int y) cfg).
Proof.
  intros (Hr & Hc & Hlen & Hall) Hx Hy.
  unfold placed, AntSim.addAnt.
  cbn [AntSim.rows AntSim.cols AntSim.grid AntSim.ants].
  repeat split; auto.
  apply Forall_app. split; [assumption|].
  constructor; [|constructor].
  exists x, y. cbn [Ant.constructor Ant.x Ant.y]. auto.
Qed.

(** ** Which configurations JSON text can hold *)

Lemma eqb_NaN_r (a : number) : Num.eqb a NaN = false.
Proof. destruct a; reflexivity. Qed.

Lemma mul_NaN_r (a : number) : Num.mul a NaN = NaN.
Proof. destruct a; reflexivity. Qed.

(** What an accepted candidate holds, whatever its [colors]. *)
Lemma validate_entries (tn : value -> number) (v : value) :
  validateAntConfig tn v = Ok tt ->
  is_record v
  /\ exists ts : list value,
       field v "transitions" = VArr ts
       /\ Num.eqb (Int (Z.of_nat (List.length ts))) (expected_count tn v) = true
       /\ Forall (entry_ok tn v) ts.
Proof.
  destruct (negb (truthy v) || negb (jstype_eqb (typeof v) TObject)) eqn:E0.
  { unfold validateAntConfig. rewrite E0. discriminate. }
  apply record_check in E0. rewrite (validate_record tn v E0).
  destruct (negb (truthy (field v "name")) || _);
    cbn [throw_if bind]; [discriminate|].
  destruct (negb (is_number (field v "colors")) || _);
    cbn [throw_if bind]; [discriminate|].
  destruct (field v "transitions") as [| |b|n|s|fs|ts] eqn:ET;
    cbn [isArray negb throw_if bind]; try discriminate.
  cbn [get String.eqb Ascii.eqb Bool.eqb bind ToNumber].
  destruct (Num.eqb _ _) eqn:EQ; cbn [negb throw_if bind]; [|discriminate].
  intros H. apply validate_transitions_ok in H.
  split; [assumption|]. exists ts. auto.
Qed.

Lemma transitions_representable (tn : value -> number) (v : value)
  (l : list transition) :
  Forall (fun t => newColor t <> NaN /\ nextState t <> NaN) l ->
  Forall (entry_ok tn v) (map transition_value l) ->
  map json_image (map transition_value l) = map transition_value l.
Proof.
  induction l as [|t l IH]; intros Hall Hok; [reflexivity|].
  inversion Hall as [|? ? (Hn & Hx) Hall']; subst.
  inversion Hok as [|? ? (_ & _ & (k & Hk & Hturn) & _) Hok']; subst.
  cbn [map]. rewrite (IH Hall' Hok'). f_equal.
  assert (Ht : turn t <> NaN).
  { unfold field in Hk. cbn in Hk. injection Hk as <-.
    intros E. rewrite E in Hturn. destruct Hturn; discriminate. }
  unfold transition_value.
  destruct (newColor t), (turn t), (nextState t);
    try contradiction; reflexivity.
Qed.

(** A validated configuration whose [newColor]s and [nextState]s are not
    NaN, and whose [states] JSON text can hold, is representable: its
    [colors] and its [turn]s cannot be NaN. *)
Lemma config_value_representable (tn : value -> number) (c : AntConfig) :
  validateAntConfig tn (config_value c) = Ok tt ->
  json_representable (states c) ->
  Forall (fun t => newColor t <> NaN /\ nextState t <> NaN) (transitions c) ->
  json_representable (config_value c).
Proof.
  intros Hv Hs Hall.
  destruct (field_config_value c) as (Fc & Fs & Ft).
  destruct (validate_entries tn _ Hv) as (_ & ts & Hts & Hlen & Hok).
  rewrite Ft in Hts. injection Hts as <-.
  assert (Hcol : colors c <> NaN).
  { intros E. unfold expected_count in Hlen. rewrite Fc, E in Hlen.
    cbn [ToNumber] in Hlen.
    replace (Num.add NaN (Int 1)) with NaN in Hlen by reflexivity.
    rewrite mul_NaN_r, eqb_NaN_r in Hlen. discriminate. }
  pose proof (transitions_representable tn _ _ Hall Hok) as Hentries.
  unfold json_representable, config_value in *.
  cbn [json_image]. rewrite Hentries.
  destruct (states c) eqn:Es; try discriminate;
    rewrite ?Hs; destruct (colors c); try contradiction; reflexivity.
Qed.

(** * Further properties of the engine *)

(** ** What [step] never changes *)

Lemma move_keeps_config (ant ant' : Ant.t) (g g' : Grid) (rows cols : number) :
  Ant.move ant g rows cols = Ok (g', ant') ->
  Ant.config ant' = Ant.config ant.
Proof.
  unfold Ant.move, grid_get, grid_set, bind.
  destruct (grid_row g (Ant.y ant)) as [r|e]; [|discriminate].
  destruct (Ant.resolve ant (row_get r (Ant.x ant))) as [t|].
  - destruct (Num.as_index (Ant.y ant)); [|discriminate].
    destruct (Ant.advance _ rows cols _). intros H. injection H as _ <-.
    reflexivity.
  - intros H. injection H as _ <-. reflexivity.
Qed.

Lemma move_all_keeps_configs (ants : list Ant.t) (g : Grid)
  (rows cols : number) :
  map Ant.config (snd (state_of (AntSim.move_all g rows cols ants)))
  = map Ant.config ants.
Proof.
  revert g. induction ants as [|ant rest IH]; intros g; [reflexivity|].
  simpl. destruct (Ant.move ant g rows cols) as [[g1 ant1]|e] eqn:E.
  - specialize (IH g1).
    destruct (AntSim.move_all g1 rows cols rest) as [[g2 l2]|e [g2 l2]];
      simpl in *; rewrite IH, (move_keeps_config _ _ _ _ _ _ E); reflexivity.
  - reflexivity.
Qed.

(** Whether it returns or throws, [step] leaves the list of automatons with
    the same length and the same bound configurations, in the same order,
    and touches neither the sizes nor the current configuration. *)
Theorem step_keeps_automatons_and_sizes :
  forall this : AntSim.t,
    let this' := state_of (AntSim.step this) in
    map Ant.config (AntSim.ants this') = map Ant.config (AntSim.ants this)
    /\ List.length (AntSim.ants this') = List.length (AntSim.ants this)
    /\ AntSim.rows this' = AntSim.rows this
    /\ AntSim.cols this' = AntSim.cols this
    /\ AntSim.width this' = AntSim.width this
    /\ AntSim.height this' = AntSim.height this
    /\ AntSim.gridSize this' = AntSim.gridSize this
    /\ AntSim.config this' = AntSim.config this.
Proof.
  intros this this'.
  assert (Hc : map Ant.config (AntSim.ants this')
               = map Ant.config (AntSim.ants this)).
  { subst this'. unfold AntSim.step.
    pose proof (move_all_keeps_configs (AntSim.ants this) (AntSim.grid this)
                  (Int (AntSim.rows this)) (Int (AntSim.cols this))) as H.
    destruct (AntSim.move_all _ _ _ _) as [ga|e ga]; exact H. }
  split; [exact Hc|]. split.
  { rewrite <- (length_map Ant.config), Hc. apply length_map. }
  subst this'. unfold AntSim.step.
  destruct (AntSim.move_all _ _ _ _) as [ga|e ga]; repeat split.
Qed.

Lemma move_keeps_direction_range (ant ant' : Ant.t) (g g' : Grid)
  (rows cols : number) :
  0 <= Ant.direction ant < 4 ->
  Ant.move ant g rows cols = Ok (g', ant') ->
  0 <= Ant.direction ant' < 4.
Proof.
  intros Hd. unfold Ant.move, grid_get, grid_set, bind.
  destruct (grid_row g (Ant.y ant)) as [r|e]; [|discriminate].
  destruct (Ant.resolve ant (row_get r (Ant.x ant))) as [t|].
  - destruct (Num.as_index (Ant.y ant)); [|discriminate].
    destruct (Ant.advance _ rows cols _). intros H. injection H as _ <-.
    apply rotate_range. assumption.
  - intros H. injection H as _ <-. assumption.
Qed.

(** The facing of every automaton stays one of 0, 1, 2, 3 through [step],
    whether it returns or throws. *)
Theorem step_keeps_facing_in_range :
  forall this : AntSim.t,
    Forall (fun ant => 0 <= Ant.direction ant < 4) (AntSim.ants this) ->
    Forall (fun ant => 0 <= Ant.direction ant < 4)
      (AntSim.ants (state_of (AntSim.step this))).
Proof.
  intros this Hall.
  assert (H : forall ants g rows cols,
             Forall (fun ant => 0 <= Ant.direction ant < 4) ants ->
             Forall (fun ant => 0 <= Ant.direction ant < 4)
               (snd (state_of (AntSim.move_all g rows cols ants)))).
  { clear. induction ants as [|ant rest IH]; intros g rows cols Hall;
      [constructor|].
    inversion Hall as [|? ? Ha Hrest]; subst. simpl.
    destruct (Ant.move ant g rows cols) as [[g1 ant1]|e] eqn:E.
    - specialize (IH g1 rows cols Hrest).
      pose proof (move_keeps_direction_range _ _ _ _ _ _ Ha E) as H1.
      destruct (AntSim.move_all g1 rows cols rest) as [[g2 l2]|e [g2 l2]];
        simpl in *; constructor; assumption.
    - simpl. assumption. }
  unfold AntSim.step.
  specialize (H (AntSim.ants this) (AntSim.grid this)
                (Int (AntSim.rows this)) (Int (AntSim.cols this)) Hall).
  destruct (AntSim.move_all _ _ _ _) as [ga|e ga]; exact H.
Qed.

Lemma step_keeps_facing_in_range_witness :
  Forall (fun ant => 0 <= Ant.direction ant < 4)
    (AntSim.ants (state_of (AntSim.step Examples.centre_click))).
Proof.
  apply step_keeps_facing_in_range.
  repeat constructor; simpl; lia.
Defined.

(** ** Simulations that never throw *)

Lemma for_each_preserves {A S : Type} (f : S -> A -> outcome S)
  (P : S -> Prop) (l : list A) (s : S) :
  (forall s1 a, P s1 -> P (state_of (f s1 a))) ->
  P s -> P (state_of (for_each f l s)).
Proof.
  intros Hf. revert s. induction l as [|a l IH]; intros s Hs; [exact Hs|].
  simpl. pose proof (Hf s a Hs) as H1.
  destruct (f s a) as [s'|e s']; simpl in *; [apply IH|]; assumption.
Qed.

Lemma grid_set_length (g g' : Grid) (y x : number) (v : cell) :
  grid_set g y x v = Ok g' -> List.length g' = List.length g.
Proof.
  unfold grid_set, bind. destruct (grid_row g y); [|discriminate].
  destruct (Num.as_index y); [|discriminate].
  intros H. injection H as <-. apply length_replace.
Qed.

Lemma copy_region_length (oldGrid g : Grid) (nrows ncols : Z) :
  List.length (state_of (AntSim.copy_region oldGrid nrows ncols g))
  = List.length g.
Proof.
  unfold AntSim.copy_region.
  apply (for_each_preserves _ (fun g1 => List.length g1 = List.length g));
    [|reflexivity].
  intros g1 y H1.
  apply (for_each_preserves _ (fun g2 => List.length g2 = List.length g));
    [|exact H1].
  intros g2 x H2. unfold AntSim.copy_cell, attempt.
  destruct (bind _ _) as [g3|e] eqn:E; [|exact H2].
  unfold bind in E. destruct (grid_get oldGrid _ _); [|discriminate].
  simpl. rewrite (grid_set_length _ _ _ _ _ E). exact H2.
Qed.

Lemma new_grid_length (rows cols : Z) (g : Grid) :
  new_grid rows cols = Ok g -> List.length g = Z.to_nat rows.
Proof.
  unfold new_grid. destruct (rows <=? 0) eqn:E.
  - intros H. injection H as <-. apply Z.leb_le in E. simpl. lia.
  - destruct (cols <? 0); [discriminate|].
    intros H. injection H as <-. apply repeat_length.
Qed.

Lemma resize_placed (this : AntSim.t) (width height : Z) :
  0 < AntSim.gridSize this ->
  AntSim.gridSize this <= width -> AntSim.gridSize this <= height ->
  Forall (stands (AntSim.rows this)) (AntSim.ants this) ->
  (Z.to_nat (AntSim.rows this) <= List.length (AntSim.grid this))%nat ->
  exists this' : AntSim.t,
    AntSim.resize this width height = Returned this'
    /\ placed this'
    /\ AntSim.gridSize this' = AntSim.gridSize this.
Proof.
  intros Hg Hw Hh Hall Hlen.
  set (rows' := height / AntSim.gridSize this).
  set (cols' := width / AntSim.gridSize this).
  assert (Hr' : 0 < rows') by (apply Z.div_str_pos; lia).
  assert (Hc' : 0 < cols') by (apply Z.div_str_pos; lia).
  destruct (new_grid_returns rows' cols' ltac:(lia)) as (g0 & Hnew & Hzero).
  destruct (copy_region_spec (AntSim.grid this) g0 rows' cols'
              (Z.min (AntSim.rows this) rows') (Z.min (AntSim.cols this) cols'))
    as (g' & Hcopy & _); try lia; try assumption.
  pose proof (copy_region_length (AntSim.grid this) g0
                (Z.min (AntSim.rows this) rows')
                (Z.min (AntSim.cols this) cols')) as Hl.
  rewrite Hcopy in Hl. simpl in Hl.
  rewrite (new_grid_length _ _ _ Hnew) in Hl.
  eexists. split.
  { unfold AntSim.resize. fold rows' cols'. rewrite Hnew, Hcopy.
    reflexivity. }
  split; [|reflexivity].
  unfold placed. cbn [AntSim.rows AntSim.cols AntSim.grid AntSim.ants].
  repeat split; try assumption; try lia.
  apply Forall_forall. intros ant Hin. apply filter_In in Hin as [Hin Hb].
  rewrite Forall_forall in Hall.
  destruct (Hall ant Hin) as (x & y & Hx & Hy & Hx0 & Hy0).
  unfold AntSim.in_bounds in Hb. rewrite Hx, Hy in Hb.
  apply andb_prop in Hb as [_ Hb]. simpl in Hb. apply Z.ltb_lt in Hb.
  exists x, y. repeat split; auto; lia.
Qed.

Lemma setConfig_placed (this : AntSim.t) (cfg : AntConfig) :
  0 < AntSim.gridSize this ->
  AntSim.gridSize this <= AntSim.width this ->
  AntSim.gridSize this <= AntSim.height this ->
  exists this' : AntSim.t,
    AntSim.setConfig this cfg = Returned this'
    /\ placed this' /\ AntSim.ants this' = []
    /\ AntSim.config this' = cfg
    /\ AntSim.gridSize this' = AntSim.gridSize this
    /\ AntSim.width this' = AntSim.width this
    /\ AntSim.height this' = AntSim.height this
    /\ forall y x : Z,
         0 <= y < AntSim.rows this' -> 0 <= x < AntSim.cols this' ->
         grid_get (AntSim.grid this') (Int y) (Int x) = Ok (Some (Int 0)).
Proof.
  intros Hg Hw Hh.
  set (rows' := AntSim.height this / AntSim.gridSize this).
  set (cols' := AntSim.width this / AntSim.gridSize this).
  assert (Hr' : 0 < rows') by (apply Z.div_str_pos; lia).
  assert (Hc' : 0 < cols') by (apply Z.div_str_pos; lia).
  destruct (new_grid_returns rows' cols' ltac:(lia)) as (g0 & Hnew & Hzero).
  eexists. split.
  { unfold AntSim.setConfig. fold rows' cols'. rewrite Hnew. reflexivity. }
  unfold placed. cbn [AntSim.rows AntSim.cols AntSim.grid AntSim.ants
                        AntSim.config AntSim.gridSize AntSim.width
                        AntSim.height].
  rewrite (new_grid_length _ _ _ Hnew).
  repeat split; auto.
Qed.

(** A click on a control, or outside the canvas, changes nothing; a click
    inside adds one automaton, last in the list, in state 0 and facing up,
    bound to the configuration being edited, at the cell that holds the
    pixel; that cell is within the columns (rows) of the grid exactly when
    the pixel is left of (above) the last full cell's far edge. *)
Theorem click_adds_automaton_at_pixel :
  forall (on_control : bool) (width height mouseX mouseY : Z)
         (cfg : AntConfig) (sim : AntSim.t),
    0 < AntSim.gridSize sim ->
    let g := AntSim.gridSize sim in
    let sim' := mousePressed on_control width height mouseX mouseY cfg sim in
    (on_control = false -> 0 <= mouseX < width -> 0 <= mouseY < height ->
     exists (ant : Ant.t) (x y : Z),
       AntSim.ants sim' = AntSim.ants sim ++ [ant]
       /\ AntSim.grid sim' = AntSim.grid sim
       /\ Ant.x ant = Int x /\ Ant.y ant = Int y
       /\ g * x <= mouseX < g * (x + 1)
       /\ g * y <= mouseY < g * (y + 1)
       /\ Ant.state ant = Int 0 /\ Ant.direction ant = 0
       /\ Ant.config ant = cfg
       /\ (x < AntSim.cols sim <-> mouseX < AntSim.cols sim * g)
       /\ (y < AntSim.rows sim <-> mouseY < AntSim.rows sim * g))
    /\ (on_control = true \/ ~ (0 <= mouseX < width /\ 0 <= mouseY < height) ->
        sim' = sim).
Proof.
  intros on_control width height mouseX mouseY cfg sim Hg g sim'. split.
  - intros Hc Hx Hy. subst sim'. unfold mousePressed. rewrite Hc.
    replace ((0 <=? mouseX) && (mouseX <? width)
             && (0 <=? mouseY) && (mouseY <? height)) with true.
    2:{ symmetry. rewrite !andb_true_iff, !Z.leb_le, !Z.ltb_lt. lia. }
    fold g.
    exists (Ant.constructor (Int (mouseX / g)) (Int (mouseY / g)) cfg),
           (mouseX / g), (mouseY / g).
    pose proof (Z.mul_div_le mouseX g Hg).
    pose proof (Z.mul_succ_div_gt mouseX g Hg).
    pose proof (Z.mul_div_le mouseY g Hg).
    pose proof (Z.mul_succ_div_gt mouseY g Hg).
    repeat split; try reflexivity; try lia.
    + intros H3. nia.
    + intros H3. apply Z.div_lt_upper_bound; lia.
    + intros H3. nia.
    + intros H3. apply Z.div_lt_upper_bound; lia.
  - intros [Hc | Hout]; subst sim'; unfold mousePressed.
    + rewrite Hc. reflexivity.
    + destruct on_control; [reflexivity|].
      destruct ((0 <=? mouseX) && (mouseX <? width)
                && (0 <=? mouseY) && (mouseY <? height)) eqn:E;
        [|reflexivity].
      rewrite !andb_true_iff, !Z.leb_le, !Z.ltb_lt in E. exfalso. lia.
Qed.

Lemma click_adds_automaton_at_pixel_witness :
  exists (ant : Ant.t) (x y : Z),
    AntSim.ants (mousePressed false 30 35 15 32 presetAnts.classic
                   Examples.fresh) = [ant]
    /\ Ant.x ant = Int x /\ Ant.y ant = Int y
    /\ (y < 3 <-> 32 < 30).
Proof.
  destruct (click_adds_automaton_at_pixel false 30 35 15 32
              presetAnts.classic Examples.fresh) as [H _]; [simpl; lia|].
  destruct H as (ant & x & y & Ha & _ & Hx & Hy & _ & _ & _ & _ & _ & _ & Hr);
    try reflexivity; try lia.
  exists ant, x, y. repeat split; try assumption; apply Hr.
Defined.

Lemma mousePressed_placed (on_control : bool) (width height mouseX mouseY : Z)
  (cfg : AntConfig) (sim : AntSim.t) :
  0 < AntSim.gridSize sim -> placed sim ->
  mouseY < AntSim.rows sim * AntSim.gridSize sim ->
  placed (mousePressed on_control width height mouseX mouseY cfg sim).
Proof.
  intros Hg Hp Hy. unfold mousePressed.
  destruct on_control; [assumption|].
  destruct ((0 <=? mouseX) && (mouseX <? width)
            && (0 <=? mouseY) && (mouseY <? height)) eqn:E; [|assumption].
  rewrite !andb_true_iff, !Z.leb_le, !Z.ltb_lt in E.
  apply addAnt_placed; [assumption | apply Z.div_pos; lia |].
  split; [apply Z.div_pos; lia | apply Z.div_lt_upper_bound; lia].
Qed.

Lemma mousePressed_keeps_sizes (on_control : bool)
  (width height mouseX mouseY : Z) (cfg : AntConfig) (sim : AntSim.t) :
  let sim' := mousePressed on_control width height mouseX mouseY cfg sim in
  AntSim.gridSize sim' = AntSim.gridSize sim
  /\ AntSim.width sim' = AntSim.width sim
  /\ AntSim.height sim' = AntSim.height sim
  /\ AntSim.rows sim' = AntSim.rows sim.
Proof.
  unfold mousePressed. destruct on_control; [auto|].
  destruct (_ && _); auto.
Qed.

Lemma reachable_invariant (this : AntSim.t) :
  reachable this ->
  placed this /\ 0 < AntSim.gridSize this
  /\ AntSim.gridSize this <= AntSim.width this
  /\ AntSim.gridSize this <= AntSim.height this.
Proof.
  induction 1 as [cfg w h g this Hg Hw Hh Hnew
                 | this oc w h mx my cfg Hr IH Hy
                 | this this' Hr IH Hstep
                 | this this' cfg Hr IH Hset
                 | this this' w h Hr IH Hw Hh Hres].
  - destruct (constructor_placed cfg w h g Hg Hw Hh)
      as (this0 & Hc & Hp & _ & _ & _).
    rewrite Hnew in Hc. injection Hc as <-.
    split; [assumption|].
    unfold AntSim.constructor, AntSim.setConfig in Hnew.
    cbn [AntSim.height AntSim.width AntSim.gridSize] in Hnew.
    destruct (new_grid _ _); [|discriminate].
    injection Hnew as <-. simpl. auto.
  - destruct IH as (Hp & Hg & Hw & Hh).
    destruct (mousePressed_keeps_sizes oc w h mx my cfg this)
      as (E1 & E2 & E3 & _).
    rewrite E1, E2, E3. split; [|auto].
    apply mousePressed_placed; assumption.
  - destruct IH as (Hp & Hg & Hw & Hh).
    destruct (step_placed this Hp) as (s1 & Hs & Hp1 & _).
    rewrite Hstep in Hs. injection Hs as <-.
    split; [assumption|]. unfold AntSim.step in Hstep.
    destruct (AntSim.move_all _ _ _ _); [|discriminate].
    injection Hstep as <-. simpl. auto.
  - destruct IH as (Hp & Hg & Hw & Hh).
    destruct (setConfig_placed this cfg Hg Hw Hh)
      as (s1 & Hs & Hp1 & _ & _ & E1 & E2 & E3 & _).
    rewrite Hset in Hs. injection Hs as <-.
    rewrite E1, E2, E3. auto.
  - destruct IH as ((_ & _ & Hlen & Hall) & Hg & _ & _).
    destruct (resize_placed this w h Hg Hw Hh Hall Hlen)
      as (s1 & Hs & Hp1 & E1).
    rewrite Hres in Hs. injection Hs as <-.
    split; [assumption|]. rewrite E1. split; [assumption|].
    unfold AntSim.resize in Hres.
    destruct (new_grid _ _); [|discriminate].
    destruct (AntSim.copy_region _ _ _ _); [|discriminate].
    injection Hres as <-. simpl. auto.
Qed.

(** A simulation built for a window of at least one cell, and then driven
    by clicks on pixels of full rows of cells, steps, resets and resizes to
    at least one cell, keeps every automaton on a row of the grid: there
    [step], [setConfig] and any further such [resize] return. *)
Theorem reachable_simulation_never_throws :
  forall this : AntSim.t,
    reachable this ->
    placed this
    /\ (exists this', AntSim.step this = Returned this' /\ reachable this')
    /\ (forall cfg, exists this',
          AntSim.setConfig this cfg = Returned this' /\ reachable this')
    /\ (forall width height,
          AntSim.gridSize this <= width -> AntSim.gridSize this <= height ->
          exists this',
            AntSim.resize this width height = Returned this'
            /\ reachable this').
Proof.
  intros this Hr.
  destruct (reachable_invariant this Hr) as (Hp & Hg & Hw & Hh).
  split; [assumption|]. split; [|split].
  - destruct (step_placed this Hp) as (s1 & Hs & _).
    exists s1. split; [assumption|]. eapply reachable_step; eassumption.
  - intros cfg. destruct (setConfig_placed this cfg Hg Hw Hh) as (s1 & Hs & _).
    exists s1. split; [assumption|]. eapply reachable_setConfig; eassumption.
  - intros w h Hw' Hh'. destruct Hp as (_ & _ & Hlen & Hall).
    destruct (resize_placed this w h Hg Hw' Hh' Hall Hlen) as (s1 & Hs & _).
    exists s1. split; [assumption|].
    apply (reachable_resize this s1 w h); assumption.
Qed.

Lemma reachable_simulation_never_throws_witness :
  exists this', AntSim.step Examples.centre_click = Returned this'.
Proof.
  destruct (reachable_simulation_never_throws Examples.centre_click)
    as (_ & (this' & Hs & _) & _).
  - change Examples.centre_click
      with (mousePressed false 30 35 15 15 presetAnts.classic Examples.fresh).
    apply reachable_click; [|simpl; lia].
    apply (reachable_new presetAnts.classic 30 35 10); try lia.
    reflexivity.
  - exists this'. exact Hs.
Defined.

(** ** Resetting and resizing *)

(** [setConfig] is a reset: for a non-negative width it returns a
    simulation with the given configuration, no automaton, the row and
    column counts of the current pixel sizes, and background in every
    cell, whatever the grid held before. *)
Theorem setConfig_resets :
  forall (this : AntSim.t) (cfg : AntConfig),
    0 < AntSim.gridSize this -> 0 <= AntSim.width this ->
    exists this' : AntSim.t,
      AntSim.setConfig this cfg = Returned this'
      /\ AntSim.config this' = cfg
      /\ AntSim.ants this' = []
      /\ AntSim.rows this' = AntSim.height this / AntSim.gridSize this
      /\ AntSim.cols this' = AntSim.width this / AntSim.gridSize this
      /\ AntSim.width this' = AntSim.width this
      /\ AntSim.height this' = AntSim.height this
      /\ (forall y x : Z,
            0 <= y < AntSim.rows this' -> 0 <= x < AntSim.cols this' ->
            grid_get (AntSim.grid this') (Int y) (Int x) = Ok (Some (Int 0))).
Proof.
  intros this cfg Hg Hw.
  set (rows' := AntSim.height this / AntSim.gridSize this).
  set (cols' := AntSim.width this / AntSim.gridSize this).
  assert (Hc' : 0 <= cols') by (apply Z.div_pos; lia).
  destruct (new_grid_returns rows' cols' Hc') as (g0 & Hnew & Hzero).
  eexists. split.
  { unfold AntSim.setConfig. fold rows' cols'. rewrite Hnew. reflexivity. }
  cbn [AntSim.rows AntSim.cols AntSim.grid AntSim.ants AntSim.config
       AntSim.width AntSim.height].
  repeat split; auto.
Qed.

Lemma setConfig_resets_witness :
  exists this' : AntSim.t,
    AntSim.setConfig Examples.centre_click presetAnts.extended
    = Returned this'
    /\ AntSim.ants this' = []
    /\ AntSim.config this' = presetAnts.extended.
Proof.
  destruct (setConfig_resets Examples.centre_click presetAnts.extended)
    as (this' & Hs & Hc & Ha & _); [simpl; lia | simpl; lia |].
  exists this'. auto.
Defined.

Lemma resize_returns (this : AntSim.t) (width height : Z) :
  0 < AntSim.gridSize this -> 0 <= width -> 0 <= height ->
  (Z.to_nat (AntSim.rows this) <= List.length (AntSim.grid this))%nat ->
  exists this' : AntSim.t,
    AntSim.resize this width height = Returned this'
    /\ AntSim.gridSize this' = AntSim.gridSize this
    /\ AntSim.rows this' = height / AntSim.gridSize this
    /\ AntSim.cols this' = width / AntSim.gridSize this
    /\ List.length (AntSim.grid this') = Z.to_nat (AntSim.rows this')
    /\ AntSim.ants this'
       = filter (AntSim.in_bounds (AntSim.cols this') (AntSim.rows this'))
           (AntSim.ants this)
    /\ (forall y x : Z,
          0 <= y < AntSim.rows this' -> 0 <= x < AntSim.cols this' ->
          grid_get (AntSim.grid this') (Int y) (Int x)
          = if (y <? AntSim.rows this) && (x <? AntSim.cols this)
            then grid_get (AntSim.grid this) (Int y) (Int x)
            else Ok (Some (Int 0))).
Proof.
  intros Hg Hw Hh Hrows.
  set (rows' := height / AntSim.gridSize this).
  set (cols' := width / AntSim.gridSize this).
  assert (Hc' : 0 <= cols') by (apply Z.div_pos; lia).
  destruct (new_grid_returns rows' cols' Hc') as (g0 & Hnew & Hzero).
  destruct (copy_region_spec (AntSim.grid this) g0 rows' cols'
              (Z.min (AntSim.rows this) rows') (Z.min (AntSim.cols this) cols'))
    as (g' & Hcopy & Hcells); try lia; try assumption.
  pose proof (copy_region_length (AntSim.grid this) g0
                (Z.min (AntSim.rows this) rows')
                (Z.min (AntSim.cols this) cols')) as Hl.
  rewrite Hcopy in Hl. simpl in Hl.
  rewrite (new_grid_length _ _ _ Hnew) in Hl.
  eexists. split.
  { unfold AntSim.resize. fold rows' cols'. rewrite Hnew, Hcopy.
    reflexivity. }
  cbn [AntSim.rows AntSim.cols AntSim.ants AntSim.grid AntSim.gridSize].
  repeat split; try assumption.
  intros y x Hy Hx. destruct (Hcells y x Hy Hx) as [Hin Hout].
  destruct ((y <? AntSim.rows this) && (x <? AntSim.cols this)) eqn:E.
  - apply andb_prop in E as [E1 E2].
    apply Z.ltb_lt in E1. apply Z.ltb_lt in E2. apply Hin. lia.
  - apply Hout. intros [H1 H2]. apply andb_false_iff in E as [E|E];
      apply Z.ltb_ge in E; lia.
Qed.

(** Resizing and resizing back to the first sizes does not restore the
    grid: a cell reads as at the start only if it lies within the row and
    column counts of the intermediate sizes; every other cell is 0, and
    the automatons left are those within the counts of both sizes. *)
Theorem resize_and_back_clears_cut_cells :
  forall (this : AntSim.t) (width height : Z),
    0 < AntSim.gridSize this ->
    0 <= width -> 0 <= height ->
    0 <= AntSim.width this -> 0 <= AntSim.height this ->
    AntSim.rows this = AntSim.height this / AntSim.gridSize this ->
    AntSim.cols this = AntSim.width this / AntSim.gridSize this ->
    (Z.to_nat (AntSim.rows this) <= List.length (AntSim.grid this))%nat ->
    exists mid back : AntSim.t,
      AntSim.resize this width height = Returned mid
      /\ AntSim.resize mid (AntSim.width this) (AntSim.height this)
         = Returned back
      /\ AntSim.rows back = AntSim.rows this
      /\ AntSim.cols back = AntSim.cols this
      /\ AntSim.ants back
         = filter (fun ant =>
                     AntSim.in_bounds (AntSim.cols mid) (AntSim.rows mid) ant
                     && AntSim.in_bounds (AntSim.cols this) (AntSim.rows this)
                          ant)
             (AntSim.ants this)
      /\ forall y x : Z,
           0 <= y < AntSim.rows this -> 0 <= x < AntSim.cols this ->
           grid_get (AntSim.grid back) (Int y) (Int x)
           = if (y <? AntSim.rows mid) && (x <? AntSim.cols mid)
             then grid_get (AntSim.grid this) (Int y) (Int x)
             else Ok (Some (Int 0)).
Proof.
  intros this width height Hg Hw Hh Hw0 Hh0 Hrows Hcols Hlen.
  destruct (resize_returns this width height Hg Hw Hh Hlen)
    as (mid & Hmid & Gm & Rm & Cm & Lm & Am & Cellm).
  destruct (resize_returns mid (AntSim.width this) (AntSim.height this))
    as (back & Hback & Gb & Rb & Cb & Lb & Ab & Cellb);
    try lia.
  exists mid, back. rewrite Gm in Rb, Cb. rewrite <- Hrows in Rb.
  rewrite <- Hcols in Cb.
  split; [assumption|]. split; [assumption|].
  split; [assumption|]. split; [assumption|]. split.
  - rewrite Ab, Am, Rb, Cb. clear.
    induction (AntSim.ants this) as [|a l IH]; [reflexivity|].
    simpl. destruct (AntSim.in_bounds (AntSim.cols mid) (AntSim.rows mid) a);
      simpl; [|exact IH].
    destruct (AntSim.in_bounds (AntSim.cols this) (AntSim.rows this) a);
      simpl; rewrite IH; reflexivity.
  - intros y x Hy Hx. rewrite Cellb by lia.
    destruct ((y <? AntSim.rows mid) && (x <? AntSim.cols mid)) eqn:E;
      [|reflexivity].
    apply andb_prop in E as [E1 E2].
    apply Z.ltb_lt in E1. apply Z.ltb_lt in E2.
    rewrite Cellm by lia.
    replace ((y <? AntSim.rows this) && (x <? AntSim.cols this)) with true;
      [reflexivity|].
    symmetry. apply andb_true_iff. rewrite !Z.ltb_lt. lia.
Qed.

Lemma resize_and_back_clears_cut_cells_witness :
  exists mid back : AntSim.t,
    AntSim.resize Examples.centre_click 10 10 = Returned mid
    /\ AntSim.resize mid 30 35 = Returned back
    /\ AntSim.rows back = 3.
Proof.
  destruct (resize_and_back_clears_cut_cells Examples.centre_click 10 10)
    as (mid & back & H1 & H2 & H3 & _);
    try (simpl; lia); try reflexivity.
  exists mid, back. auto.
Defined.

(** ** Edges of the validator *)

(** The validator reads four properties of the candidate and three of each
    entry: two objects that agree on [name], [colors], [states] and
    [transitions] get the same verdict, and so do two entries that agree on
    [newColor], [turn] and [nextState]; any other property, and the order
    of the properties, are ignored. *)
Theorem validator_reads_named_properties_only :
  forall (tn : value -> number),
    (forall fs fs' : list (string * value),
        lookup_field "name" fs = lookup_field "name" fs' ->
        lookup_field "colors" fs = lookup_field "colors" fs' ->
        lookup_field "states" fs = lookup_field "states" fs' ->
        lookup_field "transitions" fs = lookup_field "transitions" fs' ->
        validateAntConfig tn (VObj fs) = validateAntConfig tn (VObj fs'))
    /\ (forall (colors states : value) (i : nat)
               (fs fs' : list (string * value)),
          lookup_field "newColor" fs = lookup_field "newColor" fs' ->
          lookup_field "turn" fs = lookup_field "turn" fs' ->
          lookup_field "nextState" fs = lookup_field "nextState" fs' ->
          validate_transition tn colors states i (VObj fs)
          = validate_transition tn colors states i (VObj fs')).
Proof.
  intros tn. split.
  - intros fs fs' Hn Hc Hs Ht.
    rewrite (validate_record tn (VObj fs) I), (validate_record tn (VObj fs') I).
    unfold expected_count, field, get. rewrite Hn, Hc, Hs, Ht. reflexivity.
  - intros colors states i fs fs' Hn Ht Hs.
    unfold validate_transition, get. cbn [typeof jstype_eqb negb throw_if bind].
    rewrite Hn, Ht, Hs. reflexivity.
Qed.

Lemma validator_reads_named_properties_only_witness :
  validateAntConfig Examples.no_conversion
    (VObj (("comment", VStr "mine") :: ("colors", VNum (Int 2))
           :: ("name", VStr "b") :: ("states", VNum (Int 1))
           :: ("transitions", VArr []) :: nil)%string)
  = validateAntConfig Examples.no_conversion
      (VObj [("name", VStr "b"); ("states", VNum (Int 1));
             ("colors", VNum (Int 2)); ("transitions", VArr [])]%string).
Proof.
  apply (proj1 (validator_reads_named_properties_only
                  Examples.no_conversion)); reflexivity.
Defined.

(** An entry that is [null] is not answered with the error of a check: it
    passes the test on its type, and reading its [newColor] raises the
    runtime's TypeError, provided the checks before it pass. *)
Theorem null_entry_raises_TypeError :
  forall (tn : value -> number) (v : value) (before after : list value),
    is_record v -> has_name v -> colors_ok v ->
    field v "transitions" = VArr (before ++ VNull :: after) ->
    Num.eqb (Int (Z.of_nat (List.length (before ++ VNull :: after))))
      (expected_count tn v) = true ->
    Forall (entry_ok tn v) before ->
    validateAntConfig tn v = Throw TypeError.
Proof.
  intros tn v before after Hrec Hname (z & Hz & Hz1) Ht Hlen Hok.
  rewrite (validate_record tn v Hrec).
  rewrite (proj2 (name_check v) Hname). cbn [throw_if bind].
  assert (Hcc : (negb (is_number (field v "colors"))
                 || Num.ltb (ToNumber tn (field v "colors")) (Int 1)) = false)
    by (rewrite Hz; simpl; apply Z.ltb_ge; lia).
  rewrite Hcc. cbn [throw_if bind]. rewrite Ht. cbn [isArray negb throw_if bind].
  cbn [get String.eqb Ascii.eqb Bool.eqb bind ToNumber].
  rewrite Hlen. cbn [negb throw_if bind].
  clear Ht Hlen. generalize 0%nat as i.
  induction before as [|b before IH]; intros i.
  - reflexivity.
  - inversion Hok as [|? ? Hb Hrest]; subst.
    cbn [app validate_transitions].
    rewrite (proj2 (validate_transition_ok tn v b i) Hb). cbn [bind].
    apply IH. assumption.
Qed.

Lemma null_entry_raises_TypeError_witness :
  validateAntConfig Examples.no_conversion
    (VObj [("name", VStr "b"); ("states", VNum (Int 1));
           ("colors", VNum (Int 1));
           ("transitions",
            VArr [transition_value (presetAnts.T 0 1 0); VNull])]%string)
  = Throw TypeError.
Proof.
  apply (null_entry_raises_TypeError Examples.no_conversion _
           [transition_value (presetAnts.T 0 1 0)] []).
  - exact I.
  - eexists; split; [reflexivity | discriminate].
  - exists 1; split; [reflexivity | lia].
  - reflexivity.
  - reflexivity.
  - repeat constructor;
      try (eexists; repeat split; reflexivity);
      try (eexists; split; [reflexivity | right; reflexivity]).
Defined.

Lemma transition_at_nil (idx : number) : Ant.transition_at [] idx = None.
Proof.
  unfold Ant.transition_at. destruct (Num.as_index idx) as [[|i]|]; reflexivity.
Qed.

(** A configuration with [states] 0 and no transition passes the
    validator, whatever its name and its count of colours; and the
    automatons bound to a configuration without transitions stall: on a
    placed simulation that holds no other automaton, [step] returns the
    simulation as it was. *)
Theorem empty_table_accepted_and_stalls :
  forall tn : value -> number,
    (forall (name : string) (z : Z),
        name <> ""%string -> 1 <= z ->
        validateAntConfig tn
          (config_value (mkConfig name (VNum (Int 0)) (Int z) [])) = Ok tt)
    /\ (forall this : AntSim.t,
          placed this ->
          Forall (fun ant => transitions (Ant.config ant) = [])
            (AntSim.ants this) ->
          AntSim.step this = Returned this).
Proof.
  intros tn. split.
  - intros name z Hname Hz. apply accepted_validate.
    + intros n H. injection H as <-. eauto.
    + split; [exact I|]. split; [exists name; auto|].
      split; [exists z; auto|]. exists []. repeat split. constructor.
  - intros this (Hr & Hc & Hlen & Hall) Hempty.
    assert (H : forall ants g,
               (Z.to_nat (AntSim.rows this) <= List.length g)%nat ->
               Forall (stands (AntSim.rows this)) ants ->
               Forall (fun ant => transitions (Ant.config ant) = []) ants ->
               AntSim.move_all g (Int (AntSim.rows this))
                 (Int (AntSim.cols this)) ants = Returned (g, ants)).
    { induction ants as [|ant rest IH]; intros g Hg Hst Hem; [reflexivity|].
      inversion Hst as [|? ? (x & y & Hx & Hy & Hx0 & Hy0) Hst']; subst.
      inversion Hem as [|? ? He Hem']; subst.
      assert (Hrow : exists r, nth_error g (Z.to_nat y) = Some r).
      { destruct (nth_error g (Z.to_nat y)) eqn:E; [eauto|].
        apply nth_error_None in E. lia. }
      destruct Hrow as (r & Hrow).
      assert (Hget : grid_get g (Int y) (Int x) = Ok (row_get r (Int x))).
      { apply grid_get_Int. exists r. repeat split; auto; lia. }
      simpl. unfold Ant.move. rewrite Hx, Hy, Hget. cbn [bind].
      unfold Ant.resolve. rewrite He, !transition_at_nil.
      rewrite (IH g Hg Hst' Hem'). reflexivity. }
    unfold AntSim.step. rewrite (H _ _ Hlen Hall Hempty).
    destruct this. reflexivity.
Qed.

Lemma empty_table_accepted_and_stalls_witness :
  validateAntConfig Examples.no_conversion
    (config_value (mkConfig "still" (VNum (Int 0)) (Int 1) [])) = Ok tt
  /\ AntSim.step
       (AntSim.addAnt Examples.fresh (Int 1) (Int 1)
          (Some (mkConfig "still" (VNum (Int 0)) (Int 1) [])))
     = Returned
         (AntSim.addAnt Examples.fresh (Int 1) (Int 1)
            (Some (mkConfig "still" (VNum (Int 0)) (Int 1) []))).
Proof.
  split.
  - apply (proj1 (empty_table_accepted_and_stalls Examples.no_conversion));
      [discriminate | lia].
  - apply (proj2 (empty_table_accepted_and_stalls Examples.no_conversion)).
    + unfold placed. simpl. repeat split; try lia.
      repeat constructor. exists 1, 1. repeat split; lia.
    + repeat constructor.
Defined.

(** ** The trailing entry of a single-state table *)

(** Under a validated configuration with one state and an integer count of
    colours [cc], an automaton in state 0 never stalls, whatever the cell
    holds: a colour from 0 to [cc] takes the entry of its own index, and
    every larger colour, like an undefined cell, takes the entry of index
    [cc], the last of the table. *)
Theorem single_state_never_stalls :
  forall (tn : value -> number) (c : AntConfig) (cc : Z) (ant : Ant.t),
    validateAntConfig tn (config_value c) = Ok tt ->
    states c = VNum (Int 1) -> colors c = Int cc ->
    Ant.config ant = c -> Ant.state ant = Int 0 ->
    (forall C : Z, 0 <= C ->
       Ant.resolve ant (Some (Int C))
       = nth_error (transitions c) (Z.to_nat (Z.min C cc)))
    /\ Ant.resolve ant None = nth_error (transitions c) (Z.to_nat cc)
    /\ (forall color : cell, exists t : transition,
          Ant.resolve ant color = Some t /\ In t (transitions c)).
Proof.
  intros tn c cc ant Hv Hs Hc Hcfg Hst.
  destruct (field_config_value c) as (Fc & Fs & Ft).
  apply validate_accepted in Hv.
  2:{ intros n Hn. rewrite Fc, Hc in Hn. injection Hn as <-. eauto. }
  destruct Hv as (_ & _ & (z & Hz & Hz1) & ts & Hts & Hlen & _).
  rewrite Fc, Hc in Hz. injection Hz as <-.
  rewrite Ft in Hts. injection Hts as <-.
  unfold expected_count in Hlen. rewrite Fc, Fs, Hs, Hc in Hlen.
  cbn [ToNumber Num.add Num.mul Num.eqb] in Hlen.
  apply Z.eqb_eq in Hlen. rewrite length_map in Hlen.
  assert (Hlast : exists t, nth_error (transitions c) (Z.to_nat cc) = Some t).
  { destruct (nth_error (transitions c) (Z.to_nat cc)) eqn:E; [eauto|].
    apply nth_error_None in E. lia. }
  assert (Hfall : Ant.transition_at (transitions c)
                    (Num.add (Num.mul (Int 0) (Int cc)) (Int cc))
                  = nth_error (transitions c) (Z.to_nat cc)).
  { cbn [Num.mul Num.add]. unfold Ant.transition_at.
    rewrite as_index_Int by lia. reflexivity. }
  split; [|split].
  - intros C HC. unfold Ant.resolve. rewrite Hcfg, Hst, Hc.
    cbn [Ant.cell_number]. rewrite Hfall.
    cbn [Num.mul Num.add]. unfold Ant.transition_at.
    replace (0 * cc + C) with C by lia.
    rewrite as_index_Int by lia.
    destruct (Z_le_gt_dec C cc) as [Hle|Hgt].
    + rewrite Z.min_l by lia.
      destruct (nth_error (transitions c) (Z.to_nat C)) eqn:E; [reflexivity|].
      apply nth_error_None in E. lia.
    + rewrite Z.min_r by lia.
      replace (nth_error (transitions c) (Z.to_nat C))
        with (@None transition); [reflexivity|].
      symmetry. apply nth_error_None. lia.
  - unfold Ant.resolve. rewrite Hcfg, Hst, Hc. cbn [Ant.cell_number].
    rewrite Hfall. reflexivity.
  - intros color. unfold Ant.resolve. rewrite Hcfg, Hst, Hc, Hfall.
    destruct (Ant.transition_at (transitions c)
                (Num.add (Num.mul (Int 0) (Int cc)) (Ant.cell_number color)))
      as [t|] eqn:E.
    + exists t. split; [reflexivity|].
      unfold Ant.transition_at in E.
      destruct (Num.as_index _); [|discriminate].
      eapply nth_error_In. exact E.
    + destruct Hlast as (t & Ht). exists t. split; [assumption|].
      eapply nth_error_In. exact Ht.
Qed.

Lemma single_state_never_stalls_witness :
  Ant.resolve (Ant.constructor (Int 0) (Int 0) presetAnts.classic)
    (Some (Int 7))
  = Some (presetAnts.T 0 1 0).
Proof.
  destruct (single_state_never_stalls Examples.no_conversion
              presetAnts.classic 2
              (Ant.constructor (Int 0) (Int 0) presetAnts.classic))
    as (H & _); [reflexivity | reflexivity | reflexivity | reflexivity
                 | reflexivity |].
  rewrite H by lia. reflexivity.
Defined.

(** ** Simulations in whole numbers never reach the fallback *)

(** For a validated configuration whose [states] and [colors] are
    integers, the first lookup of [move] does not miss: the index
    [S * colors + C] of a state and a colour within their ranges holds an
    entry of the table, and that entry is the transition [move] takes. *)
Theorem primary_lookup_resolves :
  forall (tn : value -> number) (c : AntConfig) (sc cc S C : Z) (ant : Ant.t),
    validateAntConfig tn (config_value c) = Ok tt ->
    states c = VNum (Int sc) -> colors c = Int cc ->
    0 <= S < sc -> 0 <= C < cc ->
    Ant.config ant = c -> Ant.state ant = Int S ->
    exists t : transition,
      nth_error (transitions c) (Z.to_nat (S * cc + C)) = Some t
      /\ Ant.resolve ant (Some (Int C)) = Some t.
Proof.
  intros tn c sc cc S C ant Hv Hs Hc HS HC Hcfg Hst.
  destruct (primary_lookup_defined tn c sc cc S C ant Hv Hs Hc HS HC Hcfg Hst)
    as (t & Hat & Hres).
  exists t. split; [|exact Hres].
  rewrite Hc in Hat. cbn [Num.mul Num.add] in Hat.
  unfold Ant.transition_at in Hat. rewrite as_index_Int in Hat by nia.
  exact Hat.
Qed.

Lemma primary_lookup_resolves_witness :
  exists t : transition,
    nth_error (transitions presetAnts.extended) (Z.to_nat (1 * 4 + 2))
    = Some t
    /\ Ant.resolve (Ant.mk (Int 0) (Int 0) 0 (Int 1) presetAnts.extended)
         (Some (Int 2)) = Some t.
Proof.
  apply (primary_lookup_resolves Examples.no_conversion presetAnts.extended
           2 4 1 2); try reflexivity; lia.
Defined.

Lemma whole_entry_ranges (tn : value -> number) (c : AntConfig) (sc cc : Z)
  (t : transition) :
  validateAntConfig tn (config_value c) = Ok tt ->
  whole c sc cc -> In t (transitions c) ->
  exists k s : Z,
    newColor t = Int k /\ nextState t = Int s
    /\ 0 <= k < cc /\ 0 <= s < sc.
Proof.
  intros Hv (Hs & Hc & Hall) Hin.
  destruct (field_config_value c) as (Fc & Fs & Ft).
  destruct (validate_entries tn _ Hv) as (_ & ts & Hts & _ & Hok).
  rewrite Ft in Hts. injection Hts as <-.
  rewrite Forall_forall in Hall, Hok.
  destruct (Hall t Hin) as (k & s & Hk & Hs').
  destruct (Hok (transition_value t) (in_map _ _ _ Hin))
    as (_ & (n & En & Hn0 & Hn1) & _ & (m & Em & Hm0 & Hm1)).
  unfold field in En, Em. cbn in En, Em.
  injection En as <-. injection Em as <-.
  rewrite Fc, Hc, Hk in Hn1. rewrite Hk in Hn0.
  rewrite Fs, Hs, Hs' in Hm1. rewrite Hs' in Hm0.
  cbn in Hn0, Hn1, Hm0, Hm1.
  apply Z.ltb_ge in Hn0. apply Z.leb_gt in Hn1.
  apply Z.ltb_ge in Hm0. apply Z.leb_gt in Hm1.
  exists k, s. repeat split; auto; lia.
Qed.

Lemma rotate_turns (d : Z) (turn : number) :
  0 <= d < 4 -> Ant.rotate d turn <> d.
Proof.
  intros H. assert (Hd : d = 0 \/ d = 1 \/ d = 2 \/ d = 3) by lia.
  unfold Ant.rotate.
  destruct Hd as [ -> | [ -> | [ -> | -> ] ] ];
    destruct (Num.eqb turn (Int 0));
    discriminate.
Qed.

Lemma move_regular (tn : value -> number) (cc rows cols : Z) (g : Grid)
  (ant : Ant.t) :
  coloured cc rows cols g -> at_home tn cc rows cols ant ->
  exists (g' : Grid) (ant' : Ant.t),
    Ant.move ant g (Int rows) (Int cols) = Ok (g', ant')
    /\ coloured cc rows cols g'
    /\ at_home tn cc rows cols ant'
    /\ took_regular_entry cc rows cols g ant g' ant'.
Proof.
  intros Hg (Hv & (sc & S & Hw & Hst & HS) & (x & y & Hx & Hy & Hx0 & Hy0) & Hd).
  destruct (Hg y x Hy0 Hx0) as (C & Hget & HC).
  pose proof Hw as (Hs & Hc & _).
  destruct (primary_lookup_defined tn (Ant.config ant) sc cc S C ant
              Hv Hs Hc HS HC eq_refl Hst) as (t & Hat & Hres).
  assert (Hin : In t (transitions (Ant.config ant))).
  { unfold Ant.transition_at in Hat. destruct (Num.as_index _); [|discriminate].
    eapply nth_error_In. exact Hat. }
  destruct (whole_entry_ranges tn _ sc cc t Hv Hw Hin)
    as (k & s & Hk & Hs' & Hk0 & Hs0).
  destruct (grid_set_spec g y x _ (Some (newColor t)) ltac:(lia) Hget)
    as (g' & Hset & _ & Hread & Hother).
  set (d' := Ant.rotate (Ant.direction ant) (turn t)).
  assert (Hd' : 0 <= d' < 4) by (apply rotate_range; assumption).
  destruct (Ant.advance d' (Int rows) (Int cols) (Int x, Int y))
    as [x' y'] eqn:EA.
  exists g', (Ant.mk x' y' d' (nextState t) (Ant.config ant)).
  split.
  { unfold Ant.move. rewrite Hx, Hy, Hget. cbn [bind]. rewrite Hres, Hset.
    cbn [bind]. fold d'. rewrite EA. reflexivity. }
  split; [|split].
  - intros y2 x2 Hy2 Hx2.
    destruct (Z.eq_dec y2 y) as [->|Hne];
      [destruct (Z.eq_dec x2 x) as [->|Hne]|].
    + exists k. rewrite Hread, Hk. auto.
    + rewrite Hother by congruence. apply Hg; assumption.
    + rewrite Hother by congruence. apply Hg; assumption.
  - unfold at_home. cbn [Ant.config Ant.state Ant.x Ant.y Ant.direction].
    split; [assumption|]. split; [exists sc, s; auto|]. split; [|assumption].
    rewrite advance_mod in EA by lia.
    assert (Bx : forall a, 0 <= a mod cols < cols)
      by (intros a; apply Z.mod_pos_bound; lia).
    assert (By : forall a, 0 <= a mod rows < rows)
      by (intros a; apply Z.mod_pos_bound; lia).
    destruct d' as [|[[|[]|]|[|[]|]|]|]; injection EA as <- <-;
      eexists; eexists; (split; [reflexivity|]); (split; [reflexivity|]);
      try (split; [apply Bx | lia]); try (split; [lia | apply By]);
      split; lia.
  - exists x, y, S, C, t.
    cbn [Ant.state Ant.direction Ant.x Ant.y Ant.config].
    split; [exact Hx|]. split; [exact Hy|]. split; [exact Hst|].
    split; [lia|]. split; [exact Hget|]. split; [exact HC|].
    split.
    { rewrite Hc in Hat. cbn [Num.mul Num.add] in Hat.
      unfold Ant.transition_at in Hat. rewrite as_index_Int in Hat by nia.
      exact Hat. }
    split; [exact Hset|]. split; [exact Hread|]. split; [reflexivity|].
    split; [apply rotate_turns; assumption|].
    split; [symmetry; exact EA|]. split; reflexivity.
Qed.

Lemma move_all_regular (tn : value -> number) (cc rows cols : Z)
  (ants : list Ant.t) (g : Grid) :
  coloured cc rows cols g -> Forall (at_home tn cc rows cols) ants ->
  exists (g' : Grid) (ants' : list Ant.t),
    AntSim.move_all g (Int rows) (Int cols) ants = Returned (g', ants')
    /\ coloured cc rows cols g'
    /\ Forall (at_home tn cc rows cols) ants'
    /\ took_regular_entries cc rows cols g ants g' ants'.
Proof.
  revert g. induction ants as [|ant rest IH]; intros g Hg Hall.
  - exists g, []. repeat split; auto.
  - inversion Hall as [|? ? Hant Hrest]; subst.
    destruct (move_regular tn cc rows cols g ant Hg Hant)
      as (g1 & ant' & Hmove & Hg1 & Hant' & Htook).
    destruct (IH g1 Hg1 Hrest) as (g2 & rest' & Hall' & Hg2 & Hrest' & Htooks).
    exists g2, (ant' :: rest').
    cbn [AntSim.move_all took_regular_entries]. rewrite Hmove, Hall'.
    split; [reflexivity|]. split; [assumption|].
    split; [constructor; assumption|]. exists g1. auto.
Qed.

(** When every cell holds a colour below [cc] and every automaton stands
    on the grid, bound to a validated configuration in whole numbers with
    [cc] colours, [step] returns a simulation of the same kind, and the
    automatons have moved one after the other in list order, each on the
    grid the one before it left: each has taken the entry of its state and
    of the colour of the cell it stood on, at the first index of [move],
    has repainted that cell with the entry's [newColor], has turned by its
    [turn], has advanced one cell and is in its [nextState].  So no
    automaton stalls and none takes the entry of the second index. *)
Theorem regular_step_takes_regular_entries :
  forall (tn : value -> number) (cc : Z) (this : AntSim.t),
    regular tn cc this ->
    exists this' : AntSim.t,
      AntSim.step this = Returned this'
      /\ regular tn cc this'
      /\ took_regular_entries cc (AntSim.rows this) (AntSim.cols this)
           (AntSim.grid this) (AntSim.ants this)
           (AntSim.grid this') (AntSim.ants this').
Proof.
  intros tn cc this (Hg & Hall).
  destruct (move_all_regular tn cc _ _ _ _ Hg Hall)
    as (g' & ants' & Hmove & Hg' & Hall' & Htook).
  exists (AntSim.with_grid_ants this (g', ants')).
  unfold AntSim.step. rewrite Hmove. repeat split; assumption.
Qed.

Lemma regular_step_takes_regular_entries_witness :
  exists this' : AntSim.t,
    AntSim.step Examples.centre_click = Returned this'
    /\ regular Examples.no_conversion 2 this'
    /\ took_regular_entries 2 3 3
         (AntSim.grid Examples.centre_click)
         (AntSim.ants Examples.centre_click)
         (AntSim.grid this') (AntSim.ants this').
Proof.
  destruct (regular_step_takes_regular_entries Examples.no_conversion 2
              Examples.centre_click) as (this' & Hs & Hr & Ht).
  - split.
    + intros y x Hy Hx. exists 0. split; [|lia].
      assert (Hy' : y = 0 \/ y = 1 \/ y = 2) by (simpl in Hy; lia).
      assert (Hx' : x = 0 \/ x = 1 \/ x = 2) by (simpl in Hx; lia).
      destruct Hy' as [ -> | [ -> | -> ] ];
        destruct Hx' as [ -> | [ -> | -> ] ]; reflexivity.
    + repeat constructor; simpl; try lia.
      * exists 1, 0. repeat split; try lia.
        repeat constructor; eexists; eexists; split; reflexivity.
      * exists 1, 1. repeat split; lia.
  - exists this'. auto.
Defined.

(** ** Many ticks *)

Lemma Qfloor_unique (x : Q) (z : Z) :
  (inject_Z z <= x)%Q -> (x < inject_Z (z + 1))%Q -> Qfloor x = z.
Proof.
  intros Hle Hlt.
  pose proof (Qfloor_le x) as H1. pose proof (Qlt_floor x) as H2.
  assert (A : (inject_Z z < inject_Z (Qfloor x + 1))%Q)
    by (eapply Qle_lt_trans; eassumption).
  assert (B : (inject_Z (Qfloor x) < inject_Z (z + 1))%Q)
    by (eapply Qle_lt_trans; eassumption).
  rewrite <- Zlt_Qlt in A, B. lia.
Qed.

Lemma Qfloor_shift (x : Q) (k : Z) :
  Qfloor (x - inject_Z k) = Qfloor x - k.
Proof.
  apply Qfloor_unique.
  - unfold Z.sub. rewrite inject_Z_plus, inject_Z_opp.
    apply Qplus_le_compat; [apply Qfloor_le | apply Qle_refl].
  - replace (Qfloor x - k + 1) with ((Qfloor x + 1) + - k) by lia.
    rewrite inject_Z_plus, inject_Z_opp.
    apply Qplus_lt_le_compat; [apply Qlt_floor | apply Qle_refl].
Qed.

Lemma steps_add (a b : nat) (m : AntSim.t) :
  steps (a + b) m
  = match steps a m with
    | Returned m' => steps b m'
    | Thrown e m' => Thrown e m'
    end.
Proof.
  revert m. induction a as [|a IH]; intros m; simpl; [reflexivity|].
  destruct (AntSim.step m) as [m'|e m']; [apply IH | reflexivity].
Qed.

(** In the rational arithmetic of [Num], which adds and divides without
    rounding: from an accumulator in [0, 1), on a placed simulation that
    is not paused, [n] ticks at a constant rate run the integer part of
    [acc + n * rate * 50 / 1000] steps and leave the fractional part of
    that sum in the accumulator. *)
Lemma ticks_rational :
  forall (n : nat) (s : session) (qa qr : Q),
    paused s = false -> placed (sim s) ->
    Num.to_Q (stepAccumulator s) = Some qa ->
    Num.to_Q (stepsPerSecond s) = Some qr ->
    (0 <= qa)%Q -> (qa < 1)%Q -> (0 <= qr)%Q ->
    let total := (qa + inject_Z (Z.of_nat n) * (qr * 50 / 1000))%Q in
    exists s' : session,
      ticks n s = Returned s'
      /\ steps (Z.to_nat (Qfloor total)) (sim s) = Returned (sim s')
      /\ placed (sim s')
      /\ paused s' = false
      /\ stepsPerSecond s' = stepsPerSecond s
      /\ exists r : Q,
           Num.to_Q (stepAccumulator s') = Some r
           /\ (r == total - inject_Z (Qfloor total))%Q.
Proof.
  induction n as [|n IH]; intros s qa qr Hp Hsim Ha Hr Hqa0 Hqa1 Hqr total.
  - assert (Et : (total == qa)%Q) by (subst total; simpl; ring).
    assert (Ef : Qfloor total = 0).
    { apply Qfloor_unique; rewrite Et; assumption. }
    exists s. rewrite Ef.
    split; [reflexivity|]. split; [reflexivity|]. split; [assumption|].
    split; [assumption|]. split; [reflexivity|].
    exists qa. split; [assumption|]. rewrite Et. simpl. ring.
  - destruct (proj1 batch_tick_placed s qa qr Hp Hsim Ha Hr Hqa0 Hqr)
      as (t1 & m & rest & Et1 & Hf1 & Hsteps1 & Hm & Htick & (r & Hrest & Er)
          & Hge & Hlt).
    apply (geb_to_Q rest (Int 0) r 0 Hrest eq_refl) in Hge.
    apply (ltb_to_Q rest (Int 1) r 1 Hrest eq_refl) in Hlt.
    destruct (IH (mkSession m false (stepsPerSecond s) rest) r qr
                eq_refl Hm Hrest Hr Hge Hlt Hqr)
      as (s' & Hticks & Hsteps & Hm' & Hp' & Hsps & r' & Hr' & Er').
    set (t2 := (r + inject_Z (Z.of_nat n) * (qr * 50 / 1000))%Q) in *.
    assert (Esum : (t2 == total - inject_Z (Qfloor t1))%Q).
    { subst t2 total. rewrite Nat2Z.inj_succ. unfold Z.succ.
      rewrite inject_Z_plus.
      set (F := inject_Z (Qfloor t1)) in *.
      set (N := inject_Z (Z.of_nat n)) in *.
      rewrite Er, Et1. change (inject_Z 1) with 1%Q. field. }
    assert (Ef : Qfloor t2 = Qfloor total - Qfloor t1).
    { rewrite (Qfloor_comp _ _ Esum). apply Qfloor_shift. }
    assert (Hf2 : 0 <= Qfloor t2).
    { change 0 with (Qfloor 0). apply Qfloor_resp_le. subst t2.
      rewrite <- (Qplus_0_r 0). apply Qplus_le_compat; [assumption|].
      apply Qmult_le_0_compat.
      - change 0%Q with (inject_Z 0). rewrite <- Zle_Qle. lia.
      - apply Qle_shift_div_l; [reflexivity|]. rewrite Qmult_0_l.
        apply Qmult_le_0_compat; [assumption | discriminate]. }
    exists s'. cbn [sim stepsPerSecond] in *.
    split; [simpl; rewrite Htick; exact Hticks|].
    split.
    { replace (Qfloor total) with (Qfloor t1 + Qfloor t2) by lia.
      rewrite Z2Nat.inj_add by lia. rewrite steps_add, Hsteps1.
      exact Hsteps. }
    split; [assumption|]. split; [assumption|]. split; [assumption|].
    exists r'. split; [assumption|].
    rewrite Er', Ef. unfold Z.sub. rewrite inject_Z_plus, inject_Z_opp.
    set (F1 := inject_Z (Qfloor t1)) in *.
    set (F := inject_Z (Qfloor total)) in *.
    rewrite Esum. ring.
Qed.

Lemma quarters (q : Z) :
  Qfloor (q # 4) = q / 4
  /\ ((q # 4) - inject_Z (q / 4) == (q mod 4) # 4)%Q.
Proof.
  split; [reflexivity|].
  unfold Qeq, Qminus, Qplus, Qopp, inject_Z. cbn [Qnum Qden].
  pose proof (Z.div_mod q 4 ltac:(lia)). lia.
Qed.

(** At a rate that is a multiple of 5 within the range of the slider, a
    tick adds a multiple of one quarter to the accumulator.  From an
    accumulator that is itself 0, 1/4, 1/2 or 3/4 (it is 0 at the start,
    after a resume and after a move of the slider), every product,
    quotient, sum, integer part and difference of the callback is then a
    multiple of one quarter far below 2^53, which a double holds as it
    is, so that the callback computes what is computed here.  On a placed
    simulation that is not paused, [n] ticks at the rate [5 m] from the
    accumulator [j / 4] run the integer part of [(j + n m) / 4] steps, and
    leave [((j + n m) mod 4) / 4] in the accumulator: at these rates no
    step is lost or gained over any number of ticks. *)
Theorem ticks_at_quarter_rates :
  forall (n : nat) (m j : Z) (s : session) (qa : Q),
    paused s = false -> placed (sim s) ->
    stepsPerSecond s = Int (5 * m) -> 0 <= m -> 5 * m <= 100000 ->
    Num.to_Q (stepAccumulator s) = Some qa -> (qa == j # 4)%Q ->
    0 <= j < 4 ->
    let q := j + Z.of_nat n * m in
    exists s' : session,
      ticks n s = Returned s'
      /\ steps (Z.to_nat (q / 4)) (sim s) = Returned (sim s')
      /\ placed (sim s')
      /\ paused s' = false
      /\ stepsPerSecond s' = stepsPerSecond s
      /\ exists r : Q,
           Num.to_Q (stepAccumulator s') = Some r
           /\ (r == (q mod 4) # 4)%Q.
Proof.
  intros n m j s qa Hp Hsim Hrate Hm _ Ha Hqa Hj q.
  assert (Hr : Num.to_Q (stepsPerSecond s) = Some (inject_Z (5 * m)))
    by (rewrite Hrate; reflexivity).
  assert (Hqa0 : (0 <= qa)%Q).
  { rewrite Hqa. unfold Qle. cbn [Qnum Qden]. lia. }
  assert (Hqa1 : (qa < 1)%Q).
  { rewrite Hqa. unfold Qlt. cbn [Qnum Qden]. lia. }
  assert (Hqr : (0 <= inject_Z (5 * m))%Q).
  { change 0%Q with (inject_Z 0). rewrite <- Zle_Qle. lia. }
  destruct (ticks_rational n s qa (inject_Z (5 * m)) Hp Hsim Ha Hr
              Hqa0 Hqa1 Hqr)
    as (s' & Hticks & Hsteps & Hm' & Hp' & Hsps & r & Hr' & Er).
  assert (Et : (qa + inject_Z (Z.of_nat n) * (inject_Z (5 * m) * 50 / 1000)
                == q # 4)%Q).
  { rewrite Hqa. subst q.
    rewrite (Qmake_Qdiv j 4), (Qmake_Qdiv (j + Z.of_nat n * m) 4).
    rewrite !inject_Z_plus, !inject_Z_mult.
    change (inject_Z (Z.pos 4)) with 4%Q. change (inject_Z 5) with 5%Q.
    field. }
  destruct (quarters q) as (Hfl & Hrest).
  rewrite (Qfloor_comp _ _ Et), Hfl in Hsteps.
  exists s'. split; [exact Hticks|]. split; [exact Hsteps|].
  split; [exact Hm'|]. split; [exact Hp'|]. split; [exact Hsps|].
  exists r. split; [exact Hr'|].
  rewrite Er, (Qfloor_comp _ _ Et), Hfl.
  set (F := inject_Z (q / 4)) in *. rewrite Et. exact Hrest.
Qed.

Lemma ticks_at_quarter_rates_witness :
  exists s' : session,
    ticks 3 (mkSession Examples.centre_click false (Int 10) (Int 0))
    = Returned s'
    /\ steps 1 Examples.centre_click = Returned (sim s')
    /\ exists r : Q,
         Num.to_Q (stepAccumulator s') = Some r /\ (r == 2 # 4)%Q.
Proof.
  destruct (ticks_at_quarter_rates 3 2 0
              (mkSession Examples.centre_click false (Int 10) (Int 0)) 0)
    as (s' & Ht & Hs & _ & _ & _ & Hr); try reflexivity; try lia.
  - unfold placed. simpl. repeat split; try lia.
    repeat constructor. exists 1, 1. repeat split; lia.
  - exists s'. split; [exact Ht|]. split; [exact Hs | exact Hr].
Defined.

(** ** Placed simulations, one step *)

(** On a simulation with at least one row and one column whose automatons
    all stand on a row of the grid at a non-negative integer column (be it
    past the last column), [step] returns, and the simulation it returns
    is of the same kind, with as many automatons and the same counts of
    rows and columns. *)
Theorem placed_step_returns_placed :
  forall this : AntSim.t,
    placed this ->
    exists this' : AntSim.t,
      AntSim.step this = Returned this'
      /\ placed this'
      /\ List.length (AntSim.ants this') = List.length (AntSim.ants this)
      /\ AntSim.rows this' = AntSim.rows this
      /\ AntSim.cols this' = AntSim.cols this.
Proof. exact step_placed. Qed.

Lemma right_of_grid_placed :
  placed (AntSim.addAnt Examples.fresh (Int 3) (Int 2)
            (Some presetAnts.classic)).
Proof.
  unfold placed. simpl. repeat split; try lia.
  repeat constructor. exists 3, 2. repeat split; lia.
Qed.

Lemma placed_step_returns_placed_witness :
  exists this' : AntSim.t,
    AntSim.step (AntSim.addAnt Examples.fresh (Int 3) (Int 2)
                   (Some presetAnts.classic)) = Returned this'
    /\ placed this'.
Proof.
  destruct (placed_step_returns_placed _ right_of_grid_placed)
    as (this' & Hs & Hp & _).
  exists this'. auto.
Defined.

Lemma step_sequential_witness :
  exists (this' : AntSim.t) (gB' : Grid) (B' : Ant.t),
    AntSim.step
      (AntSim.addAnt Examples.centre_click (Int 1) (Int 1)
         (Some presetAnts.classic)) = Returned this'
    /\ grid_get
         (grid_before
            (AntSim.addAnt Examples.centre_click (Int 1) (Int 1)
               (Some presetAnts.classic)) 1) (Int 1) (Int 1)
       = Ok (Some (Int 1))
    /\ Ant.move (Ant.constructor (Int 1) (Int 1) presetAnts.classic)
         (grid_before
            (AntSim.addAnt Examples.centre_click (Int 1) (Int 1)
               (Some presetAnts.classic)) 1) (Int 3) (Int 3)
       = Ok (gB', B')
    /\ nth_error (AntSim.ants this') 1 = Some B'.
Proof.
  apply (step_sequential
           (AntSim.addAnt Examples.centre_click (Int 1) (Int 1)
              (Some presetAnts.classic))
           [] [] [] (Ant.constructor (Int 1) (Int 1) presetAnts.classic)
           (Ant.constructor (Int 1) (Int 1) presetAnts.classic)
           1 1 (Some (Int 0)) (presetAnts.T 1 1 0)).
  - unfold placed. simpl. repeat split; try lia.
    repeat constructor; exists 1, 1; repeat split; lia.
  - reflexivity.
  - reflexivity.
  - reflexivity.
  - reflexivity.
  - reflexivity.
  - constructor.
  - reflexivity.
  - reflexivity.
Defined.

(** ** Pausing *)

(** While paused, ticks change nothing, however many; the first press of
    the pause button on a running session pauses it and keeps the
    accumulator, and the press that resumes sets the accumulator to 0; two
    presses leave the simulation, the rate and the pause flag as they
    were. *)
Theorem pause_freezes_and_resume_resets :
  forall s : session,
    (paused s = true -> forall n : nat, ticks n s = Returned s)
    /\ (paused s = false ->
        paused (pause_pressed s) = true
        /\ stepAccumulator (pause_pressed s) = stepAccumulator s)
    /\ pause_pressed (pause_pressed s)
       = mkSession (sim s) (paused s) (stepsPerSecond s) (Int 0).
Proof.
  intros s. split; [|split].
  - intros Hp n. induction n as [|n IH]; [reflexivity|].
    simpl. unfold batch_tick. rewrite Hp. exact IH.
  - intros Hp. unfold pause_pressed. rewrite Hp. simpl. auto.
  - unfold pause_pressed. destruct (paused s); reflexivity.
Qed.

Lemma pause_freezes_and_resume_resets_witness :
  ticks 5 (mkSession Examples.edge_click true (Int 20) (Int 0))
  = Returned (mkSession Examples.edge_click true (Int 20) (Int 0)).
Proof.
  apply (proj1 (pause_freezes_and_resume_resets
                  (mkSession Examples.edge_click true (Int 20) (Int 0)))).
  reflexivity.
Defined.

(** ** Copies of configurations *)

(** A validated configuration whose [newColor]s and [nextState]s are not
    NaN, and whose [states] JSON text can hold, is its own deep copy, and
    comes back unchanged from [serializeAntConfig] and [parseAntConfig]:
    its [colors] and [turn]s cannot be NaN once it validates. *)
Theorem validated_config_copies_to_itself :
  forall (tn : value -> number) (text : Type)
         (JSON_stringify : value -> text) (JSON_parse : text -> result value)
         (c : AntConfig),
    json_law JSON_stringify JSON_parse ->
    validateAntConfig tn (config_value c) = Ok tt ->
    json_representable (states c) ->
    Forall (fun t => newColor t <> NaN /\ nextState t <> NaN)
      (transitions c) ->
    deepCopy JSON_stringify JSON_parse (config_value c)
    = Ok (config_value c)
    /\ exists txt : text,
         serializeAntConfig tn text JSON_stringify (config_value c) = Ok txt
         /\ parseAntConfig tn text JSON_parse txt = Ok (config_value c).
Proof.
  intros tn text JSON_stringify JSON_parse c Hlaw Hv Hs Hall.
  pose proof (config_value_representable tn c Hv Hs Hall) as Hrep.
  unfold json_representable in Hrep.
  split.
  - unfold deepCopy. rewrite Hlaw, Hrep. reflexivity.
  - exists (JSON_stringify (config_value c)). split.
    + unfold serializeAntConfig. rewrite Hv. reflexivity.
    + unfold parseAntConfig. rewrite Hlaw, Hrep. cbn [bind]. rewrite Hv.
      reflexivity.
Qed.

Lemma validated_config_copies_to_itself_witness :
  deepCopy json_image (fun v : value => Ok v)
    (config_value presetAnts.threeColor)
  = Ok (config_value presetAnts.threeColor).
Proof.
  apply (validated_config_copies_to_itself Examples.no_conversion value
           json_image (fun v => Ok v) presetAnts.threeColor).
  - intros v. reflexivity.
  - reflexivity.
  - reflexivity.
  - repeat constructor; discriminate.
Defined.

(** ** When [step] throws *)

Lemma move_throws (ant : Ant.t) (g : Grid) (rows cols : number) (e : error) :
  Ant.move ant g rows cols = Throw e ->
  e = TypeError /\ grid_row g (Ant.y ant) = Throw TypeError.
Proof.
  unfold Ant.move, grid_get, grid_set, bind.
  destruct (grid_row g (Ant.y ant)) as [r|e'] eqn:E.
  - destruct (Ant.resolve ant (row_get r (Ant.x ant))); [|discriminate].
    unfold grid_row in E.
    destruct (Num.as_index (Ant.y ant)); [|discriminate].
    destruct (Ant.advance _ rows cols _). discriminate.
  - intros H. injection H as <-.
    unfold grid_row in E |- *.
    destruct (Num.as_index (Ant.y ant)) as [i|].
    + destruct (nth_error g i); [discriminate|].
      injection E as <-. auto.
    + injection E as <-. auto.
Qed.

(** The only error [step] raises is the TypeError of an automaton whose
    row is not a row of the grid.  The automatons before it in the list
    have been moved, one after the other, and the state is left with the
    grid and the automatons of those moves; the automaton that throws and
    the ones behind it are as they were, and moving it on the grid that
    is left throws again. *)
Theorem step_throws_only_on_missing_row :
  forall (this this' : AntSim.t) (e : error),
    AntSim.step this = Thrown e this' ->
    e = TypeError
    /\ exists (before before' after : list Ant.t) (ant : Ant.t),
         AntSim.ants this = before ++ ant :: after
         /\ AntSim.move_all (AntSim.grid this) (Int (AntSim.rows this))
              (Int (AntSim.cols this)) before
            = Returned (AntSim.grid this', before')
         /\ AntSim.ants this' = before' ++ ant :: after
         /\ grid_row (AntSim.grid this') (Ant.y ant) = Throw TypeError
         /\ Ant.move ant (AntSim.grid this') (Int (AntSim.rows this))
              (Int (AntSim.cols this)) = Throw TypeError.
Proof.
  intros this this' e.
  assert (H : forall ants g g' ants',
             AntSim.move_all g (Int (AntSim.rows this))
               (Int (AntSim.cols this)) ants = Thrown e (g', ants') ->
             e = TypeError
             /\ exists before before' after ant,
                  ants = before ++ ant :: after
                  /\ AntSim.move_all g (Int (AntSim.rows this))
                       (Int (AntSim.cols this)) before
                     = Returned (g', before')
                  /\ ants' = before' ++ ant :: after
                  /\ grid_row g' (Ant.y ant) = Throw TypeError
                  /\ Ant.move ant g' (Int (AntSim.rows this))
                       (Int (AntSim.cols this)) = Throw TypeError).
  { induction ants as [|ant rest IH]; intros g g' ants' Hm; simpl in Hm;
      [discriminate|].
    destruct (Ant.move ant g _ _) as [[g1 ant1]|e1] eqn:E.
    - destruct (AntSim.move_all g1 _ _ rest) as [[g2 l2]|e2 [g2 l2]] eqn:E2;
        [discriminate|].
      injection Hm as <- <- <-.
      destruct (IH g1 g2 l2 E2)
        as (He & b & b' & a & x & H1 & H2 & H3 & H4 & H5).
      split; [assumption|].
      exists (ant :: b), (ant1 :: b'), a, x. subst rest l2.
      split; [reflexivity|].
      split; [cbn [AntSim.move_all]; rewrite E, H2; reflexivity|].
      split; [reflexivity|]. split; assumption.
    - injection Hm as <- <- <-.
      destruct (move_throws _ _ _ _ _ E) as (He & Hrow).
      split; [assumption|]. exists [], [], rest, ant.
      split; [reflexivity|]. split; [reflexivity|]. split; [reflexivity|].
      split; [assumption|]. rewrite <- He. exact E. }
  unfold AntSim.step.
  destruct (AntSim.move_all _ _ _ _) as [ga|e' [g' ants']] eqn:E;
    [discriminate|].
  intros Hs. injection Hs as <- <-.
  exact (H _ _ _ _ E).
Qed.

Lemma step_throws_only_on_missing_row_witness :
  exists (before before' after : list Ant.t) (ant : Ant.t),
    AntSim.ants Examples.centre_then_edge = before ++ ant :: after
    /\ AntSim.move_all (AntSim.grid Examples.centre_then_edge)
         (Int (AntSim.rows Examples.centre_then_edge))
         (Int (AntSim.cols Examples.centre_then_edge)) before
       = Returned
           (AntSim.grid (state_of (AntSim.step Examples.centre_then_edge)),
            before')
    /\ AntSim.ants (state_of (AntSim.step Examples.centre_then_edge))
       = before' ++ ant :: after.
Proof.
  destruct (step_throws_only_on_missing_row Examples.centre_then_edge
              (state_of (AntSim.step Examples.centre_then_edge)) TypeError)
    as (_ & before & before' & after & ant & H1 & H2 & H3 & _).
  - vm_compute. reflexivity.
  - exists before, before', after, ant. auto.
Defined.

(** * The neighbour-counting grid of script.js *)

(** ** Cells of a shaped grid *)

Lemma at_nth {A : Type} (l : list A) (i : Z) :
  0 <= i -> Conway.at_ l i = nth_error l (Z.to_nat i).
Proof.
  intros H. unfold Conway.at_.
  destruct (i <? 0) eqn:E; [apply Z.ltb_lt in E; lia | reflexivity].
Qed.

Lemma at_negative {A : Type} (l : list A) (i : Z) :
  i < 0 -> Conway.at_ l i = None.
Proof.
  intros H. unfold Conway.at_.
  destruct (i <? 0) eqn:E; [reflexivity | apply Z.ltb_ge in E; lia].
Qed.

Lemma shaped_row (rows cols : Z) (g : list (list Conway.cellArray)) (r : Z) :
  Life.shaped rows cols g -> 0 <= r < rows ->
  exists row,
    nth_error g (Z.to_nat r) = Some row
    /\ List.length row = Z.to_nat cols
    /\ Forall (fun cell => cell = Conway.dead \/ cell = Conway.alive) row.
Proof.
  intros (Hlen & Hall) Hr.
  destruct (nth_error g (Z.to_nat r)) as [row|] eqn:E.
  - exists row. split; [reflexivity|].
    rewrite Forall_forall in Hall. apply Hall.
    eapply nth_error_In. exact E.
  - apply nth_error_None in E. lia.
Qed.

Lemma shaped_cell (rows cols : Z) (g : list (list Conway.cellArray))
  (r c : Z) :
  Life.shaped rows cols g -> 0 <= r < rows -> 0 <= c < cols ->
  exists cell,
    Conway.cell_at g r c = Ok (Some cell)
    /\ (cell = Conway.dead \/ cell = Conway.alive).
Proof.
  intros Hs Hr Hc.
  destruct (shaped_row rows cols g r Hs Hr) as (row & Hrow & Hlen & Hall).
  destruct (nth_error row (Z.to_nat c)) as [cell|] eqn:E.
  - exists cell. split.
    + unfold Conway.cell_at. rewrite at_nth, Hrow by lia.
      rewrite at_nth by lia. rewrite E. reflexivity.
    + rewrite Forall_forall in Hall. apply Hall.
      eapply nth_error_In. exact E.
  - apply nth_error_None in E. lia.
Qed.

Lemma shaped_status (rows cols : Z) (g : list (list Conway.cellArray))
  (r c : Z) :
  Life.shaped rows cols g -> 0 <= r < rows -> 0 <= c < cols ->
  Conway.status_at g r c = Ok (Life.status g r c)
  /\ (Life.status g r c = 0 \/ Life.status g r c = 1).
Proof.
  intros Hs Hr Hc.
  destruct (shaped_cell rows cols g r c Hs Hr Hc) as (cell & Hcell & Hv).
  unfold Life.status, Conway.status_at. rewrite Hcell. cbn [bind].
  split; [reflexivity|].
  destruct Hv as [-> | ->]; simpl; auto.
Qed.

Lemma set_cell_spec (rows cols : Z) (g : list (list Conway.cellArray))
  (r c : Z) (v : Conway.cellArray) :
  Life.shaped rows cols g -> 0 <= r < rows -> 0 <= c < cols ->
  v = Conway.dead \/ v = Conway.alive ->
  Life.shaped rows cols (Conway.set_cell g r c v)
  /\ Conway.cell_at (Conway.set_cell g r c v) r c = Ok (Some v)
  /\ forall r2 c2 : Z,
       (r2, c2) <> (r, c) ->
       Conway.cell_at (Conway.set_cell g r c v) r2 c2 = Conway.cell_at g r2 c2.
Proof.
  intros Hs Hr Hc Hv.
  destruct (shaped_row rows cols g r Hs Hr) as (row & Hrow & Hlen & Hall).
  assert (Hset : Conway.set_cell g r c v
                 = replace g (Z.to_nat r) (replace row (Z.to_nat c) v)).
  { unfold Conway.set_cell. rewrite at_nth, Hrow by lia. reflexivity. }
  rewrite Hset. destruct Hs as (Hg & Hrows).
  assert (Hr' : (Z.to_nat r < List.length g)%nat) by lia.
  assert (Hc' : (Z.to_nat c < List.length row)%nat) by lia.
  split; [|split].
  - split; [rewrite length_replace; assumption|].
    apply Forall_forall. intros row2 Hin.
    apply In_nth_error in Hin as (i & Hi).
    destruct (Nat.eq_dec i (Z.to_nat r)) as [->|Hne].
    + rewrite nth_error_replace_eq in Hi by assumption.
      injection Hi as <-. split; [rewrite length_replace; assumption|].
      apply Forall_forall. intros cell Hin.
      apply In_nth_error in Hin as (j & Hj).
      destruct (Nat.eq_dec j (Z.to_nat c)) as [->|Hne].
      * rewrite nth_error_replace_eq in Hj by assumption.
        injection Hj as <-. assumption.
      * rewrite nth_error_replace_neq in Hj by congruence.
        rewrite Forall_forall in Hall. apply Hall.
        eapply nth_error_In. exact Hj.
    + rewrite nth_error_replace_neq in Hi by congruence.
      rewrite Forall_forall in Hrows. apply Hrows.
      eapply nth_error_In. exact Hi.
  - unfold Conway.cell_at. rewrite at_nth by lia.
    rewrite nth_error_replace_eq by assumption.
    rewrite at_nth by lia. rewrite nth_error_replace_eq by assumption.
    reflexivity.
  - intros r2 c2 Hne. unfold Conway.cell_at.
    destruct (Z_lt_le_dec r2 0) as [Hneg|Hpos].
    + rewrite !at_negative by assumption. reflexivity.
    + rewrite !(at_nth _ r2) by assumption.
      destruct (Z.eq_dec r2 r) as [->|Hr2].
      * rewrite nth_error_replace_eq, Hrow by assumption. f_equal.
        destruct (Z_lt_le_dec c2 0) as [Hneg|Hpos2].
        -- rewrite !at_negative by assumption. reflexivity.
        -- rewrite !(at_nth _ c2) by assumption.
           apply nth_error_replace_neq. intros E.
           apply Hne. f_equal. lia.
      * rewrite nth_error_replace_neq by lia. reflexivity.
Qed.

(** ** Counting neighbours *)

Lemma wrap_rem (a d n : Z) :
  0 <= a < n -> -1 <= d <= 1 ->
  Z.rem (a + d + n) n = (a + d) mod n /\ 0 <= (a + d) mod n < n.
Proof.
  intros Ha Hd. split.
  - rewrite Z.rem_mod_nonneg by lia.
    replace (a + d + n) with (a + d + 1 * n) by lia.
    apply Z.mod_add. lia.
  - apply Z.mod_pos_bound. lia.
Qed.

Lemma count_from_spec (rows cols : Z) (g : list (list Conway.cellArray))
  (r c : Z) (ds : list (Z * Z)) (count : Z) :
  Life.shaped rows cols g -> 0 <= r < rows -> 0 <= c < cols ->
  Forall (fun d => -1 <= fst d <= 1 /\ -1 <= snd d <= 1) ds ->
  Conway.count_from rows cols g r c ds count
  = Ok (fold_left
          (fun n d =>
             if Life.status g ((r + fst d) mod rows) ((c + snd d) mod cols)
                =? 1
             then n + 1 else n) ds count).
Proof.
  intros Hs Hr Hc. revert count.
  induction ds as [|[dx dy] ds IH]; intros count Hds; [reflexivity|].
  inversion Hds as [|? ? (Hx & Hy) Hrest]; subst. simpl in Hx, Hy.
  destruct (wrap_rem r dx rows Hr Hx) as (Er & Br).
  destruct (wrap_rem c dy cols Hc Hy) as (Ec & Bc).
  cbn [Conway.count_from fold_left fst snd]. rewrite Er, Ec.
  destruct (shaped_status rows cols g _ _ Hs Br Bc) as (Hst & _).
  rewrite Hst. cbn [bind]. apply IH. assumption.
Qed.

Lemma directions_near :
  Forall (fun d => -1 <= fst d <= 1 /\ -1 <= snd d <= 1) Conway.directions.
Proof. repeat constructor; simpl; lia. Qed.

Lemma cellNextState_spec (rows cols : Z) (g : list (list Conway.cellArray))
  (r c : Z) :
  Life.shaped rows cols g -> 0 <= r < rows -> 0 <= c < cols ->
  Conway.cellNextState rows cols g r c
  = Ok (if Life.next (Life.status g r c) (Life.neighbours rows cols g r c)
           =? 1
        then Conway.Alive else Conway.Dead).
Proof.
  intros Hs Hr Hc. unfold Conway.cellNextState, Conway.countAliveNeighbors.
  replace ((rows =? 0) || (cols =? 0)) with false.
  2:{ symmetry. apply orb_false_iff. split; apply Z.eqb_neq; lia. }
  rewrite (count_from_spec rows cols g r c _ 0 Hs Hr Hc directions_near).
  fold (Life.neighbours rows cols g r c). cbn [bind].
  destruct (shaped_status rows cols g r c Hs Hr Hc) as (Hst & Hv).
  rewrite Hst. cbn [bind]. unfold Life.next.
  destruct Hv as [-> | ->]; simpl.
  - destruct (Life.neighbours rows cols g r c =? 3); reflexivity.
  - destruct ((Life.neighbours rows cols g r c =? 2)
              || (Life.neighbours rows cols g r c =? 3)); reflexivity.
Qed.

Lemma add_In (d : list (Z * Z)) (key k : Z * Z) :
  In k (Conway.add d key) <-> In k d \/ k = key.
Proof.
  unfold Conway.add. destruct (existsb (Conway.key_eqb key) d) eqn:E.
  - split; [auto|]. intros [H | ->]; [assumption|].
    apply existsb_exists in E as (x & Hin & Hx).
    unfold Conway.key_eqb in Hx. apply andb_prop in Hx as [H1 H2].
    apply Z.eqb_eq in H1. apply Z.eqb_eq in H2.
    destruct key, x. simpl in *. subst. assumption.
  - rewrite in_app_iff. simpl. intuition congruence.
Qed.

Lemma fresh_shaped (rows cols : Z) :
  Life.shaped rows cols (Conway.fresh rows cols)
  /\ forall r c : Z, 0 <= r < rows -> 0 <= c < cols ->
       Conway.cell_at (Conway.fresh rows cols) r c = Ok (Some Conway.dead).
Proof.
  unfold Conway.fresh. split.
  - split; [apply repeat_length|].
    apply Forall_forall. intros row Hin. apply repeat_spec in Hin. subst.
    split; [apply repeat_length|].
    apply Forall_forall. intros cell Hin. apply repeat_spec in Hin. auto.
  - intros r c Hr Hc. unfold Conway.cell_at.
    rewrite at_nth by lia. rewrite nth_error_repeat by lia.
    rewrite at_nth by lia. rewrite nth_error_repeat by lia. reflexivity.
Qed.

(** ** One generation *)

Lemma next_cell (s n : Z) :
  (if Life.next s n =? 1 then Conway.alive else Conway.dead)
  = (Life.next s n, 1)
  /\ (Life.next s n = 0 \/ Life.next s n = 1).
Proof.
  unfold Life.next.
  destruct (s =? 1); [destruct ((n =? 2) || (n =? 3)) | destruct (n =? 3)];
    simpl; auto.
Qed.

Lemma update_loops (rows cols : Z) (g : list (list Conway.cellArray))
  (d0 : list (Z * Z)) :
  Life.shaped rows cols g ->
  exists (newGrid : list (list Conway.cellArray)) (dirty : list (Z * Z)),
    for_each
      (fun nd row => for_each (Conway.update_cell rows cols g row)
                       (seq 0 (Z.to_nat cols)) nd)
      (seq 0 (Z.to_nat rows)) (Conway.fresh rows cols, d0)
    = Returned (newGrid, dirty)
    /\ Life.shaped rows cols newGrid
    /\ (forall r c : Z, 0 <= r < rows -> 0 <= c < cols ->
          Conway.cell_at newGrid r c
          = Ok (Some (Life.next (Life.status g r c)
                        (Life.neighbours rows cols g r c), 1)))
    /\ (forall key : Z * Z,
          In key dirty <->
          In key d0
          \/ (Life.inside rows cols key
              /\ Life.next (Life.status g (fst key) (snd key))
                   (Life.neighbours rows cols g (fst key) (snd key))
                 <> Life.status g (fst key) (snd key))).
Proof.
  intros Hs.
  pose (exp := fun r c : Z =>
          Life.next (Life.status g r c) (Life.neighbours rows cols g r c)).
  pose (done := fun (k j : nat) (r c : Z) =>
          (r < Z.of_nat k /\ c < cols)
          \/ (r = Z.of_nat k /\ c < Z.of_nat j)).
  pose (Inv := fun (k j : nat) (nd : list (list Conway.cellArray)
                                     * list (Z * Z)) =>
          Life.shaped rows cols (fst nd)
          /\ (forall r c, 0 <= r < rows -> 0 <= c < cols ->
                (done k j r c ->
                   Conway.cell_at (fst nd) r c = Ok (Some (exp r c, 1)))
                /\ (~ done k j r c ->
                   Conway.cell_at (fst nd) r c = Ok (Some Conway.dead)))
          /\ (forall key, In key (snd nd) <->
                In key d0
                \/ (Life.inside rows cols key
                    /\ done k j (fst key) (snd key)
                    /\ exp (fst key) (snd key)
                       <> Life.status g (fst key) (snd key)))).
  assert (Hinner : forall k nd, (k < Z.to_nat rows)%nat -> Inv k O nd ->
            exists nd',
              for_each (Conway.update_cell rows cols g k)
                (seq 0 (Z.to_nat cols)) nd = Returned nd'
              /\ Inv (S k) O nd').
  { intros k nd Hk H1.
    destruct (for_each_seq_inv (Conway.update_cell rows cols g k) (Inv k)
                (Z.to_nat cols) O nd H1) as (nd' & E & H2).
    - intros j [ng d] Hj (Hsh & Hcells & Hdirty). cbn [fst snd] in *.
      assert (Hr : 0 <= Z.of_nat k < rows) by lia.
      assert (Hc : 0 <= Z.of_nat j < cols) by lia.
      unfold Conway.update_cell. cbn [fst snd].
      rewrite (cellNextState_spec rows cols g _ _ Hs Hr Hc).
      fold (exp (Z.of_nat k) (Z.of_nat j)).
      destruct (next_cell (Life.status g (Z.of_nat k) (Z.of_nat j))
                  (Life.neighbours rows cols g (Z.of_nat k) (Z.of_nat j)))
        as (Ecell & Hval).
      fold (exp (Z.of_nat k) (Z.of_nat j)) in Ecell, Hval.
      set (v := if exp (Z.of_nat k) (Z.of_nat j) =? 1
                then Conway.alive else Conway.dead) in *.
      assert (Hv : v = Conway.dead \/ v = Conway.alive)
        by (subst v; destruct (exp _ _ =? 1); auto).
      destruct (set_cell_spec rows cols ng _ _ v Hsh Hr Hc Hv)
        as (Hsh' & Hread & Hother).
      assert (Eng : match (if exp (Z.of_nat k) (Z.of_nat j) =? 1
                           then Conway.Alive else Conway.Dead) with
                    | Conway.Alive =>
                        Conway.set_cell ng (Z.of_nat k) (Z.of_nat j)
                          Conway.alive
                    | Conway.Dead =>
                        Conway.set_cell ng (Z.of_nat k) (Z.of_nat j)
                          Conway.dead
                    | Conway.Neither => ng
                    end
                    = Conway.set_cell ng (Z.of_nat k) (Z.of_nat j) v).
      { subst v. destruct (exp _ _ =? 1); reflexivity. }
      rewrite Eng.
      assert (Est : Conway.status_at
                      (Conway.set_cell ng (Z.of_nat k) (Z.of_nat j) v)
                      (Z.of_nat k) (Z.of_nat j)
                    = Ok (exp (Z.of_nat k) (Z.of_nat j))).
      { unfold Conway.status_at. rewrite Hread. cbn [bind].
        rewrite Ecell. reflexivity. }
      rewrite Est.
      destruct (shaped_status rows cols g _ _ Hs Hr Hc) as (Hold & _).
      rewrite Hold.
      eexists. split; [reflexivity|].
      split; [exact Hsh'|]. cbn [fst snd]. split.
      + intros r c Hr2 Hc2.
        destruct (Z.eq_dec r (Z.of_nat k)) as [->|Hrk];
          [destruct (Z.eq_dec c (Z.of_nat j)) as [->|Hcj]|].
        * split; intros Hd.
          -- rewrite Hread, Ecell. reflexivity.
          -- exfalso. apply Hd. unfold done. lia.
        * rewrite Hother by congruence.
          destruct (Hcells (Z.of_nat k) c Hr2 Hc2) as [Ha Hb].
          split; intros Hd; [apply Ha | apply Hb]; unfold done in *; lia.
        * rewrite Hother by congruence.
          destruct (Hcells r c Hr2 Hc2) as [Ha Hb].
          split; intros Hd; [apply Ha | apply Hb]; unfold done in *; lia.
      + intros key.
        assert (Hstep : done k (S j) (fst key) (snd key) <->
                        done k j (fst key) (snd key)
                        \/ key = (Z.of_nat k, Z.of_nat j)).
        { destruct key as [kr kc]. unfold done. cbn [fst snd]. split.
          - intros [H|[H1' H2']]; [auto|].
            destruct (Z.eq_dec kc (Z.of_nat j)) as [->|Hne];
              [right; congruence | left; right; lia].
          - intros [[H|H]|H]; [auto | right; lia |].
            injection H as -> ->. right. lia. }
        destruct (exp (Z.of_nat k) (Z.of_nat j)
                  =? Life.status g (Z.of_nat k) (Z.of_nat j)) eqn:Eq.
        * apply Z.eqb_eq in Eq. rewrite Hdirty, Hstep. split.
          -- intros [H|(Hi & Hd & Hn)]; auto.
          -- intros [H|(Hi & [Hd|Hk'] & Hn)]; auto.
             subst key. cbn [fst snd] in Hn. contradiction.
        * apply Z.eqb_neq in Eq. rewrite add_In, Hdirty, Hstep. split.
          -- intros [[H|(Hi & Hd & Hn)]|H]; auto.
             subst key. right. unfold Life.inside. cbn [fst snd].
             repeat split; auto; lia.
          -- intros [H|(Hi & [Hd|Hk'] & Hn)]; auto.
    - exists nd'. split; [exact E|].
      destruct H2 as (Hsh & Hcells & Hdirty). split; [exact Hsh|]. split.
      + intros r c Hr Hc. destruct (Hcells r c Hr Hc) as [Ha Hb].
        split; intros Hd; [apply Ha | apply Hb]; unfold done in *; lia.
      + intros key. rewrite Hdirty. unfold Life.inside, done.
        split; (intros [H|(Hi & Hd & Hn)]; [auto|]); right;
          (split; [assumption|]); (split; [|assumption]); lia. }
  destruct (for_each_seq_inv
              (fun nd row => for_each (Conway.update_cell rows cols g row)
                               (seq 0 (Z.to_nat cols)) nd)
              (fun k => Inv k O) (Z.to_nat rows) O
              (Conway.fresh rows cols, d0)) as ([ng d] & E & H').
  - destruct (fresh_shaped rows cols) as (Hf & Hdead).
    split; [exact Hf|]. cbn [fst snd]. split.
    + intros r c Hr Hc. split; intros Hd.
      * unfold done in Hd. lia.
      * apply Hdead; assumption.
    + intros key. unfold done, Life.inside. split; [auto|].
      intros [H|(Hi & Hd & _)]; [assumption | lia].
  - intros k nd Hk H1. apply Hinner; [lia | assumption].
  - exists ng, d. split; [exact E|].
    destruct H' as (Hsh & Hcells & Hdirty). cbn [fst snd] in *.
    split; [exact Hsh|]. split.
    + intros r c Hr Hc. apply Hcells; try assumption. unfold done. lia.
    + intros key. rewrite Hdirty. unfold Life.inside, done, exp.
      split; (intros [H|H]; [auto|]); right; intuition lia.
Qed.

Lemma status_of_cell (g : list (list Conway.cellArray)) (r c s o : Z) :
  Conway.cell_at g r c = Ok (Some (s, o)) -> Life.status g r c = s.
Proof.
  intros H. unfold Life.status, Conway.status_at. rewrite H. reflexivity.
Qed.

(** On a grid of [rows] rows of [cols] cells [[0, 1]] or [[1, 1]], one
    call of [updateGridConway], when not paused, returns a grid of the
    same shape in which every cell has the status the rule gives it from
    its old status and the old statuses of its eight neighbours on the
    wrapped grid (alive with 2 or 3 alive neighbours stays alive, dead
    with exactly 3 becomes alive, anything else is dead), with opacity 1;
    and the dirty set gains exactly the cells whose status changed. *)
Theorem generation_applies_rule :
  forall (rows cols : Z) (st : Conway.state),
    Life.shaped rows cols (Conway.grid st) ->
    Conway.isPaused st = false ->
    exists st' : Conway.state,
      Conway.updateGridConway rows cols st = Returned st'
      /\ Life.shaped rows cols (Conway.grid st')
      /\ Conway.isDrawing st' = Conway.isDrawing st
      /\ Conway.isPaused st' = false
      /\ (forall r c : Z, 0 <= r < rows -> 0 <= c < cols ->
            Conway.cell_at (Conway.grid st') r c
            = Ok (Some (Life.next (Life.status (Conway.grid st) r c)
                          (Life.neighbours rows cols (Conway.grid st) r c),
                        1)))
      /\ (forall key : Z * Z,
            In key (Conway.dirtyCells st') <->
            In key (Conway.dirtyCells st)
            \/ (Life.inside rows cols key
                /\ Life.status (Conway.grid st') (fst key) (snd key)
                   <> Life.status (Conway.grid st) (fst key) (snd key))).
Proof.
  intros rows cols st Hs Hp.
  destruct (update_loops rows cols (Conway.grid st) (Conway.dirtyCells st) Hs)
    as (ng & d & Hloop & Hsh & Hcells & Hdirty).
  exists (Conway.mk ng (Conway.isDrawing st) (Conway.isPaused st) d).
  split.
  { unfold Conway.updateGridConway. rewrite Hp, Hloop. reflexivity. }
  cbn [Conway.grid Conway.isDrawing Conway.isPaused Conway.dirtyCells].
  split; [exact Hsh|]. split; [reflexivity|]. split; [exact Hp|].
  split; [exact Hcells|].
  intros key. rewrite Hdirty. split; (intros [H|(Hi & Hn)]; [auto|]); right;
    (split; [exact Hi|]); destruct Hi as (Hr & Hc);
    rewrite (status_of_cell _ _ _ _ _ (Hcells _ _ Hr Hc)) in *; exact Hn.
Qed.

Lemma generation_applies_rule_witness :
  exists st' : Conway.state,
    Conway.updateGridConway 3 3
      (Conway.mk [[Conway.dead; Conway.alive; Conway.dead];
                  [Conway.dead; Conway.alive; Conway.dead];
                  [Conway.dead; Conway.alive; Conway.dead]] false false [])
    = Returned st'
    /\ Life.shaped 3 3 (Conway.grid st').
Proof.
  destruct (generation_applies_rule 3 3
              (Conway.mk [[Conway.dead; Conway.alive; Conway.dead];
                          [Conway.dead; Conway.alive; Conway.dead];
                          [Conway.dead; Conway.alive; Conway.dead]]
                 false false [])) as (st' & Hu & Hs & _).
  - split; [reflexivity|].
    repeat (apply Forall_cons || apply Forall_nil || split);
      try reflexivity; auto.
  - reflexivity.
  - exists st'. auto.
Defined.

Lemma uniform_neighbours (rows cols : Z) (g : list (list Conway.cellArray))
  (s0 r c : Z) :
  0 < rows -> 0 < cols ->
  (forall r c : Z, 0 <= r < rows -> 0 <= c < cols -> Life.status g r c = s0) ->
  Life.neighbours rows cols g r c = if s0 =? 1 then 8 else 0.
Proof.
  intros Hr Hc H. unfold Life.neighbours, Conway.directions.
  cbn [fold_left fst snd].
  rewrite !H by (apply Z.mod_pos_bound; assumption).
  destruct (s0 =? 1); reflexivity.
Qed.

(** A grid without any alive cell stays so through a generation, which
    marks no cell dirty; a grid whose cells are all alive dies whole in
    one generation, every cell having eight alive neighbours on the
    wrapped grid, and every cell is marked dirty. *)
Theorem uniform_grids_end_dead :
  forall (rows cols s0 : Z) (st : Conway.state),
    Life.shaped rows cols (Conway.grid st) ->
    Conway.isPaused st = false ->
    (forall r c : Z, 0 <= r < rows -> 0 <= c < cols ->
       Life.status (Conway.grid st) r c = s0) ->
    exists st' : Conway.state,
      Conway.updateGridConway rows cols st = Returned st'
      /\ (forall r c : Z, 0 <= r < rows -> 0 <= c < cols ->
            Conway.cell_at (Conway.grid st') r c = Ok (Some Conway.dead))
      /\ (forall key : Z * Z,
            In key (Conway.dirtyCells st') <->
            In key (Conway.dirtyCells st)
            \/ (Life.inside rows cols key /\ s0 = 1)).
Proof.
  intros rows cols s0 st Hs Hp Hall.
  destruct (update_loops rows cols (Conway.grid st) (Conway.dirtyCells st) Hs)
    as (ng & d & Hloop & Hsh & Hcells & Hdirty).
  exists (Conway.mk ng (Conway.isDrawing st) (Conway.isPaused st) d).
  split.
  { unfold Conway.updateGridConway. rewrite Hp, Hloop. reflexivity. }
  cbn [Conway.grid Conway.dirtyCells].
  assert (Hnext : forall r c, 0 <= r < rows -> 0 <= c < cols ->
            Life.next (Life.status (Conway.grid st) r c)
              (Life.neighbours rows cols (Conway.grid st) r c) = 0).
  { intros r c Hr Hc.
    rewrite (uniform_neighbours rows cols _ s0 r c) by (lia || assumption).
    rewrite (Hall r c Hr Hc).
    destruct (shaped_status rows cols _ r c Hs Hr Hc) as (_ & Hv).
    rewrite (Hall r c Hr Hc) in Hv. destruct Hv as [-> | ->]; reflexivity. }
  split.
  - intros r c Hr Hc. rewrite (Hcells r c Hr Hc), (Hnext r c Hr Hc).
    reflexivity.
  - intros key. rewrite Hdirty.
    split; (intros [H|(Hi & Hn)]; [auto|]); right; (split; [exact Hi|]);
      destruct Hi as (Hr & Hc).
    + rewrite (Hnext _ _ Hr Hc), (Hall _ _ Hr Hc) in Hn.
      destruct (shaped_status rows cols _ _ _ Hs Hr Hc) as (_ & Hv).
      rewrite (Hall _ _ Hr Hc) in Hv. lia.
    + rewrite (Hnext _ _ Hr Hc), (Hall _ _ Hr Hc). lia.
Qed.

Lemma uniform_grids_end_dead_witness :
  exists st' : Conway.state,
    Conway.updateGridConway 2 2
      (Conway.mk [[Conway.alive; Conway.alive];
                  [Conway.alive; Conway.alive]] false false [])
    = Returned st'
    /\ Conway.cell_at (Conway.grid st') 1 1 = Ok (Some Conway.dead).
Proof.
  destruct (uniform_grids_end_dead 2 2 1
              (Conway.mk [[Conway.alive; Conway.alive];
                          [Conway.alive; Conway.alive]] false false []))
    as (st' & Hu & Hc & _).
  - split; [reflexivity|].
    repeat (apply Forall_cons || apply Forall_nil || split);
      try reflexivity; auto.
  - reflexivity.
  - intros r c Hr Hc.
    assert (Hr' : r = 0 \/ r = 1) by lia.
    assert (Hc' : c = 0 \/ c = 1) by lia.
    destruct Hr' as [ -> | -> ]; destruct Hc' as [ -> | -> ]; reflexivity.
  - exists st'. split; [exact Hu|]. apply Hc; lia.
Defined.

(** ** Strokes of the pointer *)

Lemma changeSquareColor_inside (rows cols : Z) (st : Conway.state)
  (row col : Z) :
  Life.shaped rows cols (Conway.grid st) ->
  0 <= row < rows -> 0 <= col < cols ->
  Conway.changeSquareColor st row col
  = Conway.mk (Conway.set_cell (Conway.grid st) row col Conway.alive)
      (Conway.isDrawing st) (Conway.isPaused st)
      (Conway.add (Conway.dirtyCells st) (row, col)).
Proof.
  intros Hs Hr Hc.
  destruct (shaped_cell rows cols _ row col Hs Hr Hc) as (cell & Hcell & _).
  unfold Conway.changeSquareColor. unfold Conway.cell_at in Hcell.
  destruct (Conway.at_ (Conway.grid st) row) as [r|]; [|discriminate].
  injection Hcell as Hcell. rewrite Hcell. reflexivity.
Qed.

Lemma changeSquareColor_outside (rows cols : Z) (st : Conway.state)
  (row col : Z) :
  Life.shaped rows cols (Conway.grid st) ->
  ~ (0 <= row < rows /\ 0 <= col < cols) ->
  Conway.changeSquareColor st row col = st.
Proof.
  intros Hs Hout. unfold Conway.changeSquareColor.
  destruct (Conway.at_ (Conway.grid st) row) as [r|] eqn:Er; [|reflexivity].
  destruct (Conway.at_ r col) as [cell|] eqn:Ec; [|reflexivity].
  exfalso. apply Hout.
  destruct (Z_lt_le_dec row 0) as [Hn|Hp];
    [rewrite at_negative in Er by assumption; discriminate|].
  rewrite at_nth in Er by assumption.
  destruct (Z_lt_le_dec col 0) as [Hn|Hp2];
    [rewrite at_negative in Ec by assumption; discriminate|].
  rewrite at_nth in Ec by assumption.
  destruct Hs as (Hlen & Hall).
  assert (Hr : (Z.to_nat row < List.length (Conway.grid st))%nat)
    by (apply nth_error_Some; congruence).
  assert (Hc : (Z.to_nat col < List.length r)%nat)
    by (apply nth_error_Some; congruence).
  rewrite Forall_forall in Hall.
  destruct (Hall r (nth_error_In _ _ Er)) as (Hlr & _). lia.
Qed.

Lemma changeSquareColor_flags (st : Conway.state) (row col : Z) :
  Conway.isDrawing (Conway.changeSquareColor st row col) = Conway.isDrawing st
  /\ Conway.isPaused (Conway.changeSquareColor st row col)
     = Conway.isPaused st.
Proof.
  unfold Conway.changeSquareColor.
  destruct (Conway.at_ (Conway.grid st) row) as [r|]; [|auto].
  destruct (Conway.at_ r col); auto.
Qed.

Lemma changeSquareColor_cells (st st2 : Conway.state) (row col : Z) :
  Conway.grid st2 = Conway.grid st ->
  Conway.dirtyCells st2 = Conway.dirtyCells st ->
  Conway.grid (Conway.changeSquareColor st2 row col)
  = Conway.grid (Conway.changeSquareColor st row col)
  /\ Conway.dirtyCells (Conway.changeSquareColor st2 row col)
     = Conway.dirtyCells (Conway.changeSquareColor st row col).
Proof.
  intros Hg Hd. unfold Conway.changeSquareColor. rewrite Hg, Hd.
  destruct (Conway.at_ (Conway.grid st) row) as [r|]; [|auto].
  destruct (Conway.at_ r col);
    cbn [Conway.grid Conway.dirtyCells]; rewrite ?Hg, ?Hd; auto.
Qed.

(** The press of the button sets [isDrawing] and [isPaused]; a movement of
    the pointer while [isDrawing] leaves the two flags alone and does to
    the cells and to the dirty set what the press does, and a movement
    while not drawing changes nothing.  At a pixel [(x, y)] of the grid,
    counted in whole pixels from the corner of the canvas, the press
    makes the cell that holds the pixel alive and marks it dirty, and
    leaves every other cell as it is; at a pixel that belongs to no cell
    it changes no cell and marks none. *)
Theorem stroke_revives_the_cell_under_the_pointer :
  forall (rows cols : Z) (st : Conway.state) (x y : Z),
    Life.shaped rows cols (Conway.grid st) ->
    let down := Conway.mousedown st x y in
    let moved := Conway.mousemove st x y in
    (Conway.isDrawing down = true /\ Conway.isPaused down = true)
    /\ (Conway.isDrawing st = false -> moved = st)
    /\ (Conway.isDrawing st = true ->
        Conway.grid moved = Conway.grid down
        /\ Conway.dirtyCells moved = Conway.dirtyCells down
        /\ Conway.isDrawing moved = true
        /\ Conway.isPaused moved = Conway.isPaused st)
    /\ (0 <= x < 4 * cols -> 0 <= y < 4 * rows ->
        exists row col : Z,
          4 * row <= y < 4 * (row + 1) /\ 4 * col <= x < 4 * (col + 1)
          /\ Conway.cell_at (Conway.grid down) row col
             = Ok (Some Conway.alive)
          /\ (forall r c : Z, (r, c) <> (row, col) ->
                Conway.cell_at (Conway.grid down) r c
                = Conway.cell_at (Conway.grid st) r c)
          /\ (forall key : Z * Z,
                In key (Conway.dirtyCells down) <->
                In key (Conway.dirtyCells st) \/ key = (row, col))
          /\ Life.shaped rows cols (Conway.grid down))
    /\ (~ (0 <= x < 4 * cols /\ 0 <= y < 4 * rows) ->
        Conway.grid down = Conway.grid st
        /\ Conway.dirtyCells down = Conway.dirtyCells st).
Proof.
  intros rows cols st x y Hs down moved. subst down moved.
  set (held := Conway.mk (Conway.grid st) true true (Conway.dirtyCells st)).
  assert (Hh : Life.shaped rows cols (Conway.grid held)) by exact Hs.
  unfold Conway.mousedown, Conway.mousemove, Conway.changeSquareColorAtEvent,
    Conway.squareSize.
  fold held.
  pose proof (Z.mul_div_le x 4 ltac:(lia)).
  pose proof (Z.mul_succ_div_gt x 4 ltac:(lia)).
  pose proof (Z.mul_div_le y 4 ltac:(lia)).
  pose proof (Z.mul_succ_div_gt y 4 ltac:(lia)).
  split; [apply (changeSquareColor_flags held)|].
  split; [intros ->; reflexivity|].
  split.
  { intros Hd. rewrite Hd.
    destruct (changeSquareColor_cells st held (y / 4) (x / 4)
                eq_refl eq_refl) as (Hg & Hk).
    destruct (changeSquareColor_flags st (y / 4) (x / 4)) as (Hf1 & Hf2).
    rewrite Hg, Hk, Hf1, Hf2. auto. }
  split.
  - intros Hx Hy.
    assert (Hr : 0 <= y / 4 < rows)
      by (split; [apply Z.div_pos; lia | apply Z.div_lt_upper_bound; lia]).
    assert (Hc : 0 <= x / 4 < cols)
      by (split; [apply Z.div_pos; lia | apply Z.div_lt_upper_bound; lia]).
    rewrite (changeSquareColor_inside rows cols held _ _ Hh Hr Hc).
    cbn [Conway.grid Conway.dirtyCells held].
    destruct (set_cell_spec rows cols (Conway.grid st) (y / 4) (x / 4)
                Conway.alive Hs Hr Hc (or_intror eq_refl))
      as (Hsh & Hread & Hother).
    exists (y / 4), (x / 4).
    split; [lia|]. split; [lia|]. split; [exact Hread|].
    split; [exact Hother|]. split; [intros key; apply add_In|].
    exact Hsh.
  - intros Hout.
    rewrite (changeSquareColor_outside rows cols held); [auto|assumption|].
    intros (Hr & Hc). apply Hout. split; lia.
Qed.

Lemma stroke_revives_the_cell_under_the_pointer_witness :
  exists row col : Z,
    Conway.cell_at
      (Conway.grid
         (Conway.mousedown (Conway.mk (Conway.fresh 3 3) false false []) 9 2))
      row col = Ok (Some Conway.alive)
    /\ 4 * col <= 9 < 4 * (col + 1)
    /\ Conway.dirtyCells
         (Conway.mousedown (Conway.mk (Conway.fresh 3 3) false false []) 9 2)
       = [(row, col)].
Proof.
  destruct (stroke_revives_the_cell_under_the_pointer 3 3
              (Conway.mk (Conway.fresh 3 3) false false []) 9 2)
    as (_ & _ & _ & H & _).
  - apply fresh_shaped.
  - destruct H as (row & col & Hr & Hc & Hcell & _); try lia.
    exists row, col. split; [exact Hcell|]. split; [exact Hc|].
    assert (E : row = 0 /\ col = 2) by lia. destruct E as (-> & ->).
    reflexivity.
Defined.

Lemma drag_flags (pts : list (Z * Z)) (st : Conway.state) :
  Conway.isDrawing (Conway.drag st pts) = Conway.isDrawing st
  /\ Conway.isPaused (Conway.drag st pts) = Conway.isPaused st.
Proof.
  revert st. induction pts as [|p pts IH]; intros st; [auto|].
  unfold Conway.drag in *. cbn [fold_left].
  destruct (IH (Conway.mousemove st (fst p) (snd p))) as (Hd & Hp).
  rewrite Hd, Hp. unfold Conway.mousemove.
  destruct (Conway.isDrawing st) eqn:E; [|auto].
  unfold Conway.changeSquareColorAtEvent.
  destruct (changeSquareColor_flags st (snd p / Conway.squareSize)
              (fst p / Conway.squareSize)) as (H1 & H2).
  rewrite H1, H2. auto.
Qed.

(** From the press of the button, through any movement of the pointer,
    until its release, the timer's calls of [updateGridConway] return
    without changing anything; the release (or leaving the canvas) lets
    them run again and changes neither the grid nor the dirty set; and
    movement without a press changes nothing. *)
Theorem held_pointer_suspends_generations :
  forall (rows cols : Z) (st : Conway.state) (x y : Z) (pts : list (Z * Z)),
    let held := Conway.drag (Conway.mousedown st x y) pts in
    Conway.updateGridConway rows cols held = Returned held
    /\ Conway.isDrawing held = true
    /\ Conway.isPaused (Conway.mouseup held) = false
    /\ Conway.isDrawing (Conway.mouseup held) = false
    /\ Conway.grid (Conway.mouseup held) = Conway.grid held
    /\ Conway.dirtyCells (Conway.mouseup held) = Conway.dirtyCells held
    /\ Conway.mouseleave held = Conway.mouseup held
    /\ Conway.drag (Conway.mouseup held) pts = Conway.mouseup held.
Proof.
  intros rows cols st x y pts held.
  destruct (drag_flags pts (Conway.mousedown st x y)) as (Hd & Hp).
  fold held in Hd, Hp.
  assert (Hdown : Conway.isDrawing (Conway.mousedown st x y) = true
                  /\ Conway.isPaused (Conway.mousedown st x y) = true).
  { unfold Conway.mousedown, Conway.changeSquareColorAtEvent.
    destruct (changeSquareColor_flags
                (Conway.mk (Conway.grid st) true true (Conway.dirtyCells st))
                (y / Conway.squareSize) (x / Conway.squareSize)) as (H1 & H2).
    rewrite H1, H2. auto. }
  destruct Hdown as (Hd0 & Hp0). rewrite Hd0 in Hd. rewrite Hp0 in Hp.
  split; [unfold Conway.updateGridConway; rewrite Hp; reflexivity|].
  split; [exact Hd|].
  repeat (split; [reflexivity|]).
  generalize (Conway.mouseup held) (eq_refl : Conway.isDrawing
                                       (Conway.mouseup held) = false).
  clear. induction pts as [|p pts IH]; intros s Hs; [reflexivity|].
  unfold Conway.drag in *. cbn [fold_left].
  unfold Conway.mousemove at 2. rewrite Hs. apply IH, Hs.
Qed.

(** ** Frames *)

Lemma paint_sound (rows cols : Z) (g : list (list Conway.cellArray))
  (keys : list (Z * Z)) :
  Life.shaped rows cols g ->
  Forall (Life.inside rows cols) keys ->
  Conway.paint g keys
  = (map (fun key =>
            (Life.colour_of g key,
             (snd key * 4, fst key * 4, 4, 4))) keys,
     Conway.Finished).
Proof.
  intros Hs Hk. induction Hk as [|[row col] rest (Hr & Hc) _ IH];
    [reflexivity|].
  cbn [fst snd] in Hr, Hc. cbn [Conway.paint map fst snd].
  destruct (shaped_cell rows cols g row col Hs Hr Hc) as (cell & Hcell & Hv).
  rewrite Hcell, IH. unfold Life.colour_of, Life.status, Conway.status_at.
  cbn [fst snd]. rewrite Hcell. cbn [bind].
  destruct Hv as [-> | ->]; reflexivity.
Qed.

(** With a grid of cells [[0, 1]] or [[1, 1]] and dirty keys that are
    cells of it, [drawGrid] does not throw: it fills, in the order the keys
    were added, one square of side 4 per dirty key, at [(4 col, 4 row)],
    in the square colour for a cell of status 1 and the background colour
    for one of status 0, with opacity 1; it then empties the dirty set,
    and leaves the grid and the flags alone. *)
Theorem frame_paints_each_dirty_cell_once :
  forall (rows cols : Z) (st : Conway.state),
    Life.sound rows cols st ->
    Conway.drawGrid st
    = (Conway.mk (Conway.grid st) (Conway.isDrawing st) (Conway.isPaused st)
         [],
       map (fun key =>
              (Life.colour_of (Conway.grid st) key,
               (snd key * 4, fst key * 4, 4, 4))) (Conway.dirtyCells st),
       Conway.Finished).
Proof.
  intros rows cols st (Hs & Hk). unfold Conway.drawGrid.
  rewrite (paint_sound rows cols _ _ Hs Hk). reflexivity.
Qed.

Lemma frame_paints_each_dirty_cell_once_witness :
  Conway.drawGrid
    (Conway.mk [[Conway.dead; Conway.alive]; [Conway.alive; Conway.dead]]
       false false [(0, 1); (1, 1)])
  = (Conway.mk [[Conway.dead; Conway.alive]; [Conway.alive; Conway.dead]]
       false false [],
     [(Conway.Rgba Conway.squareColor 1, (4, 0, 4, 4));
      (Conway.Rgba Conway.backgroundColor 1, (4, 4, 4, 4))],
     Conway.Finished).
Proof.
  apply (frame_paints_each_dirty_cell_once 2 2).
  split.
  - split; [reflexivity|].
    repeat (apply Forall_cons || apply Forall_nil || split);
      try reflexivity; auto.
  - repeat (apply Forall_cons || apply Forall_nil); split; simpl; lia.
Defined.

(** A dirty cell whose status is neither 0 nor 1 (no listener and no
    update writes such a cell) stops the scheduled frame: the squares of
    the keys before it are painted, the error names the status, the dirty
    set is not cleared, and [isDrawingScheduled], set when the frame was
    asked for, is not reset.  From then on [scheduleDraw] asks for no
    frame, whatever the state becomes: nothing is painted any more. *)
Theorem frame_stops_at_unknown_status :
  forall (p : Conway.page) (before after : list (Z * Z)) (row col : Z)
         (cell : Conway.cellArray),
    Conway.isDrawingScheduled p = true ->
    Conway.dirtyCells (Conway.shown p) = before ++ (row, col) :: after ->
    snd (Conway.paint (Conway.grid (Conway.shown p)) before)
    = Conway.Finished ->
    Conway.cell_at (Conway.grid (Conway.shown p)) row col = Ok (Some cell) ->
    fst cell <> 0 -> fst cell <> 1 ->
    Conway.frame p
    = (p, fst (Conway.paint (Conway.grid (Conway.shown p)) before),
       Conway.NotValid (fst cell))
    /\ forall st : Conway.state,
         Conway.scheduleDraw
           (Conway.mkPage st
              (Conway.isDrawingScheduled (fst (fst (Conway.frame p)))))
         = (Conway.mkPage st true, false).
Proof.
  intros [st sched] before after row col cell Hsched Hd Hb Hcell H0 H1.
  cbn [Conway.shown Conway.isDrawingScheduled] in *. subst sched.
  assert (Hp : Conway.paint (Conway.grid st) (Conway.dirtyCells st)
               = (fst (Conway.paint (Conway.grid st) before),
                  Conway.NotValid (fst cell))).
  { rewrite Hd. clear Hd. induction before as [|[r c] before IH].
    - cbn [app Conway.paint fst]. rewrite Hcell. unfold Conway.getCellColor.
      apply Z.eqb_neq in H0, H1. rewrite H0, H1. reflexivity.
    - cbn [app Conway.paint] in *.
      destruct (Conway.cell_at (Conway.grid st) r c) as [[k|]|e];
        try discriminate.
      destruct (Conway.getCellColor k); try discriminate.
      destruct (Conway.paint (Conway.grid st) before) as [l e] eqn:E.
      cbn [snd] in Hb. rewrite (IH Hb). reflexivity. }
  assert (Hframe : Conway.frame (Conway.mkPage st true)
                   = (Conway.mkPage st true,
                      fst (Conway.paint (Conway.grid st) before),
                      Conway.NotValid (fst cell))).
  { unfold Conway.frame, Conway.drawGrid. cbn [Conway.shown].
    rewrite Hp. reflexivity. }
  split; [exact Hframe|]. intros st2. rewrite Hframe. reflexivity.
Qed.

Lemma frame_stops_at_unknown_status_witness :
  Conway.frame
    (Conway.mkPage
       (Conway.mk [[Conway.dead; (2, 1); Conway.alive]] false false
          [(0, 0); (0, 1); (0, 2)]) true)
  = (Conway.mkPage
       (Conway.mk [[Conway.dead; (2, 1); Conway.alive]] false false
          [(0, 0); (0, 1); (0, 2)]) true,
     [(Conway.Rgba Conway.backgroundColor 1, (0, 0, 4, 4))],
     Conway.NotValid 2).
Proof.
  apply (frame_stops_at_unknown_status
           (Conway.mkPage
              (Conway.mk [[Conway.dead; (2, 1); Conway.alive]] false false
                 [(0, 0); (0, 1); (0, 2)]) true)
           [(0, 0)] [(0, 2)] 0 1 (2, 1));
    try reflexivity; simpl; lia.
Defined.

(** ** What every state of the page satisfies *)

Lemma changeSquareColor_sound (rows cols : Z) (st : Conway.state)
  (row col : Z) :
  Life.sound rows cols st ->
  Life.sound rows cols (Conway.changeSquareColor st row col).
Proof.
  intros (Hs & Hk).
  destruct (Z_lt_le_dec row 0) as [Hr0|Hr0];
    [rewrite (changeSquareColor_outside rows cols) by (auto; lia);
     split; assumption|].
  destruct (Z_lt_le_dec row rows) as [Hr1|Hr1];
    [|rewrite (changeSquareColor_outside rows cols) by (auto; lia);
      split; assumption].
  destruct (Z_lt_le_dec col 0) as [Hc0|Hc0];
    [rewrite (changeSquareColor_outside rows cols) by (auto; lia);
     split; assumption|].
  destruct (Z_lt_le_dec col cols) as [Hc1|Hc1];
    [|rewrite (changeSquareColor_outside rows cols) by (auto; lia);
      split; assumption].
  rewrite (changeSquareColor_inside rows cols) by (auto; lia).
  split; cbn [Conway.grid Conway.dirtyCells].
  - apply (set_cell_spec rows cols); auto; lia.
  - apply Forall_forall. intros key Hin. apply add_In in Hin.
    destruct Hin as [Hin | ->].
    + rewrite Forall_forall in Hk. apply Hk, Hin.
    + split; cbn [fst snd]; lia.
Qed.

(** The page starts with a grid of dead cells and nothing dirty, and
    whatever the pointer and the timer then do, in any order, every
    listener and every call of [updateGridConway] and of [drawGrid] leaves
    a grid of [rows] rows of [cols] cells [[0, 1]] or [[1, 1]] and dirty
    keys that are cells of it; on such a state neither the update nor the
    frame throws. *)
Theorem grid_stays_well_formed :
  forall (rows cols : Z),
    Life.sound rows cols (Conway.mk (Conway.fresh rows cols) false false [])
    /\ forall (st : Conway.state) (x y : Z),
         Life.sound rows cols st ->
         Life.sound rows cols (Conway.mousedown st x y)
         /\ Life.sound rows cols (Conway.mousemove st x y)
         /\ Life.sound rows cols (Conway.mouseup st)
         /\ Life.sound rows cols (Conway.mouseleave st)
         /\ (exists st' : Conway.state,
               Conway.updateGridConway rows cols st = Returned st'
               /\ Life.sound rows cols st')
         /\ (exists (st' : Conway.state) (l : list Conway.painted),
               Conway.drawGrid st = (st', l, Conway.Finished)
               /\ Life.sound rows cols st').
Proof.
  intros rows cols. split.
  { split; [apply fresh_shaped | apply Forall_nil]. }
  intros st x y Hsound. pose proof Hsound as (Hs & Hk).
  split.
  { unfold Conway.mousedown, Conway.changeSquareColorAtEvent.
    apply changeSquareColor_sound. split; assumption. }
  split.
  { unfold Conway.mousemove, Conway.changeSquareColorAtEvent.
    destruct (Conway.isDrawing st);
      [apply changeSquareColor_sound|]; assumption. }
  split; [split; assumption|]. split; [split; assumption|].
  split.
  - unfold Conway.updateGridConway.
    destruct (Conway.isPaused st); [exists st; auto|].
    destruct (update_loops rows cols (Conway.grid st) (Conway.dirtyCells st)
                Hs) as (ng & d & Hloop & Hsh & _ & Hdirty).
    rewrite Hloop. eexists. split; [reflexivity|].
    split; cbn [Conway.grid Conway.dirtyCells]; [exact Hsh|].
    apply Forall_forall. intros key Hin. apply Hdirty in Hin.
    destruct Hin as [Hin | (Hi & _)]; [|exact Hi].
    rewrite Forall_forall in Hk. apply Hk, Hin.
  - unfold Conway.drawGrid. rewrite (paint_sound rows cols _ _ Hs Hk).
    do 2 eexists. split; [reflexivity|].
    split; [exact Hs | apply Forall_nil].
Qed.

Lemma grid_stays_well_formed_witness :
  Life.sound 2 3
    (Conway.mousedown (Conway.mk (Conway.fresh 2 3) false false []) 5 6).
Proof.
  destruct (grid_stays_well_formed 2 3) as (H0 & H).
  exact (proj1 (H _ 5 6 H0)).
Defined.
